(** * pkg/tar/stream.go: streaming a shard directory into a tar archive
      and restoring it

    A shallow embedding of [Stream], [SinceFilterTarFile], [StreamFile],
    [StreamRenameFile], [Restore], [extractFile] and [CreateFileFromTar],
    together with executable models of the library functions they call
    (path/filepath, strings, archive/tar, io, os), and the properties of
    the specification that were checked against them.

    What the models leave out:
    - the bytes of the tar format: a sink holds headers, payload bytes
      and end markers, block padding is not shown, and the sink itself
      never fails;
    - symbolic-link resolution, ownership, access rights and the umask of
      the file tree; the working directory is the root of the tree;
    - Windows volume names.
    The two functions of pkg/file that [Restore] and [CreateFileFromTar]
    call, [file.SyncDir] and [file.RenameFile], are described by the
    specification only. *)

From Stdlib Require Import ZArith List Bool String Ascii Lia.
From Stdlib Require Import Strings.Byte.
Import ListNotations.

Open Scope string_scope.
Open Scope Z_scope.

(** ** Errors *)

Inductive Errno := ENOENT | ENOTDIR | EISDIR | EEXIST.

(** The [error] values that reach this package.  [ErrOther] stands for
    any error made by a caller-supplied write function. *)
Inductive Error :=
| EOF                                      (* io.EOF *)
| ErrUnexpectedEOF                         (* io.ErrUnexpectedEOF *)
| ErrHeader                                (* tar.ErrHeader *)
| ErrWriteTooLong                          (* tar.ErrWriteTooLong *)
| ErrWriteAfterClose                       (* tar.ErrWriteAfterClose *)
| ErrMissedWriting (n : Z)                 (* "archive/tar: missed writing %d bytes" *)
| ErrSocketsNotSupported                   (* "archive/tar: sockets not supported" *)
| ErrUnknownFileMode (mode : Z)            (* "archive/tar: unknown file mode %v" *)
| ErrInvalidArchivePath (name : string)    (* fmt.Errorf("invalid archive path: %s", hdr.Name) *)
| PathError (op path : string) (e : Errno) (* *os.PathError *)
| ErrRel (basepath targpath : string)      (* "Rel: can't make %s relative to %s" *)
| SkipDir                                  (* filepath.SkipDir *)
| SkipAll                                  (* filepath.SkipAll *)
| ErrOther (msg : string).

(** A Go [error]: [None] is nil. *)
Definition error := option Error.

(** [err.Error()] for the one error this package formats itself. *)
Definition ErrorString (e : Error) : string :=
  match e with
  | ErrInvalidArchivePath name => "invalid archive path: " ++ name
  | EOF => "EOF"
  | ErrUnexpectedEOF => "unexpected EOF"
  | _ => EmptyString
  end.

(** [err == io.EOF] *)
Definition isEOF (err : error) : bool :=
  match err with Some EOF => true | _ => false end.

(** [err == filepath.SkipDir] and [err == filepath.SkipAll] *)
Definition isSkipDir (err : error) : bool :=
  match err with Some SkipDir => true | _ => false end.
Definition isSkipAll (err : error) : bool :=
  match err with Some SkipAll => true | _ => false end.

Definition isNil (err : error) : bool :=
  match err with None => true | Some _ => false end.

(** ** Strings *)

(** [strings.Split(s, string(c))] generalised to a class of separator
    bytes: a string with [n] separators has [n+1] pieces, and the empty
    string has the single piece [EmptyString]. *)
Fixpoint splitOn (isSep : ascii -> bool) (s : string) : list string :=
  match s with
  | EmptyString => [EmptyString]
  | String c r =>
      if isSep c then EmptyString :: splitOn isSep r
      else match splitOn isSep r with
           | [] => [String c EmptyString]
           | h :: t => String c h :: t
           end
  end.

(** [strings.Join(elems, sep)] *)
Definition joinWith (sep : string) (elems : list string) : string :=
  String.concat sep elems.

Fixpoint mapString (f : ascii -> ascii) (s : string) : string :=
  match s with
  | EmptyString => EmptyString
  | String c r => String (f c) (mapString f r)
  end.

Fixpoint InString (c : ascii) (s : string) : Prop :=
  match s with
  | EmptyString => False
  | String d r => d = c \/ InString c r
  end.

(** ASCII lower-casing, for the case-insensitive comparison of path
    elements on Windows. *)
Definition toLower (c : ascii) : ascii :=
  let n := nat_of_ascii c in
  if (Nat.leb 65 n && Nat.leb n 90)%bool then ascii_of_nat (n + 32) else c.

(** ** path/filepath

    The host is Unix-like or Windows.  Windows volume names (drive
    letters, UNC prefixes) are outside the model: a path is a sequence of
    elements, rooted or not. *)

Inductive GOOS := unix | windows.

Definition backslash : ascii := Eval cbv in ascii_of_nat 92.

Module filepath.
Section Host.
Variable goos : GOOS.

(** [filepath.Separator] *)
Definition Separator : ascii :=
  match goos with unix => "/"%char | windows => backslash end.

(** [os.IsPathSeparator] *)
Definition IsPathSeparator (c : ascii) : bool :=
  match goos with
  | unix => Ascii.eqb c "/"
  | windows => Ascii.eqb c "/" || Ascii.eqb c backslash
  end.

Definition sepString : string := String Separator EmptyString.

(** [filepath.ToSlash]: every [Separator] becomes a slash. *)
Definition ToSlash (path : string) : string :=
  if Ascii.eqb Separator "/" then path
  else mapString (fun c => if Ascii.eqb c Separator then "/"%char else c) path.

(** [filepath.FromSlash]: every slash becomes a [Separator]. *)
Definition FromSlash (path : string) : string :=
  if Ascii.eqb Separator "/" then path
  else mapString (fun c => if Ascii.eqb c "/" then Separator else c) path.

Definition rooted (path : string) : bool :=
  match path with
  | EmptyString => false
  | String c _ => IsPathSeparator c
  end.

(** One step of [Clean]'s scan: [out] is the output so far, last
    element first. *)
Definition cleanStep (isRooted : bool) (out : list string) (e : string)
  : list string :=
  if String.eqb e EmptyString then out           (* empty path element *)
  else if String.eqb e "." then out              (* . element *)
  else if String.eqb e ".." then                 (* .. element *)
    match out with
    | top :: rest =>
        if String.eqb top ".." then ".." :: out  (* leading ../.. prefix *)
        else rest                                (* can backtrack *)
    | [] => if isRooted then [] else [".."]      (* cannot backtrack *)
    end
  else e :: out.                                 (* real path element *)

(** [filepath.Clean]: the path is scanned element by element; empty
    and [.] elements are dropped, a [..] element removes the real element
    before it, is dropped at the root, and is kept at the head of a path
    that is not rooted; the empty result is [.]. *)
Definition Clean (path : string) : string :=
  if String.eqb path EmptyString then "."
  else
    let r := rooted path in
    let out := fold_left (cleanStep r) (splitOn IsPathSeparator path) [] in
    let body := joinWith sepString (rev out) in
    let s := if r then sepString ++ body else body in
    FromSlash (if String.eqb s EmptyString then "." else s).

Fixpoint dropEmpty (elem : list string) : list string :=
  match elem with
  | [] => []
  | e :: r => if String.eqb e EmptyString then dropEmpty r else elem
  end.

(** [filepath.Join]: leading empty elements are ignored, the rest is
    joined with [Separator] and cleaned; the join of no non-empty
    element is the empty string. *)
Definition Join (elem : list string) : string :=
  match dropEmpty elem with
  | [] => EmptyString
  | es => Clean (joinWith sepString es)
  end.

(** [filepath.Split]: the path is cut after its last separator. *)
Fixpoint Split (path : string) : string * string :=
  match path with
  | EmptyString => (EmptyString, EmptyString)
  | String c r =>
      let '(d, f) := Split r in
      if String.eqb d EmptyString then
        if IsPathSeparator c then (String c EmptyString, f)
        else (EmptyString, String c f)
      else (String c d, f)
  end.

(** [sameWord]: equality of path elements, ignoring case on Windows. *)
Definition sameWord (a b : string) : bool :=
  match goos with
  | unix => String.eqb a b
  | windows => String.eqb (mapString toLower a) (mapString toLower b)
  end.

Fixpoint dropCommon (base targ : list string) : list string * list string :=
  match base, targ with
  | b :: bs, t :: ts => if sameWord b t then dropCommon bs ts else (base, targ)
  | _, _ => (base, targ)
  end.

Definition elements (cleaned : string) : list string :=
  filter (fun e => negb (String.eqb e EmptyString))
         (splitOn (Ascii.eqb Separator) cleaned).

(** [filepath.Rel]: the cleaned paths are compared element by element;
    what is left of the base is climbed with [..], what is left of the
    target is appended. *)
Definition Rel (basepath targpath : string) : string + Error :=
  let base := Clean basepath in
  let targ := Clean targpath in
  if sameWord targ base then inl "."
  else
    let base := if String.eqb base "." then EmptyString else base in
    if negb (Bool.eqb (rooted base) (rooted targ)) then
      inr (ErrRel basepath targpath)
    else
      let '(b, t) := dropCommon (elements base) (elements targ) in
      match b with
      | [] => inl (joinWith sepString t)
      | b0 :: _ =>
          if String.eqb b0 ".." then inr (ErrRel basepath targpath)
          else inl (joinWith sepString (map (fun _ => "..") b ++ t))
      end.

(** The base name [os.Lstat] reports for a path: trailing separators
    are dropped, then everything up to the last separator. *)
Definition basename (name : string) : string :=
  match rev (filter (fun e => negb (String.eqb e EmptyString))
                    (splitOn IsPathSeparator name)) with
  | [] => if String.eqb name EmptyString then EmptyString else sepString
  | e :: _ => e
  end.

End Host.
End filepath.

(** ** os: file modes, file infos and the file tree *)

(** [os.FileMode] is a uint32; the bits the code looks at. *)
Definition ModeDir        : Z := Z.shiftl 1 31.
Definition ModeSymlink    : Z := Z.shiftl 1 27.
Definition ModeDevice     : Z := Z.shiftl 1 26.
Definition ModeNamedPipe  : Z := Z.shiftl 1 25.
Definition ModeSocket     : Z := Z.shiftl 1 24.
Definition ModeSetuid     : Z := Z.shiftl 1 23.
Definition ModeSetgid     : Z := Z.shiftl 1 22.
Definition ModeCharDevice : Z := Z.shiftl 1 21.
Definition ModeSticky     : Z := Z.shiftl 1 20.
Definition ModeIrregular  : Z := Z.shiftl 1 19.
Definition ModeType : Z :=
  Z.lor ModeDir (Z.lor ModeSymlink (Z.lor ModeNamedPipe (Z.lor ModeSocket
    (Z.lor ModeDevice (Z.lor ModeCharDevice ModeIrregular))))).
Definition ModePerm : Z := 511. (* 0777 *)

Definition hasBit (m bit : Z) : bool := negb (Z.land m bit =? 0).

(** [FileMode.IsDir], [FileMode.IsRegular], [FileMode.Perm] *)
Definition IsDir (m : Z) : bool := hasBit m ModeDir.
Definition IsRegular (m : Z) : bool := Z.land m ModeType =? 0.
Definition Perm (m : Z) : Z := Z.land m ModePerm.

(** [os.FileMode(x)] for an int64 [x]: conversion to uint32. *)
Definition FileMode (x : Z) : Z := x mod 2 ^ 32.

(** [time.Time] as an instant, in nanoseconds; [t.After(u)]. *)
Definition Time := Z.
Definition After (t u : Time) : bool := u <? t.

(** What the code reads of an [os.FileInfo]. *)
Record FileInfo := mkFileInfo {
  fi_Name : string;
  fi_Size : Z;
  fi_Mode : Z;
  fi_ModTime : Time
}.

(** The file tree.  [size] is what [Lstat] reports and [data] what a later
    [Open] reads: the two differ when another process changes the file in
    between.  A [File] is any node that is not a directory (its mode says
    whether it is regular, a symlink, a device ...). *)
#[warnings="-register-all"]
Inductive Node :=
| File (mode : Z) (modTime : Time) (size : Z) (data : list byte)
| Dir (mode : Z) (modTime : Time) (entries : list (string * Node)).

(** The [FileInfo] of a node under the name [name]: the mode has the
    directory bit for directories and for nothing else. *)
Definition nodeInfo (name : string) (n : Node) : FileInfo :=
  match n with
  | File mode mt size _ => mkFileInfo name size (Z.ldiff mode ModeDir) mt
  | Dir mode mt _ => mkFileInfo name 0 (Z.lor (Z.ldiff mode ModeType) ModeDir) mt
  end.

Fixpoint getEntry (name : string) (es : list (string * Node)) : option Node :=
  match es with
  | [] => None
  | (k, v) :: r => if String.eqb k name then Some v else getEntry name r
  end.

Fixpoint setEntry (name : string) (v : Node) (es : list (string * Node))
  : list (string * Node) :=
  match es with
  | [] => [(name, v)]
  | (k, w) :: r =>
      if String.eqb k name then (k, v) :: r else (k, w) :: setEntry name v r
  end.

Fixpoint delEntry (name : string) (es : list (string * Node))
  : list (string * Node) :=
  match es with
  | [] => []
  | (k, w) :: r => if String.eqb k name then r else (k, w) :: delEntry name r
  end.

(** The node at a sequence of path elements below [root]. *)
Fixpoint lookup (p : list string) (root : Node) : option Node :=
  match p with
  | [] => Some root
  | e :: p' =>
      match root with
      | Dir _ _ es =>
          match getEntry e es with
          | Some n => lookup p' n
          | None => None
          end
      | File _ _ _ _ => None
      end
  end.

(** Replace, create ([Some]) or remove ([None]) the node at [p]; the
    parent must be an existing directory. *)
Fixpoint store (p : list string) (v : option Node) (root : Node) : option Node :=
  match p with
  | [] => v
  | e :: p' =>
      match root with
      | Dir m t es =>
          match p' with
          | [] =>
              Some (Dir m t (match v with
                             | Some n => setEntry e n es
                             | None => delEntry e es
                             end))
          | _ :: _ =>
              match getEntry e es with
              | Some child =>
                  match store p' v child with
                  | Some child' => Some (Dir m t (setEntry e child' es))
                  | None => None
                  end
              | None => None
              end
          end
      | File _ _ _ _ => None
      end
  end.

Section OS.
Variable goos : GOOS.

(** The elements a path names, from the root of the tree (which is also
    the working directory). *)
Definition pathKey (path : string) : list string :=
  filter (fun e => negb (String.eqb e EmptyString || String.eqb e "." || String.eqb e ".."))
         (splitOn (filepath.IsPathSeparator goos) (filepath.Clean goos path)).

Definition node (fs : Node) (path : string) : option Node :=
  if String.eqb path EmptyString then None else lookup (pathKey path) fs.

(** [os.Lstat] *)
Definition Lstat (fs : Node) (path : string) : FileInfo + Error :=
  match node fs path with
  | Some n => inl (nodeInfo (filepath.basename goos path) n)
  | None => inr (PathError "lstat" path ENOENT)
  end.

(** [os.Open], then reading the file to its end. *)
Definition Open (fs : Node) (path : string) : list byte + Error :=
  match node fs path with
  | Some (File _ _ _ data) => inl data
  | Some (Dir _ _ _) => inl []
  | None => inr (PathError "open" path ENOENT)
  end.

(** [os.Mkdir] *)
Definition Mkdir (fs : Node) (path : string) (perm : Z) : Node * error :=
  match node fs path with
  | Some _ => (fs, Some (PathError "mkdir" path EEXIST))
  | None =>
      match store (pathKey path) (Some (Dir perm 0 [])) fs with
      | Some fs' => (fs', None)
      | None => (fs, Some (PathError "mkdir" path ENOENT))
      end
  end.

(** The directories [os.MkdirAll] goes through for the elements [p]:
    every prefix, shortest first. *)
Fixpoint mkdirAllFrom (done p : list string) (perm : Z) (fs : Node)
  : Node * option Errno :=
  match p with
  | [] => (fs, None)
  | e :: p' =>
      let here := (done ++ [e])%list in
      match lookup here fs with
      | Some (Dir _ _ _) => mkdirAllFrom here p' perm fs
      | Some (File _ _ _ _) => (fs, Some ENOTDIR)
      | None =>
          match store here (Some (Dir perm 0 [])) fs with
          | Some fs' => mkdirAllFrom here p' perm fs'
          | None => (fs, Some ENOTDIR)
          end
      end
  end.

(** [os.MkdirAll]: nothing to do for an existing directory; otherwise
    the missing ancestors and the directory are made with [perm]. *)
Definition MkdirAll (fs : Node) (path : string) (perm : Z) : Node * error :=
  match node fs path with
  | Some (Dir _ _ _) => (fs, None)
  | Some (File _ _ _ _) => (fs, Some (PathError "mkdir" path ENOTDIR))
  | None =>
      if String.eqb path EmptyString then (fs, Some (PathError "mkdir" path ENOENT))
      else
        match mkdirAllFrom [] (pathKey path) perm fs with
        | (fs', None) => (fs', None)
        | (fs', Some e) => (fs', Some (PathError "mkdir" path e))
        end
  end.

End OS.

(** ** archive/tar *)

Inductive TypeFlag :=
| TypeReg | TypeLink | TypeSymlink | TypeChar | TypeBlock | TypeDir | TypeFifo.

Definition TypeFlag_eqb (a b : TypeFlag) : bool :=
  match a, b with
  | TypeReg, TypeReg | TypeLink, TypeLink | TypeSymlink, TypeSymlink
  | TypeChar, TypeChar | TypeBlock, TypeBlock | TypeDir, TypeDir
  | TypeFifo, TypeFifo => true
  | _, _ => false
  end.

(** The entry kinds that have no data section, even if a size is given. *)
Definition isHeaderOnlyType (flag : TypeFlag) : bool :=
  match flag with
  | TypeLink | TypeSymlink | TypeChar | TypeBlock | TypeDir | TypeFifo => true
  | TypeReg => false
  end.

Record Header := mkHeader {
  Typeflag : TypeFlag;
  Name : string;
  Linkname : string;
  Size : Z;
  Mode : Z;
  ModTime : Time
}.

Definition withName (h : Header) (name : string) : Header :=
  mkHeader (Typeflag h) name (Linkname h) (Size h) (Mode h) (ModTime h).

Definition c_ISUID : Z := 2048. (* 04000 *)
Definition c_ISGID : Z := 1024. (* 02000 *)
Definition c_ISVTX : Z := 512.  (* 01000 *)

(** [tar.FileInfoHeader(fi, link)] *)
Definition FileInfoHeader (fi : FileInfo) (link : string) : Header + Error :=
  let fm := fi_Mode fi in
  let mode :=
    Z.lor (Z.lor (Z.lor (Perm fm)
      (if hasBit fm ModeSetuid then c_ISUID else 0))
      (if hasBit fm ModeSetgid then c_ISGID else 0))
      (if hasBit fm ModeSticky then c_ISVTX else 0) in
  let h flag name linkname size :=
    inl (mkHeader flag name linkname size mode (fi_ModTime fi)) in
  if IsRegular fm then h TypeReg (fi_Name fi) EmptyString (fi_Size fi)
  else if IsDir fm then h TypeDir (fi_Name fi ++ "/") EmptyString 0
  else if hasBit fm ModeSymlink then h TypeSymlink (fi_Name fi) link 0
  else if hasBit fm ModeDevice then
    if hasBit fm ModeCharDevice then h TypeChar (fi_Name fi) EmptyString 0
    else h TypeBlock (fi_Name fi) EmptyString 0
  else if hasBit fm ModeNamedPipe then h TypeFifo (fi_Name fi) EmptyString 0
  else if hasBit fm ModeSocket then inr ErrSocketsNotSupported
  else inr (ErrUnknownFileMode fm).

(** What a [tar.Writer] puts on its sink, block padding left out: headers,
    payload bytes, and the two zero blocks that end an archive. *)
Inductive Block :=
| BHeader (h : Header)
| BData (b : list byte)
| BEnd.

(** The sink [w io.Writer]: what has been written to it so far. *)
Definition Sink := list Block.

(** [tar.Writer]: the sink, the payload bytes still owed for the current
    entry, and the sticky error. *)
Record Writer := mkWriter {
  w_out : Sink;
  w_nb : Z;
  w_err : error
}.

Module tw.

Definition NewWriter (w : Sink) : Writer := mkWriter w 0 None.

(** [tw.Flush()]: the current entry must be fully written. *)
Definition Flush (t : Writer) : Writer * error :=
  match w_err t with
  | Some e => (t, Some e)
  | None =>
      if 0 <? w_nb t then (t, Some (ErrMissedWriting (w_nb t)))
      else (t, None)
  end.

(** [tw.Close()]: flush, then the two zero blocks; afterwards every
    action on the writer is invalid. *)
Definition Close (t : Writer) : Writer * error :=
  match w_err t with
  | Some ErrWriteAfterClose => (t, None)
  | Some e => (t, Some e)
  | None =>
      match Flush t with
      | (t1, None) =>
          (mkWriter (w_out t1 ++ [BEnd])%list (w_nb t1) (Some ErrWriteAfterClose), None)
      | (t1, Some e) =>
          (mkWriter (w_out t1) (w_nb t1) (Some ErrWriteAfterClose), Some e)
      end
  end.

(** [tw.WriteHeader(hdr)]: flush, then the header; a header-only kind
    owes no payload whatever its size, and a negative size cannot be
    encoded.  The sink itself never fails. *)
Definition WriteHeader (t : Writer) (hdr : Header) : Writer * error :=
  match Flush t with
  | (t1, Some e) => (t1, Some e)
  | (t1, None) =>
      if negb (isHeaderOnlyType (Typeflag hdr)) && (Size hdr <? 0)
      then (t1, Some ErrHeader)               (* cannot be encoded; not sticky *)
      else
        let size := if isHeaderOnlyType (Typeflag hdr) then 0 else Size hdr in
        (mkWriter (w_out t1 ++ [BHeader hdr])%list size None, None)
  end.

(** [tw.Write(b)]: at most the owed bytes are taken. *)
Definition Write (t : Writer) (b : list byte) : Writer * Z * error :=
  match w_err t with
  | Some e => (t, 0, Some e)
  | None =>
      let len := Z.of_nat (List.length b) in
      let n := Z.min len (Z.max 0 (w_nb t)) in
      let t' := if 0 <? n
                then mkWriter (w_out t ++ [BData (firstn (Z.to_nat n) b)])%list
                              (w_nb t - n) None
                else t in
      (t', n, if w_nb t <? len then Some ErrWriteTooLong else None)
  end.

End tw.

(** A [tar.Reader] over a stream: the entries still to come, each with the
    payload bytes the stream really holds for it (fewer than the header
    promises when the stream is cut short); how the stream ends after them
    ([None]: a proper end of archive); what is left of the current entry;
    the sticky error. *)
Record Entry := mkEntry {
  e_hdr : Header;
  e_data : list byte
}.

Record Reader := mkReader {
  r_pending : list Entry;
  r_tail : error;
  r_nb : Z;
  r_avail : list byte;
  r_err : error
}.

Module tr.

Definition NewReader (entries : list Entry) (tail : error) : Reader :=
  mkReader entries tail 0 [] None.

Definition fail (t : Reader) (e : Error) : Reader :=
  mkReader (r_pending t) (r_tail t) (r_nb t) (r_avail t) (Some e).

(** [tr.Next()]: skip what is left of the current entry, then decode
    the next header; [io.EOF] at the end of the archive. *)
Definition Next (t : Reader) : Reader * (Header + Error) :=
  match r_err t with
  | Some e => (t, inr e)
  | None =>
      if Z.of_nat (List.length (r_avail t)) <? r_nb t
      then (fail t ErrUnexpectedEOF, inr ErrUnexpectedEOF)
      else
        match r_pending t with
        | [] =>
            let e := match r_tail t with Some e => e | None => EOF end in
            (mkReader [] (r_tail t) 0 [] (Some e), inr e)
        | en :: rest =>
            let hdr := e_hdr en in
            let nb := if isHeaderOnlyType (Typeflag hdr) then 0 else Size hdr in
            if nb <? 0 then (fail t ErrHeader, inr ErrHeader)
            else (mkReader rest (r_tail t) nb (e_data en) None, inl hdr)
        end
  end.

End tr.

(** ** io *)

(** [io.Reader]: [readUpTo r n] is what reading through
    [io.LimitReader(r, n)] to its end gives: the bytes delivered and the
    error that stopped the reading, nil for [io.EOF] and for the limit. *)
Class ioReader (R : Type) := { readUpTo : R -> Z -> R * list byte * error }.

(** [io.Writer]: the number of bytes taken and the error. *)
Class ioWriter (W : Type) := { writeBytes : W -> list byte -> W * Z * error }.

(** [io.CopyN(dst, src, n)]: what is read through the limit is written
    to [dst] (nothing is written when nothing was read); a copy that
    stops before [n] bytes without an error returns [io.EOF]. *)
Definition CopyN {W R : Type} `{ioWriter W} `{ioReader R}
  (dst : W) (src : R) (n : Z) : W * R * Z * error :=
  let '(src', bs, rerr) := readUpTo src n in
  let '(dst', written, werr) :=
    match bs with
    | [] => (dst, 0, None)
    | _ :: _ => writeBytes dst bs
    end in
  let err := match werr with Some e => Some e | None => rerr end in
  if written =? n then (dst', src', n, None)
  else if (written <? n) && isNil err then (dst', src', written, Some EOF)
  else (dst', src', written, err).

(** An [*os.File] opened for reading: the bytes not yet read. *)
Definition ReadFile := list byte.

#[global] Instance ReadFile_ioReader : ioReader ReadFile :=
  {| readUpTo fr n :=
       let k := Z.to_nat n in (skipn k fr, firstn k fr, None) |}.

#[global] Instance Writer_ioWriter : ioWriter Writer :=
  {| writeBytes := tw.Write |}.

(** [tr.Read]: within the current entry; cut-short payload is
    [io.ErrUnexpectedEOF]. *)
#[global] Instance Reader_ioReader : ioReader Reader :=
  {| readUpTo t n :=
       match r_err t with
       | Some e => (t, [], if isEOF (Some e) then None else Some e)
       | None =>
           let k := Z.to_nat (Z.min n (r_nb t)) in
           if Nat.ltb (List.length (r_avail t)) k
           then (mkReader (r_pending t) (r_tail t)
                          (r_nb t - Z.of_nat (List.length (r_avail t))) []
                          (Some ErrUnexpectedEOF),
                 r_avail t, Some ErrUnexpectedEOF)
           else (mkReader (r_pending t) (r_tail t) (r_nb t - Z.of_nat k)
                          (skipn k (r_avail t)) None,
                 firstn k (r_avail t), None)
       end |}.

(** ** filepath.Walk *)

Fixpoint insertByName {A : Type} (x : string * A) (l : list (string * A))
  : list (string * A) :=
  match l with
  | [] => [x]
  | y :: r => if String.leb (fst x) (fst y) then x :: l else y :: insertByName x r
  end.

(** Directory entries in the order of their names, as [readDirNames]
    sorts them. *)
Definition sortByName {A : Type} (l : list (string * A)) : list (string * A) :=
  fold_right insertByName [] l.

Section Walk.
Variable goos : GOOS.
Variable fs : Node.

(** The state the callback works on. *)
Context {S : Type}.

(** [filepath.WalkFunc]: the callback gets the path and either the file
    info or the error of getting it. *)
Definition WalkFunc := string -> FileInfo + Error -> S -> S * error.

(** The loop of [walk] over the entries of a directory, each entry
    given with the walk of its subtree. *)
Fixpoint walkEntries (subs : list (string * (FileInfo * (S -> S * error))))
  (s : S) : S * error :=
  match subs with
  | [] => (s, None)
  | (_, (fileInfo, sub)) :: rest =>
      match sub s with
      | (s', None) => walkEntries rest s'
      | (s', Some e) =>
          if negb (IsDir (fi_Mode fileInfo)) || negb (isSkipDir (Some e))
          then (s', Some e)
          else walkEntries rest s'
      end
  end.

(** [walk]: the callback on the node, then, for a directory, its
    entries in lexical order. *)
Fixpoint walk (n : Node) (path : string) (info : FileInfo) (walkFn : WalkFunc)
  (s : S) : S * error :=
  match n with
  | File _ _ _ _ => walkFn path (inl info) s
  | Dir _ _ es =>
      match walkFn path (inl info) s with
      | (s1, Some e) => (s1, Some e)
      | (s1, None) =>
          walkEntries
            (sortByName
               (map (fun ne : string * Node =>
                       let filename := filepath.Join goos [path; fst ne] in
                       (fst ne,
                        (nodeInfo (fst ne) (snd ne),
                         walk (snd ne) filename (nodeInfo (fst ne) (snd ne)) walkFn)))
                    es))
            s1
      end
  end.

(** [filepath.Walk(root, fn)] *)
Definition Walk (root : string) (fn : WalkFunc) (s : S) : S * error :=
  let '(s', err) :=
    match node goos fs root with
    | None => fn root (inr (PathError "lstat" root ENOENT)) s
    | Some n => walk n root (nodeInfo (filepath.basename goos root) n) fn s
    end in
  if isSkipDir err || isSkipAll err then (s', None) else (s', err).

End Walk.

(** ** The archiver: [Stream], [SinceFilterTarFile], [StreamFile],
       [StreamRenameFile] *)

Section Archiver.
Variable goos : GOOS.

(** The file tree while a directory is streamed. *)
Variable fs : Node.

(** [func(f os.FileInfo, shardRelativePath, fullPath string,
          tw *tar.Writer) error] *)
Definition WriteFunc := FileInfo -> string -> string -> Writer -> Writer * error.

(** [StreamRenameFile]: stream a single file to [tw], using
    [tarHeaderFileName] instead of the actual file name. *)
Definition StreamRenameFile (f : FileInfo)
  (tarHeaderFileName relativePath fullPath : string) (tw : Writer)
  : Writer * error :=
  match FileInfoHeader f (fi_Name f) with
  | inr err => (tw, Some err)
  | inl h =>
      let h := withName h
                 (filepath.ToSlash goos
                    (filepath.Join goos [relativePath; tarHeaderFileName])) in
      match tw.WriteHeader tw h with
      | (tw, Some err) => (tw, Some err)
      | (tw, None) =>
          if negb (IsRegular (fi_Mode f)) then (tw, None)
          else
            match Open goos fs fullPath with
            | inr err => (tw, Some err)
            | inl fr =>
                (* defer fr.Close() *)
                let '(tw, _, _, err) := CopyN tw fr (Size h) in
                (tw, err)
            end
      end
  end.

(** [StreamFile]: stream a single file to [tw], extending the header
    name using the [shardRelativePath]. *)
Definition StreamFile : WriteFunc :=
  fun f shardRelativePath fullPath tw =>
    StreamRenameFile f (fi_Name f) shardRelativePath fullPath tw.

(** [SinceFilterTarFile]: only writes the file to the stream if its mod
    time is later than [since]. *)
Definition SinceFilterTarFile (since : Time) : WriteFunc :=
  fun f shardRelativePath fullPath tw =>
    if After (fi_ModTime f) since
    then StreamFile f shardRelativePath fullPath tw
    else (tw, None).

(** The function [Stream] hands to [filepath.Walk]. *)
Definition streamWalkFn (dir relativePath : string) (writeFunc : WriteFunc)
  (keepTarOpen : bool) : @WalkFunc Writer :=
  fun path f tw =>
    match f with
    | inr err => (tw, Some err)
    | inl f =>
        (* Skip adding an entry for the root dir *)
        if String.eqb dir path && IsDir (fi_Mode f) then
          if keepTarOpen then writeFunc f relativePath path tw
          else (tw, None)
        else
          (* Figure out the full relative path including any sub-dirs *)
          let '(subDir, _) := filepath.Split goos path in
          match filepath.Rel goos dir subDir with
          | inr err => (tw, Some err)
          | inl subDir =>
              writeFunc f (filepath.Join goos [relativePath; subDir]) path tw
          end
    end.

(** [writeFunc == nil] selects [StreamFile]. *)
Definition orStreamFile (writeFunc : option WriteFunc) : WriteFunc :=
  match writeFunc with
  | None => StreamFile
  | Some wf => wf
  end.

(** The body of [Stream] up to its return: the tar writer after the
    walk, and the error to return. *)
Definition streamWalk (w : Sink) (dir relativePath : string)
  (writeFunc : option WriteFunc) (keepTarOpen : bool) : Writer * error :=
  let tw := tw.NewWriter w in
  let writeFunc := orStreamFile writeFunc in
  Walk goos fs dir (streamWalkFn dir relativePath writeFunc keepTarOpen) tw.

(** The deferred call: [tw.Flush()] when the tar is kept open, else
    [tw.Close()]; its error is dropped. *)
Definition streamDeferred (keepTarOpen : bool) (tw : Writer) : Writer :=
  if keepTarOpen then fst (tw.Flush tw) else fst (tw.Close tw).

(** [Stream]: the sink when it returns, and the error returned. *)
Definition Stream (w : Sink) (dir relativePath : string)
  (writeFunc : option WriteFunc) (keepTarOpen : bool) : Sink * error :=
  let '(tw, err) := streamWalk w dir relativePath writeFunc keepTarOpen in
  (w_out (streamDeferred keepTarOpen tw), err).

End Archiver.

(** ** The restorer: [Restore], [extractFile], [CreateFileFromTar] *)

(** What has been forced to durable storage, latest first. *)
Inductive Durable :=
| FileSynced (path : string)
| DirSynced (path : string).

(** The state a restore works on: the file tree, the tar reader [tr] and
    the syncs done. *)
Record RState := mkRState {
  r_fs : Node;
  r_tr : Reader;
  r_log : list Durable
}.

(** A Go function that may change the state and returns a value or an
    error. *)
Definition M (A : Type) : Type := RState -> RState * (A + Error).

Definition ret {A : Type} (a : A) : M A := fun s => (s, inl a).
Definition raise {A : Type} (e : Error) : M A := fun s => (s, inr e).
Definition bind {A B : Type} (m : M A) (k : A -> M B) : M B :=
  fun s =>
    match m s with
    | (s', inl a) => k a s'
    | (s', inr e) => (s', inr e)
    end.

Declare Scope go_scope.
Delimit Scope go_scope with go.
Notation "x <- m ;; k" := (bind m (fun x => k))
  (at level 61, m at next level, right associativity) : go_scope.
Notation "m ;; k" := (bind m (fun _ : unit => k))
  (at level 61, right associativity) : go_scope.

(** The [error] a call returned. *)
Definition errorOf {A : Type} (r : A + Error) : error :=
  match r with inl _ => None | inr e => Some e end.

(** An [*os.File] opened for writing: its path and offset. *)
Record WriteFile := mkWriteFile {
  f_name : string;
  f_off : nat
}.

Definition O_RDWR : Z := 2.
Definition O_CREATE : Z := 64.
Definition O_TRUNC : Z := 512.

Section Restorer.
Variable goos : GOOS.

Definition liftFs (op : Node -> Node * error) : M unit :=
  fun s =>
    match op (r_fs s) with
    | (fs', None) => (mkRState fs' (r_tr s) (r_log s), inl tt)
    | (fs', Some e) => (mkRState fs' (r_tr s) (r_log s), inr e)
    end.

Definition trNext : M Header :=
  fun s =>
    let '(t, r) := tr.Next (r_tr s) in
    (mkRState (r_fs s) t (r_log s), r).

(** [os.OpenFile(name, flag, perm)] for writing: an existing file is
    opened as it is unless [O_TRUNC] is given; a missing one is made
    with [perm] if [O_CREATE] is given. *)
Definition OpenFile (name : string) (flag perm : Z) : M WriteFile :=
  fun s =>
    match node goos (r_fs s) name with
    | Some (Dir _ _ _) => (s, inr (PathError "open" name EISDIR))
    | Some (File mode mt size data) =>
        if hasBit flag O_TRUNC then
          match store (pathKey goos name) (Some (File mode mt 0 [])) (r_fs s) with
          | Some fs' => (mkRState fs' (r_tr s) (r_log s), inl (mkWriteFile name 0))
          | None => (s, inr (PathError "open" name ENOENT))
          end
        else (s, inl (mkWriteFile name 0))
    | None =>
        if hasBit flag O_CREATE && negb (String.eqb name EmptyString) then
          match store (pathKey goos name) (Some (File perm 0 0 [])) (r_fs s) with
          | Some fs' => (mkRState fs' (r_tr s) (r_log s), inl (mkWriteFile name 0))
          | None => (s, inr (PathError "open" name ENOENT))
          end
        else (s, inr (PathError "open" name ENOENT))
    end.

(** [f.Write(b)]: the bytes replace what the file holds from the
    offset on, and extend it. *)
Definition fileWrite (st : Node * WriteFile) (b : list byte)
  : Node * WriteFile * Z * error :=
  let '(fs, f) := st in
  match node goos fs (f_name f) with
  | Some (File mode mt _ data) =>
      let data' := (firstn (f_off f) data ++ b
                      ++ skipn (f_off f + List.length b) data)%list in
      match store (pathKey goos (f_name f))
                  (Some (File mode mt (Z.of_nat (List.length data')) data')) fs with
      | Some fs' =>
          (fs', mkWriteFile (f_name f) (f_off f + List.length b),
           Z.of_nat (List.length b), None)
      | None => (fs, f, 0, Some (PathError "write" (f_name f) ENOENT))
      end
  | _ => (fs, f, 0, Some (PathError "write" (f_name f) ENOENT))
  end.

#[local] Instance WriteFile_ioWriter : ioWriter (Node * WriteFile) :=
  {| writeBytes := fileWrite |}.

(** [io.CopyN(f, tr, n)] *)
Definition copyFromTar (f : WriteFile) (n : Z) : M WriteFile :=
  fun s =>
    let '(fs', f', t', _, err) := CopyN (r_fs s, f) (r_tr s) n in
    (mkRState fs' t' (r_log s),
     match err with None => inl f' | Some e => inr e end).

(** [f.Sync()] *)
Definition fSync (f : WriteFile) : M unit :=
  fun s => (mkRState (r_fs s) (r_tr s) (FileSynced (f_name f) :: r_log s), inl tt).

(** [f.Close()] *)
Definition fClose (f : WriteFile) : M unit := ret tt.

(** Modelled from the spec: [file.RenameFile] of pkg/file, the durable
    rename: the file at [oldpath] atomically replaces the one at
    [newpath], whatever it held.  A missing [oldpath], a missing parent
    of [newpath] and a directory at [newpath] are errors that leave the
    tree as it is. *)
Definition RenameFile (oldpath newpath : string) : M unit :=
  liftFs (fun fs =>
    match node goos fs oldpath with
    | Some (File mode mt size data) =>
        match node goos fs newpath with
        | Some (Dir _ _ _) => (fs, Some (PathError "rename" newpath EISDIR))
        | _ =>
            match store (pathKey goos newpath) (Some (File mode mt size data)) fs with
            | Some fs1 =>
                match store (pathKey goos oldpath) None fs1 with
                | Some fs2 => (fs2, None)
                | None => (fs, Some (PathError "rename" oldpath ENOENT))
                end
            | None => (fs, Some (PathError "rename" newpath ENOENT))
            end
        end
    | _ => (fs, Some (PathError "rename" oldpath ENOENT))
    end).

(** Modelled from the spec: [file.SyncDir] of pkg/file, the directory
    sync: the entry list of the directory at [dirName] is forced to be
    durable; it is an error if there is no such directory. *)
Definition SyncDir (dirName : string) : M unit :=
  fun s =>
    match node goos (r_fs s) dirName with
    | Some (Dir _ _ _) =>
        (mkRState (r_fs s) (r_tr s) (DirSynced dirName :: r_log s), inl tt)
    | Some (File _ _ _ _) => (s, inr (PathError "open" dirName ENOTDIR))
    | None => (s, inr (PathError "open" dirName ENOENT))
    end.

Open Scope go_scope.

(** [CreateFileFromTar]: copies the contents of the current file in the
    tar into a local file via a temp file. *)
Definition CreateFileFromTar (destPath : string) (hdr : Header) : M unit :=
  let tmp := destPath ++ ".tmp" in
  (* Create new file on disk. *)
  f <- OpenFile tmp (Z.lor O_CREATE O_RDWR) (Perm (FileMode (Mode hdr))) ;;
  (* defer f.Close() *)
  (* Copy from archive to the file. *)
  f <- copyFromTar f (Size hdr) ;;
  (* Sync to disk & close. *)
  fSync f ;;
  fClose f ;;
  RenameFile tmp destPath.

(** [extractFile]: copies the next file from [tr] into [dir]. *)
Definition extractFile (dir : string) : M unit :=
  (* Read next archive file. *)
  hdr <- trNext ;;
  let sections :=
    splitOn (Ascii.eqb (filepath.Separator goos))
            (filepath.FromSlash goos (Name hdr)) in
  if Nat.ltb (List.length sections) 3 then
    raise (ErrInvalidArchivePath (Name hdr))
  else
    let relativePath := filepath.Join goos (skipn 3 sections) in
    let '(subDir, _) := filepath.Split goos relativePath in
    (* If this is a directory entry, create it and move on. *)
    if TypeFlag_eqb (Typeflag hdr) TypeDir then
      liftFs (fun fs => MkdirAll goos fs (filepath.Join goos [dir; subDir])
                                 (Perm (FileMode (Mode hdr))))
    else
      (* Make sure the dir we need to write into exists. *)
      (if negb (String.eqb subDir EmptyString) then
         liftFs (fun fs => MkdirAll goos fs (filepath.Join goos [dir; subDir]) 493)
       else ret tt) ;;
      let destPath := filepath.Join goos [dir; relativePath] in
      CreateFileFromTar destPath hdr.

(** The [for] loop of [Restore]: [inl] when it is left by [break],
    [inr] when it is left by [return err]; [None] when [fuel] rounds
    were not enough. *)
Fixpoint restoreLoop (fuel : nat) (dir : string) (s : RState)
  : option (RState * (unit + Error)) :=
  match fuel with
  | O => None
  | Datatypes.S fuel' =>
      let '(s', r) := extractFile dir s in
      let err := errorOf r in
      if isEOF err then Some (s', inl tt)
      else match err with
           | Some e => Some (s', inr e)
           | None => restoreLoop fuel' dir s'
           end
  end.

(** [Restore]: reads a tar archive from [r] and extracts all of its
    files into [dir].  The archive has finitely many entries, one is
    consumed in each round. *)
Definition Restore (r : list Entry * error) (dir : string)
  (fs : Node) (log : list Durable) : option (RState * error) :=
  let t := tr.NewReader (fst r) (snd r) in
  match restoreLoop (Datatypes.S (List.length (fst r))) dir (mkRState fs t log) with
  | None => None
  | Some (s, inr e) => Some (s, Some e)
  | Some (s, inl _) =>
      let '(s', res) := SyncDir dir s in
      Some (s', errorOf res)
  end.

End Restorer.

(** ** The vocabulary of the properties *)

(** A writer that can take a new header: no sticky error, nothing owed. *)
Definition ready (t : Writer) : Prop := w_err t = None /\ w_nb t <= 0.

(** The payload blocks a copy of [bs] leaves on the sink. *)
Definition dataBlocks (bs : list byte) : list Block :=
  match bs with
  | [] => []
  | _ :: _ => [BData bs]
  end.

(** The name [StreamRenameFile] gives the entry. *)
Definition entryName (goos : GOOS) (relativePath tarHeaderFileName : string)
  : string :=
  filepath.ToSlash goos (filepath.Join goos [relativePath; tarHeaderFileName]).

(** A call left the writer in order: on nil the writer is ready for the
    next header, and the error is none that [Walk] swallows. *)
Definition exitOK (r : Writer * error) : Prop :=
  match snd r with
  | None => ready (fst r)
  | Some e => e <> SkipDir /\ e <> SkipAll
  end.

Definition keepsReady (wf : WriteFunc) : Prop :=
  forall f rel full t, ready t -> exitOK (wf f rel full t).

(** A walk of a subtree that leaves the writer in order. *)
Definition soundWalk (sub : Writer -> Writer * error) : Prop :=
  forall t, ready t -> exitOK (sub t).

(** The [FileInfo] [Walk] gets for its root. *)
Definition rootInfo (goos : GOOS) (dir : string) (n : Node) : FileInfo :=
  nodeInfo (filepath.basename goos dir) n.

(** The walks of the entries of the directory at [path], in the order
    [walk] takes them. *)
Definition childWalks (goos : GOOS) {S : Type} (path : string)
  (es : list (string * Node)) (walkFn : @WalkFunc S)
  : list (string * (FileInfo * (S -> S * error))) :=
  sortByName
    (map (fun ne : string * Node =>
            (fst ne,
             (nodeInfo (fst ne) (snd ne),
              walk goos (snd ne) (filepath.Join goos [path; fst ne])
                   (nodeInfo (fst ne) (snd ne)) walkFn)))
         es).

(** What [Walk] returns for the error of the walk: [SkipDir] and
    [SkipAll] become nil. *)
Definition skipToNil {S : Type} (r : S * error) : S * error :=
  if isSkipDir (snd r) || isSkipAll (snd r) then (fst r, None) else r.

Definition pending (s : RState) : list Entry := r_pending (r_tr s).

(** A step that consumes no archive entry. *)
Definition keepsPending {A : Type} (m : M A) : Prop :=
  forall s, pending (fst (m s)) = pending s.

(** The path sections [extractFile] computes for an entry name. *)
Definition sectionsOf (goos : GOOS) (name : string) : list string :=
  splitOn (Ascii.eqb (filepath.Separator goos)) (filepath.FromSlash goos name).

(** Induction on the file tree, with the entries of a directory. *)
Fixpoint Node_induction (P : Node -> Prop)
  (HFile : forall m t sz d, P (File m t sz d))
  (HDir : forall m t es, Forall (fun ne => P (snd ne)) es -> P (Dir m t es))
  (n : Node) : P n :=
  match n with
  | File m t sz d => HFile m t sz d
  | Dir m t es =>
      HDir m t es
        ((fix entries (l : list (string * Node)) : Forall (fun ne => P (snd ne)) l :=
            match l with
            | [] => Forall_nil _
            | ne :: r =>
                Forall_cons ne (Node_induction P HFile HDir (snd ne)) (entries r)
            end) es)
  end.

(** ** Cleaned paths and proper names *)

(** A string without separator bytes. *)
Definition sepFree (goos : GOOS) (e : string) : Prop :=
  forall c, InString c e -> filepath.IsPathSeparator goos c = false.

(** A name a directory entry can have. *)
Definition properName (goos : GOOS) (e : string) : Prop :=
  e <> EmptyString /\ e <> "." /\ e <> ".." /\ sepFree goos e.

(** The output of the scan of [Clean], last element first. *)
Definition cleanStack (goos : GOOS) (path : string) : list string :=
  fold_left (filepath.cleanStep (filepath.rooted goos path))
            (splitOn (filepath.IsPathSeparator goos) path) [].

(** The shape of that output: real elements on top of the [..] elements
    that lead a path that is not rooted. *)
Definition stackShape (goos : GOOS) (isRooted : bool) (st : list string) : Prop :=
  exists ps k,
    st = (ps ++ repeat ".." k)%list /\
    Forall (properName goos) ps /\
    (isRooted = true -> k = 0%nat).



(** Two lists of subtree walks that agree entry by entry. *)
Definition sameWalks
  (a b : list (string * (FileInfo * (Writer -> Writer * error)))) : Prop :=
  Forall2 (fun x y => fst x = fst y /\ fst (snd x) = fst (snd y) /\
                      forall s, snd (snd x) s = snd (snd y) s) a b.

(** ** The trees and archives of the examples *)

Definition sample_file_info : FileInfo := mkFileInfo "a.tsm" 2 420 8.

Definition short_file_fs : Node :=
  Dir 493 0 [("a.tsm", File 420 8 4 (list_byte_of_string "hi"))].

Definition index_dir_info : FileInfo := mkFileInfo "index" 4096 (Z.lor ModeDir 493) 6.

Definition empty_shard_fs : Node :=
  Dir 493 0 [("data", Dir 493 0 [("1", Dir 493 5 [])])].

(** A shard whose file [a.tsm] was four bytes long when [Lstat] saw it
    and holds two bytes when it is read. *)
Definition shrunk_fs : Node :=
  Dir 493 0
    [("data", Dir 493 0
       [("1", Dir 493 5 [("a.tsm", File 420 8 4 (list_byte_of_string "hi"))])])].

(** The destination root of the examples, an empty directory [/data]. *)
Definition empty_dest : Node := Dir 493 0 [("data", Dir 493 0 [])].

Definition regular_entry (name : string) (mode : Z) (data : string) : Entry :=
  mkEntry (mkHeader TypeReg name EmptyString
                    (Z.of_nat (String.length data)) mode 0)
          (list_byte_of_string data).

(** A destination root where an earlier run left [a.tsm.tmp] behind. *)
Definition stale_tmp_dest : Node :=
  Dir 493 0
    [("data", Dir 493 0
       [("a.tsm.tmp", File 384 0 6 (list_byte_of_string "OLDOLD"))])].

(** ** The vocabulary of the further properties *)

(** The writer [t'] holds what [t] held, and after it blocks that all
    satisfy [P]. *)
Definition addsOnly (P : Block -> Prop) (t t' : Writer) : Prop :=
  exists rest, w_out t' = (w_out t ++ rest)%list /\ Forall P rest.

(** A write function that only adds such blocks, whatever it returns. *)
Definition handlerAdds (P : Block -> Prop) (wf : WriteFunc) : Prop :=
  forall f rel full t, addsOnly P t (fst (wf f rel full t)).


(** Headers whose name holds the host separator only where it is the
    slash. *)
Definition slashName (goos : GOOS) (b : Block) : Prop :=
  match b with
  | BHeader h =>
      filepath.Separator goos <> "/"%char ->
      ~ InString (filepath.Separator goos) (Name h)
  | _ => True
  end.

(** A sequence of complete entries: each header is followed by exactly
    the payload it declares, none for a header-only kind. *)
Inductive framed : list Block -> Prop :=
| framed_nil : framed []
| framed_entry (h : Header) (d : list byte) (rest : list Block) :
    Z.of_nat (List.length d)
      = (if isHeaderOnlyType (Typeflag h) then 0 else Size h) ->
    framed rest ->
    framed (BHeader h :: dataBlocks d ++ rest)%list.

(** The writer [t'] is ready and holds, after what [t] held, complete
    entries. *)
Definition addsFramed (t t' : Writer) : Prop :=
  exists rest, w_out t' = (w_out t ++ rest)%list /\ framed rest.

(** A call that returned nil left the writer ready and related to the
    one it started from; an error is none that [Walk] swallows. *)
Definition exitWith (R : Writer -> Writer -> Prop) (t : Writer)
  (r : Writer * error) : Prop :=
  match snd r with
  | None => ready (fst r) /\ R t (fst r)
  | Some e => e <> SkipDir /\ e <> SkipAll
  end.

Definition handlerKeeps (R : Writer -> Writer -> Prop) (wf : WriteFunc) : Prop :=
  forall f rel full t, ready t -> exitWith R t (wf f rel full t).

(** A block with the name of its header left out. *)
Definition forgetName (b : Block) : Block :=
  match b with
  | BHeader h => BHeader (withName h EmptyString)
  | _ => b
  end.

(** Two writers that differ at most in the names of the headers on
    their sinks. *)
Definition sameButNames (t1 t2 : Writer) : Prop :=
  map forgetName (w_out t1) = map forgetName (w_out t2) /\
  w_nb t1 = w_nb t2 /\ w_err t1 = w_err t2.

(** Every node of the tree was modified after [since]. *)
Fixpoint allNewer (since : Time) (n : Node) : Prop :=
  match n with
  | File _ mt _ _ => since < mt
  | Dir _ mt es =>
      since < mt /\
      (fix entries (l : list (string * Node)) : Prop :=
         match l with
         | [] => True
         | ne :: r => allNewer since (snd ne) /\ entries r
         end) es
  end.

(** A sync of a temporary file. *)
Definition isTmpSync (d : Durable) : Prop :=
  exists destPath, d = FileSynced (destPath ++ ".tmp").

(** A step of the restore that syncs temporary files only. *)
Definition syncsTmpOnly {A : Type} (m : M A) : Prop :=
  forall s, exists l, r_log (fst (m s)) = (l ++ r_log s)%list /\ Forall isTmpSync l.

(** A step of the restore that leaves the node at the elements [q] as
    it is. *)
Definition keepsNode {A : Type} (q : list string) (m : M A) : Prop :=
  forall s, lookup q (r_fs (fst (m s))) = lookup q (r_fs s).

(** A regular entry with its whole payload whose name is three sections
    and the proper name [name]: a file directly in the restored
    directory. *)
Definition flatEntry (goos : GOOS) (e : Entry) (name : string) : Prop :=
  Typeflag (e_hdr e) = TypeReg /\
  Z.of_nat (List.length (e_data e)) = Size (e_hdr e) /\
  (exists a b c, sectionsOf goos (Name (e_hdr e)) = [a; b; c; name]) /\
  properName goos name.

(** The temporary path [CreateFileFromTar] uses for [name] in [dir]. *)
Definition tmpPath (goos : GOOS) (dir name : string) : string :=
  filepath.Join goos [dir; name] ++ ".tmp".

(** The name [e] is bound at most once in an entry list. *)
Definition boundOnce (e : string) (es : list (string * Node)) : Prop :=
  getEntry e (delEntry e es) = None.

(** An entry of a directory that is a regular file whose size is the
    length of what it holds, under a proper name. *)
Definition regularFile (goos : GOOS) (ne : string * Node) : Prop :=
  properName goos (fst ne) /\
  IsRegular (fi_Mode (nodeInfo (fst ne) (snd ne))) = true /\
  exists mode mt data, snd ne = File mode mt (Z.of_nat (List.length data)) data.

Definition nodeData (n : Node) : list byte :=
  match n with
  | File _ _ _ data => data
  | Dir _ _ _ => []
  end.

(** The archive entry of a file directly in the streamed directory:
    the header of its [FileInfo] under the entry name, and what the file
    holds. *)
Definition fileEntry (goos : GOOS) (relativePath : string) (ne : string * Node)
  : Entry :=
  let f := nodeInfo (fst ne) (snd ne) in
  let name := entryName goos (filepath.Join goos [relativePath; "."]) (fst ne) in
  match FileInfoHeader f (fi_Name f) with
  | inl h => mkEntry (withName h name) (nodeData (snd ne))
  | inr _ => mkEntry (mkHeader TypeReg name EmptyString 0 0 0) []
  end.

(** The blocks a tar writer leaves on the sink for entries written in
    full. *)
Definition archiveOf (entries : list Entry) : list Block :=
  flat_map (fun e => BHeader (e_hdr e) :: dataBlocks (e_data e)) entries.

(** A shard directory [/data/1] with two files. *)
Definition two_files_fs : Node :=
  Dir 493 0
    [("data", Dir 493 0
       [("1", Dir 493 5
          [("b.tsm", File 420 9 3 (list_byte_of_string "xyz"));
           ("a.tsm", File 420 8 2 (list_byte_of_string "hi"))])])].

(** * Properties *)

Open Scope list_scope.

(** ** The tar writer *)

Lemma Flush_ready (t : Writer) : ready t -> tw.Flush t = (t, None).
Proof.
  intros [He Hn]. unfold tw.Flush. rewrite He.
  destruct (0 <? w_nb t) eqn:E; [apply Z.ltb_lt in E; lia | reflexivity].
Qed.

Lemma Flush_state (t : Writer) : fst (tw.Flush t) = t.
Proof.
  unfold tw.Flush. destruct (w_err t); [reflexivity|].
  destruct (0 <? w_nb t); reflexivity.
Qed.

Lemma ready_NewWriter (w : Sink) : ready (tw.NewWriter w).
Proof. split; simpl; [reflexivity | lia]. Qed.

Lemma WriteHeader_ok (t t1 : Writer) (h : Header) :
  tw.WriteHeader t h = (t1, None) ->
  ready t /\
  t1 = mkWriter (w_out t ++ [BHeader h])
                (if isHeaderOnlyType (Typeflag h) then 0 else Size h) None /\
  0 <= w_nb t1.
Proof.
  unfold tw.WriteHeader, tw.Flush.
  destruct (w_err t) eqn:He; [intros H; inversion H|].
  destruct (0 <? w_nb t) eqn:En; [intros H; inversion H|].
  apply Z.ltb_ge in En.
  destruct (isHeaderOnlyType (Typeflag h)) eqn:Ho; simpl.
  - intros H; inversion H; subst; simpl. repeat split; auto; lia.
  - destruct (Size h <? 0) eqn:Es; intros H; inversion H; subst; simpl.
    apply Z.ltb_ge in Es. repeat split; auto.
Qed.

Lemma WriteHeader_ready (t : Writer) (h : Header) :
  ready t ->
  (isHeaderOnlyType (Typeflag h) = false -> 0 <= Size h) ->
  tw.WriteHeader t h =
    (mkWriter (w_out t ++ [BHeader h])
              (if isHeaderOnlyType (Typeflag h) then 0 else Size h) None, None).
Proof.
  intros Hr Hs. unfold tw.WriteHeader. rewrite (Flush_ready t Hr).
  destruct (isHeaderOnlyType (Typeflag h)) eqn:Ho; simpl; [reflexivity|].
  destruct (Size h <? 0) eqn:Es; [|reflexivity].
  apply Z.ltb_lt in Es. specialize (Hs eq_refl). lia.
Qed.

(** Copying a file into an entry that owes exactly [n] bytes. *)
Lemma CopyN_into_entry (out : Sink) (n : Z) (fr : ReadFile) :
  0 <= n ->
  let bs := firstn (Z.to_nat n) fr in
  CopyN (mkWriter out n None) fr n =
    (mkWriter (out ++ dataBlocks bs) (n - Z.of_nat (List.length bs)) None,
     skipn (Z.to_nat n) fr,
     Z.of_nat (List.length bs),
     if Z.of_nat (List.length fr) <? n then Some EOF else None).
Proof.
  intros Hn bs. unfold CopyN. simpl readUpTo. fold bs.
  assert (Hlen : Z.of_nat (List.length bs) <= n).
  { unfold bs. rewrite length_firstn. lia. }
  assert (Hbs : Z.of_nat (List.length bs) = Z.min (Z.of_nat (List.length fr)) n).
  { unfold bs. rewrite length_firstn. lia. }
  assert (Hw : match bs with
               | [] => (mkWriter out n None, 0, @None Error)
               | _ :: _ => writeBytes (mkWriter out n None) bs
               end
               = (mkWriter (out ++ dataBlocks bs) (n - Z.of_nat (List.length bs)) None,
                  Z.of_nat (List.length bs), None)).
  { destruct bs as [|b0 bs'] eqn:Ebs.
    - simpl. rewrite app_nil_r, Z.sub_0_r. reflexivity.
    - rewrite <- Ebs in *. simpl writeBytes. unfold tw.Write. simpl w_err.
      simpl w_nb. rewrite Z.max_r by lia. rewrite Z.min_l by lia.
      rewrite Nat2Z.id, firstn_all.
      assert (Hto : (n <? Z.of_nat (List.length bs)) = false)
        by (apply Z.ltb_ge; lia).
      assert (Hpos : (0 <? Z.of_nat (List.length bs)) = true)
        by (apply Z.ltb_lt; rewrite Ebs; simpl; lia).
      rewrite Hto, Hpos. rewrite Ebs. reflexivity. }
  cbv beta iota zeta. rewrite Hw. clear Hw. cbv beta iota zeta.
  destruct (Z.of_nat (List.length fr) <? n) eqn:Ef.
  - apply Z.ltb_lt in Ef.
    destruct (Z.of_nat (List.length bs) =? n) eqn:E1; [apply Z.eqb_eq in E1; lia|].
    assert (E2 : (Z.of_nat (List.length bs) <? n) = true) by (apply Z.ltb_lt; lia).
    rewrite E2. reflexivity.
  - apply Z.ltb_ge in Ef.
    assert (Hb : Z.of_nat (List.length bs) = n) by lia.
    rewrite Hb, Z.eqb_refl. reflexivity.
Qed.

(** ** The file writer *)

Section FileWriter.
Variable goos : GOOS.
Variable fs : Node.

Lemma mapString_no_sep (c : ascii) (s : string) :
  c <> "/"%char ->
  ~ InString c (mapString (fun d => if Ascii.eqb d c then "/"%char else d) s).
Proof.
  intros Hc. induction s as [|d r IH]; simpl; [tauto|].
  intros [H | H]; [|exact (IH H)].
  destruct (Ascii.eqb d c) eqn:E.
  - congruence.
  - apply Ascii.eqb_neq in E. congruence.
Qed.

(** After [ToSlash] the host separator is left only where it is the
    slash. *)
Lemma ToSlash_no_host_separator (path : string) :
  filepath.Separator goos <> "/"%char ->
  ~ InString (filepath.Separator goos) (filepath.ToSlash goos path).
Proof.
  intros Hs. unfold filepath.ToSlash.
  destruct (Ascii.eqb (filepath.Separator goos) "/") eqn:E.
  - apply Ascii.eqb_eq in E. contradiction.
  - apply mapString_no_sep. exact Hs.
Qed.

Lemma FileInfoHeader_Typeflag (f : FileInfo) (link : string) (h : Header) :
  FileInfoHeader f link = inl h ->
  isHeaderOnlyType (Typeflag h) = negb (IsRegular (fi_Mode f)).
Proof.
  unfold FileInfoHeader.
  destruct (IsRegular (fi_Mode f)); [intros H; inversion H; reflexivity|].
  destruct (IsDir (fi_Mode f)); [intros H; inversion H; reflexivity|].
  destruct (hasBit (fi_Mode f) ModeSymlink); [intros H; inversion H; reflexivity|].
  destruct (hasBit (fi_Mode f) ModeDevice).
  { destruct (hasBit (fi_Mode f) ModeCharDevice); intros H; inversion H; reflexivity. }
  destruct (hasBit (fi_Mode f) ModeNamedPipe); [intros H; inversion H; reflexivity|].
  destruct (hasBit (fi_Mode f) ModeSocket); intros H; inversion H.
Qed.

Lemma FileInfoHeader_Size (f : FileInfo) (link : string) (h : Header) :
  FileInfoHeader f link = inl h ->
  Size h = if IsRegular (fi_Mode f) then fi_Size f else 0.
Proof.
  unfold FileInfoHeader.
  destruct (IsRegular (fi_Mode f)); [intros H; inversion H; reflexivity|].
  destruct (IsDir (fi_Mode f)); [intros H; inversion H; reflexivity|].
  destruct (hasBit (fi_Mode f) ModeSymlink); [intros H; inversion H; reflexivity|].
  destruct (hasBit (fi_Mode f) ModeDevice).
  { destruct (hasBit (fi_Mode f) ModeCharDevice); intros H; inversion H; reflexivity. }
  destruct (hasBit (fi_Mode f) ModeNamedPipe); [intros H; inversion H; reflexivity|].
  destruct (hasBit (fi_Mode f) ModeSocket); intros H; inversion H.
Qed.

(** [StreamRenameFile] once its header is written. *)
Lemma StreamRenameFile_written (f : FileInfo)
  (name rel full : string) (t t1 : Writer) (h0 : Header) :
  FileInfoHeader f (fi_Name f) = inl h0 ->
  tw.WriteHeader t (withName h0 (entryName goos rel name)) = (t1, None) ->
  StreamRenameFile goos fs f name rel full t =
    if negb (IsRegular (fi_Mode f)) then (t1, None)
    else match Open goos fs full with
         | inr err => (t1, Some err)
         | inl fr =>
             let '(t2, _, _, err) := CopyN t1 fr (Size h0) in (t2, err)
         end.
Proof.
  intros Hh Hw. unfold StreamRenameFile. rewrite Hh.
  fold (entryName goos rel name). rewrite Hw. reflexivity.
Qed.

Lemma withName_fields (h : Header) (n : string) :
  Name (withName h n) = n /\ Size (withName h n) = Size h /\
  Typeflag (withName h n) = Typeflag h.
Proof. repeat split. Qed.

(** A regular file whose header could be written: the header, then as
    many of the file's bytes as the header declares, and [io.EOF] if the
    file has fewer. *)
Lemma StreamRenameFile_regular (f : FileInfo)
  (name rel full : string) (t t1 : Writer) (h0 : Header) (fr : list byte) :
  IsRegular (fi_Mode f) = true ->
  FileInfoHeader f (fi_Name f) = inl h0 ->
  tw.WriteHeader t (withName h0 (entryName goos rel name)) = (t1, None) ->
  Open goos fs full = inl fr ->
  let payload := firstn (Z.to_nat (fi_Size f)) fr in
  StreamRenameFile goos fs f name rel full t =
    (mkWriter (w_out t ++ BHeader (withName h0 (entryName goos rel name)) :: dataBlocks payload)
              (fi_Size f - Z.of_nat (List.length payload)) None,
     if Z.of_nat (List.length fr) <? fi_Size f then Some EOF else None).
Proof.
  intros Hreg Hh Hw Ho payload.
  rewrite (StreamRenameFile_written f name rel full t t1 h0 Hh Hw).
  rewrite Hreg, Ho. simpl.
  destruct (WriteHeader_ok _ _ _ Hw) as (_ & Ht1 & Hnb).
  pose proof (FileInfoHeader_Typeflag _ _ _ Hh) as Hty.
  pose proof (FileInfoHeader_Size _ _ _ Hh) as Hsz.
  rewrite Hreg in Hty, Hsz. simpl in Hty.
  simpl in Ht1. rewrite Hty in Ht1. rewrite Hsz in Ht1.
  assert (Hpos : 0 <= fi_Size f).
  { rewrite Ht1 in Hnb. simpl in Hnb. exact Hnb. }
  rewrite Ht1, Hsz.
  rewrite (CopyN_into_entry _ (fi_Size f) fr Hpos).
  fold payload. rewrite <- app_assoc. reflexivity.
Qed.

(** Whatever the kind of the file, once the header is written the sink
    holds it next, and a file that is not regular adds nothing more. *)
Lemma StreamRenameFile_out (f : FileInfo)
  (name rel full : string) (t t1 : Writer) (h0 : Header) :
  FileInfoHeader f (fi_Name f) = inl h0 ->
  tw.WriteHeader t (withName h0 (entryName goos rel name)) = (t1, None) ->
  exists rest,
    w_out (fst (StreamRenameFile goos fs f name rel full t)) =
      w_out t ++ BHeader (withName h0 (entryName goos rel name)) :: rest /\
    (IsRegular (fi_Mode f) = false -> rest = []).
Proof.
  intros Hh Hw.
  destruct (WriteHeader_ok _ _ _ Hw) as (_ & Ht1 & _).
  destruct (IsRegular (fi_Mode f)) eqn:Hreg.
  - destruct (Open goos fs full) as [fr|e] eqn:Ho.
    + rewrite (StreamRenameFile_regular f name rel full t t1 h0 fr Hreg Hh Hw Ho).
      simpl. eexists. split; [reflexivity | discriminate].
    + rewrite (StreamRenameFile_written f name rel full t t1 h0 Hh Hw).
      rewrite Hreg, Ho. simpl. exists []. rewrite Ht1. simpl.
      split; [reflexivity | discriminate].
  - rewrite (StreamRenameFile_written f name rel full t t1 h0 Hh Hw).
    rewrite Hreg. simpl. exists []. rewrite Ht1. simpl. split; reflexivity.
Qed.

End FileWriter.

(** ** Claims about the file writer and the filter *)

(** C4: the handler [SinceFilterTarFile since] calls the downstream
    [StreamFile] exactly for the entries whose modification time is
    strictly after [since]; for an entry as old as the cutoff or older it
    returns nil and leaves the tar writer as it was, so no entry is
    emitted.  Seen from the sink: on a writer that is ready for a header,
    for a file of a kind tar can describe, the sink grows if and only if
    the modification time is after the cutoff. *)
Theorem C4_since_filter (goos : GOOS) (fs : Node) (since : Time)
  (f : FileInfo) (shardRelativePath fullPath : string) (t : Writer) :
  (since < fi_ModTime f ->
   SinceFilterTarFile goos fs since f shardRelativePath fullPath t =
   StreamFile goos fs f shardRelativePath fullPath t) /\
  (fi_ModTime f <= since ->
   SinceFilterTarFile goos fs since f shardRelativePath fullPath t = (t, None)) /\
  (forall h0 t1,
     FileInfoHeader f (fi_Name f) = inl h0 ->
     tw.WriteHeader t (withName h0 (entryName goos shardRelativePath (fi_Name f)))
       = (t1, None) ->
     (w_out (fst (SinceFilterTarFile goos fs since f shardRelativePath fullPath t))
        <> w_out t
      <-> since < fi_ModTime f)).
Proof.
  unfold SinceFilterTarFile, After.
  destruct (since <? fi_ModTime f) eqn:E.
  - apply Z.ltb_lt in E.
    split; [reflexivity|]. split; [lia|].
    intros h0 t1 Hh Hw. split; [intros _; exact E|]. intros _.
    unfold StreamFile.
    destruct (StreamRenameFile_out goos fs f (fi_Name f) shardRelativePath
                fullPath t t1 h0 Hh Hw) as (rest & Hout & _).
    rewrite Hout. intros Heq.
    apply (f_equal (@List.length Block)) in Heq.
    rewrite length_app in Heq. simpl in Heq. lia.
  - apply Z.ltb_ge in E.
    split; [lia|]. split; [reflexivity|].
    intros h0 t1 _ _. simpl. split; [intros Hne; contradiction | lia].
Qed.

Lemma C4_since_filter_witness :
  SinceFilterTarFile unix (Dir 493 0 []) 5 sample_file_info "db/rp/1" "/a.tsm"
    (tw.NewWriter []) =
  StreamFile unix (Dir 493 0 []) sample_file_info "db/rp/1" "/a.tsm" (tw.NewWriter []).
Proof.
  apply (C4_since_filter unix (Dir 493 0 []) 5 sample_file_info "db/rp/1" "/a.tsm"
           (tw.NewWriter [])).
  simpl. lia.
Defined.

(** C6: for a regular file the header declares the size [Lstat]
    reported, and the file writer copies exactly that many bytes of the
    file after the header; when the file holds fewer bytes than declared
    the call returns an error ([io.EOF]), and it returns nil only with a
    payload as long as the header says. *)
Theorem C6_exact_size_or_error (goos : GOOS) (fs : Node) (f : FileInfo)
  (tarHeaderFileName relativePath fullPath : string) (t : Writer)
  (fr : list byte) :
  IsRegular (fi_Mode f) = true ->
  ready t ->
  0 <= fi_Size f ->
  Open goos fs fullPath = inl fr ->
  exists h payload t',
    StreamRenameFile goos fs f tarHeaderFileName relativePath fullPath t
      = (t', if Z.of_nat (List.length fr) <? fi_Size f then Some EOF else None) /\
    w_out t' = w_out t ++ BHeader h :: dataBlocks payload /\
    Typeflag h = TypeReg /\
    Size h = fi_Size f /\
    payload = firstn (Z.to_nat (Size h)) fr /\
    (fi_Size f <= Z.of_nat (List.length fr) ->
       snd (StreamRenameFile goos fs f tarHeaderFileName relativePath fullPath t) = None /\
       Z.of_nat (List.length payload) = Size h) /\
    (Z.of_nat (List.length fr) < fi_Size f ->
       snd (StreamRenameFile goos fs f tarHeaderFileName relativePath fullPath t) = Some EOF).
Proof.
  intros Hreg Hr Hpos Ho.
  destruct (FileInfoHeader f (fi_Name f)) as [h0|e] eqn:Hh.
  2:{ unfold FileInfoHeader in Hh. rewrite Hreg in Hh. discriminate. }
  pose proof (FileInfoHeader_Typeflag _ _ _ Hh) as Hty.
  pose proof (FileInfoHeader_Size _ _ _ Hh) as Hsz.
  rewrite Hreg in Hty, Hsz. simpl in Hty.
  set (h := withName h0 (entryName goos relativePath tarHeaderFileName)).
  assert (Hw : tw.WriteHeader t h =
               (mkWriter (w_out t ++ [BHeader h]) (Size h) None, None)).
  { rewrite (WriteHeader_ready t h Hr).
    - simpl. rewrite Hty. reflexivity.
    - intros _. simpl. lia. }
  pose proof (StreamRenameFile_regular goos fs f tarHeaderFileName relativePath
                fullPath t _ h0 fr Hreg Hh Hw Ho) as Hrun.
  simpl in Hrun.
  assert (Hflag : Typeflag h = TypeReg).
  { unfold FileInfoHeader in Hh. rewrite Hreg in Hh. inversion Hh. subst h0.
    reflexivity. }
  exists h, (firstn (Z.to_nat (fi_Size f)) fr). eexists.
  split; [exact Hrun|]. simpl.
  repeat split; auto.
  - rewrite Hsz. reflexivity.
  - rewrite Hrun. simpl.
    destruct (Z.of_nat (List.length fr) <? fi_Size f) eqn:E;
      [apply Z.ltb_lt in E; lia | reflexivity].
  - rewrite length_firstn. lia.
  - intros Hlt. rewrite Hrun. simpl.
    destruct (Z.of_nat (List.length fr) <? fi_Size f) eqn:E;
      [reflexivity | apply Z.ltb_ge in E; lia].
Qed.

Lemma C6_exact_size_or_error_witness :
  exists h payload t',
    StreamRenameFile unix short_file_fs (mkFileInfo "a.tsm" 4 420 8)
      "a.tsm" "db/rp/1" "/a.tsm" (tw.NewWriter []) = (t', Some EOF) /\
    w_out t' = [] ++ BHeader h :: dataBlocks payload /\
    Typeflag h = TypeReg /\
    Size h = 4 /\
    payload = firstn (Z.to_nat (Size h)) (list_byte_of_string "hi").
Proof.
  destruct (C6_exact_size_or_error unix short_file_fs (mkFileInfo "a.tsm" 4 420 8)
              "a.tsm" "db/rp/1" "/a.tsm" (tw.NewWriter [])
              (list_byte_of_string "hi"))
    as (h & payload & t' & H1 & H2 & H3 & H4 & H5 & _).
  - reflexivity.
  - apply ready_NewWriter.
  - simpl. lia.
  - reflexivity.
  - exists h, payload, t'. repeat split; assumption.
Defined.

(** C7: whenever the file writer writes a header, the entry name in it
    is [ToSlash (Join relativePath tarHeaderFileName)]: the join of the
    logical directory and the (possibly overridden) base name, in which
    the host separator has been replaced by the slash on every host; and
    for a file that is not regular the call stops after the header: it
    returns nil, the header is the only block added, and no payload is
    owed. *)
Theorem C7_entry_name_and_header_only (goos : GOOS) (fs : Node) (f : FileInfo)
  (tarHeaderFileName relativePath fullPath : string) (t t1 : Writer)
  (h0 : Header) :
  FileInfoHeader f (fi_Name f) = inl h0 ->
  tw.WriteHeader t (withName h0 (entryName goos relativePath tarHeaderFileName))
    = (t1, None) ->
  let r := StreamRenameFile goos fs f tarHeaderFileName relativePath fullPath t in
  exists h rest,
    w_out (fst r) = w_out t ++ BHeader h :: rest /\
    Name h = filepath.ToSlash goos
               (filepath.Join goos [relativePath; tarHeaderFileName]) /\
    (filepath.Separator goos <> "/"%char ->
       ~ InString (filepath.Separator goos) (Name h)) /\
    (IsRegular (fi_Mode f) = false ->
       rest = [] /\ r = (t1, None) /\ w_nb t1 = 0).
Proof.
  intros Hh Hw r.
  destruct (StreamRenameFile_out goos fs f tarHeaderFileName relativePath
              fullPath t t1 h0 Hh Hw) as (rest & Hout & Hrest).
  exists (withName h0 (entryName goos relativePath tarHeaderFileName)), rest.
  split; [exact Hout|]. split; [reflexivity|]. split.
  - intros Hs. simpl. apply ToSlash_no_host_separator. exact Hs.
  - intros Hreg. split; [exact (Hrest Hreg)|].
    unfold r. rewrite (StreamRenameFile_written goos fs f _ _ fullPath t t1 h0 Hh Hw).
    rewrite Hreg. simpl. split; [reflexivity|].
    destruct (WriteHeader_ok _ _ _ Hw) as (_ & Ht1 & _).
    pose proof (FileInfoHeader_Typeflag _ _ _ Hh) as Hty.
    rewrite Hreg in Hty. simpl in Hty.
    rewrite Ht1. simpl. rewrite Hty. reflexivity.
Qed.

Lemma C7_entry_name_and_header_only_witness :
  exists h rest,
    w_out (fst (StreamRenameFile windows (Dir 493 0 []) index_dir_info
                  "index" "db\rp\1" "\data\1\index" (tw.NewWriter [])))
      = [] ++ BHeader h :: rest /\
    Name h = "db/rp/1/index" /\
    rest = [].
Proof.
  destruct (C7_entry_name_and_header_only windows (Dir 493 0 []) index_dir_info
              "index" "db\rp\1" "\data\1\index" (tw.NewWriter [])
              (mkWriter [BHeader (mkHeader TypeDir "db/rp/1/index" EmptyString 0 493 6)]
                        0 None)
              (mkHeader TypeDir "index/" EmptyString 0 493 6))
    as (h & rest & H1 & H2 & _ & H4).
  - reflexivity.
  - reflexivity.
  - exists h, rest. split; [exact H1|]. split; [rewrite H2; reflexivity|].
    apply H4. reflexivity.
Defined.


(** ** The walk *)

Lemma walk_Dir (goos : GOOS) {S : Type} (m : Z) (t : Time)
  (es : list (string * Node)) (path : string) (info : FileInfo)
  (walkFn : @WalkFunc S) (s : S) :
  walk goos (Dir m t es) path info walkFn s =
    match walkFn path (inl info) s with
    | (s1, Some e) => (s1, Some e)
    | (s1, None) => walkEntries (childWalks goos path es walkFn) s1
    end.
Proof. reflexivity. Qed.

Lemma Walk_found (goos : GOOS) (fs : Node) {S : Type} (root : string)
  (n : Node) (fn : @WalkFunc S) (s : S) :
  node goos fs root = Some n ->
  Walk goos fs root fn s =
    skipToNil (walk goos n root (nodeInfo (filepath.basename goos root) n) fn s).
Proof.
  intros Hn. unfold Walk, skipToNil. rewrite Hn.
  destruct (walk goos n root _ fn s) as [s' err]. simpl.
  destruct (isSkipDir err || isSkipAll err); reflexivity.
Qed.

Lemma testbit_ModeDir : Z.testbit ModeDir 31 = true.
Proof. reflexivity. Qed.

Lemma IsDir_Dir (name : string) (m : Z) (t : Time) (es : list (string * Node)) :
  IsDir (fi_Mode (nodeInfo name (Dir m t es))) = true.
Proof.
  simpl. unfold IsDir, hasBit.
  destruct (Z.land (Z.lor (Z.ldiff m ModeType) ModeDir) ModeDir =? 0) eqn:E;
    [|reflexivity].
  apply Z.eqb_eq in E.
  apply (f_equal (fun z => Z.testbit z 31)) in E.
  rewrite Z.land_spec, Z.lor_spec, testbit_ModeDir, Z.testbit_0_l in E.
  rewrite orb_true_r in E. discriminate.
Qed.


Lemma IsDir_File (name : string) (m : Z) (t : Time) (sz : Z) (d : list byte) :
  IsDir (fi_Mode (nodeInfo name (File m t sz d))) = false.
Proof.
  simpl. unfold IsDir, hasBit.
  assert (H : Z.land (Z.ldiff m ModeDir) ModeDir = 0).
  { apply Z.bits_inj'. intros n Hn.
    rewrite Z.land_spec, Z.ldiff_spec, Z.testbit_0_l.
    destruct (Z.testbit ModeDir n); [rewrite andb_false_r|rewrite andb_false_r];
      reflexivity. }
  rewrite H. reflexivity.
Qed.

Section RootDirectory.
Variable goos : GOOS.
Variable fs : Node.
Variables (dir relativePath : string).
Variables (m : Z) (t : Time) (es : list (string * Node)).
Hypothesis Hroot : node goos fs dir = Some (Dir m t es).

Lemma streamWalkFn_root (wf : WriteFunc) (keepTarOpen : bool) (tw0 : Writer) :
  streamWalkFn goos dir relativePath wf keepTarOpen dir (inl (rootInfo goos dir (Dir m t es))) tw0 =
    if keepTarOpen then wf (rootInfo goos dir (Dir m t es)) relativePath dir tw0 else (tw0, None).
Proof.
  unfold streamWalkFn. rewrite String.eqb_refl.
  unfold rootInfo. rewrite IsDir_Dir. reflexivity.
Qed.

Lemma streamWalk_root (w : Sink) (writeFunc : option WriteFunc) (keepTarOpen : bool) :
  streamWalk goos fs w dir relativePath writeFunc keepTarOpen =
    skipToNil
      (match (if keepTarOpen
              then orStreamFile goos fs writeFunc (rootInfo goos dir (Dir m t es)) relativePath dir (tw.NewWriter w)
              else (tw.NewWriter w, None)) with
       | (tw1, Some e) => (tw1, Some e)
       | (tw1, None) =>
           walkEntries
             (childWalks goos dir es
                (streamWalkFn goos dir relativePath
                   (orStreamFile goos fs writeFunc) keepTarOpen))
             tw1
       end).
Proof.
  unfold streamWalk. rewrite (Walk_found goos fs dir _ _ _ Hroot).
  rewrite walk_Dir. fold (rootInfo goos dir (Dir m t es)).
  rewrite streamWalkFn_root. reflexivity.
Qed.


End RootDirectory.

(** ** Cleaned paths *)

Section PathFacts.
Variable goos : GOOS.

Lemma IsPathSeparator_Separator : (filepath.IsPathSeparator goos) (filepath.Separator goos) = true.
Proof. destruct goos; reflexivity. Qed.

Lemma splitOn_nonempty (p : ascii -> bool) (s : string) : splitOn p s <> [].
Proof.
  destruct s as [|c r]; simpl; [discriminate|].
  destruct (p c); [discriminate|]. destruct (splitOn p r); discriminate.
Qed.

Lemma splitOn_sepFree (s : string) : Forall (sepFree goos) (splitOn (filepath.IsPathSeparator goos) s).
Proof.
  induction s as [|c r IH]; simpl.
  - constructor; [|constructor]. intros c []. 
  - destruct ((filepath.IsPathSeparator goos) c) eqn:Ec.
    + constructor; [intros d []|exact IH].
    + destruct (splitOn (filepath.IsPathSeparator goos) r) as [|h t]; [constructor; [|constructor]|].
      * intros d [Hd|[]]. subst. exact Ec.
      * inversion IH; subst. constructor; [|assumption].
        intros d [Hd|Hd]; [subst; exact Ec|auto].
Qed.

Lemma splitOn_app_sep (a b : string) (c : ascii) :
  (filepath.IsPathSeparator goos) c = true ->
  splitOn (filepath.IsPathSeparator goos) (a ++ String c b)%string = splitOn (filepath.IsPathSeparator goos) a ++ splitOn (filepath.IsPathSeparator goos) b.
Proof.
  intros Hc. induction a as [|d a IH]; simpl.
  - rewrite Hc. reflexivity.
  - destruct ((filepath.IsPathSeparator goos) d); [rewrite IH; reflexivity|].
    rewrite IH. destruct (splitOn (filepath.IsPathSeparator goos) a) as [|h t] eqn:E.
    + exfalso. exact (splitOn_nonempty _ _ E).
    + reflexivity.
Qed.

Lemma splitOn_sepFree_id (e : string) : sepFree goos e -> splitOn (filepath.IsPathSeparator goos) e = [e].
Proof.
  induction e as [|c r IH]; intros Hf; simpl; [reflexivity|].
  rewrite (Hf c (or_introl eq_refl)).
  rewrite IH; [reflexivity|]. intros d Hd. apply Hf. right. exact Hd.
Qed.

Lemma splitOn_join (l : list string) :
  Forall (sepFree goos) l -> l <> [] ->
  splitOn (filepath.IsPathSeparator goos) (joinWith (filepath.sepString goos) l) = l.
Proof.
  intros Hl. induction Hl as [|x r Hx Hr IH]; intros Hne; [congruence|].
  destruct r as [|y r'].
  - simpl. apply splitOn_sepFree_id. exact Hx.
  - change (joinWith (filepath.sepString goos) (x :: y :: r'))
      with (x ++ String (filepath.Separator goos) (joinWith (filepath.sepString goos) (y :: r')))%string.
    rewrite splitOn_app_sep by apply IsPathSeparator_Separator.
    rewrite (splitOn_sepFree_id x Hx). simpl app. f_equal. apply IH. discriminate.
Qed.

Lemma cleanStep_proper (r : bool) (st : list string) (e : string) :
  e <> EmptyString -> e <> "."%string -> e <> ".."%string ->
  filepath.cleanStep r st e = e :: st.
Proof.
  intros H1 H2 H3. unfold filepath.cleanStep.
  apply String.eqb_neq in H1, H2, H3. rewrite H1, H2, H3. reflexivity.
Qed.

Lemma cleanStep_shape (r : bool) (st : list string) (e : string) :
  sepFree goos e -> stackShape goos r st -> stackShape goos r (filepath.cleanStep r st e).
Proof.
  intros He (ps & k & Hst & Hps & Hk). unfold filepath.cleanStep.
  destruct (String.eqb e EmptyString) eqn:E1; [exists ps, k; auto|].
  destruct (String.eqb e ".") eqn:E2; [exists ps, k; auto|].
  destruct (String.eqb e "..") eqn:E3.
  - subst st. destruct ps as [|p ps'].
    + simpl. destruct k as [|k'].
      * simpl. destruct r.
        -- exists [], 0%nat. auto.
        -- exists [], 1%nat. repeat split; auto. discriminate.
      * simpl. exists [], (S (S k')). repeat split; auto.
        intros Hr. specialize (Hk Hr). discriminate.
    + simpl. inversion Hps as [|? ? Hp Hps']; subst.
      destruct Hp as (_ & _ & Hp3 & _). apply String.eqb_neq in Hp3.
      rewrite Hp3. exists ps', k. auto.
  - apply String.eqb_neq in E1, E2, E3.
    exists (e :: ps), k. subst st. repeat split; auto.
    constructor; [|exact Hps]. repeat split; assumption.
Qed.

Lemma fold_cleanStep_shape (r : bool) (l st : list string) :
  Forall (sepFree goos) l -> stackShape goos r st ->
  stackShape goos r (fold_left (filepath.cleanStep r) l st).
Proof.
  intros Hl. revert st. induction Hl as [|e l He Hl IH]; intros st Hst; simpl.
  - exact Hst.
  - apply IH. apply cleanStep_shape; assumption.
Qed.

Lemma cleanStack_shape (path : string) :
  stackShape goos (filepath.rooted goos path) (cleanStack goos path).
Proof.
  unfold cleanStack. apply fold_cleanStep_shape.
  - apply splitOn_sepFree.
  - exists [], 0%nat. repeat split; auto.
Qed.


Lemma sepFree_dotdot : sepFree goos "..".
Proof.
  intros c [H|[H|[]]]; subst; destruct goos; reflexivity.
Qed.

Lemma sepFree_dot : sepFree goos ".".
Proof.
  intros c [H|[]]; subst; destruct goos; reflexivity.
Qed.

Lemma stackShape_sepFree (r : bool) (st : list string) :
  stackShape goos r st ->
  Forall (fun e => sepFree goos e /\ e <> EmptyString) st.
Proof.
  intros (ps & k & -> & Hps & _). apply Forall_app. split.
  - revert Hps. apply Forall_impl. intros e (H1 & _ & _ & H4). auto.
  - clear. induction k as [|k IH]; simpl; constructor; [|exact IH].
    split; [apply sepFree_dotdot | discriminate].
Qed.

Lemma cleanStep_dotdots (j : nat) :
  filepath.cleanStep false (repeat ".."%string j) ".." = repeat ".."%string (S j).
Proof. destruct j; reflexivity. Qed.

Lemma fold_dotdots (k j : nat) :
  fold_left (filepath.cleanStep false) (repeat ".."%string k) (repeat ".."%string j)
  = repeat ".."%string (k + j).
Proof.
  revert j. induction k as [|k IH]; intros j; [reflexivity|].
  cbn [repeat fold_left]. rewrite cleanStep_dotdots, IH.
  f_equal. lia.
Qed.

Lemma fold_proper (r : bool) (l acc : list string) :
  Forall (properName goos) l ->
  fold_left (filepath.cleanStep r) l acc = rev l ++ acc.
Proof.
  intros Hl. revert acc. induction Hl as [|e l He Hl IH]; intros acc; [reflexivity|].
  cbn [fold_left rev]. destruct He as (H1 & H2 & H3 & _).
  rewrite (cleanStep_proper r acc e H1 H2 H3), IH, <- app_assoc. reflexivity.
Qed.

(** Scanning a cleaned stack again gives it back. *)
Lemma fold_replay (r : bool) (st : list string) :
  stackShape goos r st ->
  fold_left (filepath.cleanStep r) (rev st) [] = st.
Proof.
  intros (ps & k & -> & Hps & Hk).
  rewrite rev_app_distr, rev_repeat, fold_left_app.
  assert (Hd : fold_left (filepath.cleanStep r) (repeat ".."%string k) []
               = repeat ".."%string k).
  { destruct k as [|k']; [reflexivity|].
    destruct r; [specialize (Hk eq_refl); discriminate|].
    change (@nil string) with (repeat ".."%string 0).
    rewrite fold_dotdots. f_equal. lia. }
  rewrite Hd, fold_proper by (apply Forall_rev; exact Hps).
  rewrite rev_involutive. reflexivity.
Qed.

Lemma InString_app (c : ascii) (a b : string) :
  InString c (a ++ b)%string <-> InString c a \/ InString c b.
Proof.
  induction a as [|d a IH]; simpl; [tauto|]. rewrite IH. tauto.
Qed.

(** In a path joined from separator-free elements every separator byte
    is the host separator. *)
Lemma join_separators (l : list string) (c : ascii) :
  Forall (sepFree goos) l ->
  InString c (joinWith (filepath.sepString goos) l) ->
  filepath.IsPathSeparator goos c = true ->
  c = filepath.Separator goos.
Proof.
  intros Hl. induction Hl as [|x r Hx Hr IH]; [intros []|].
  destruct r as [|y r'].
  - simpl. intros Hin Hc. rewrite (Hx c Hin) in Hc. discriminate.
  - change (joinWith (filepath.sepString goos) (x :: y :: r'))
      with (x ++ String (filepath.Separator goos)
                   (joinWith (filepath.sepString goos) (y :: r')))%string.
    intros Hin Hc. apply InString_app in Hin. destruct Hin as [Hin|[Hin|Hin]].
    + rewrite (Hx c Hin) in Hc. discriminate.
    + auto.
    + exact (IH Hin Hc).
Qed.

Lemma mapString_same (f : ascii -> ascii) (s : string) :
  (forall c, InString c s -> f c = c) -> mapString f s = s.
Proof.
  induction s as [|c r IH]; intros H; simpl; [reflexivity|].
  rewrite (H c (or_introl eq_refl)), IH; [reflexivity|].
  intros d Hd. apply H. right. exact Hd.
Qed.

Lemma FromSlash_same (s : string) :
  (forall c, InString c s -> filepath.IsPathSeparator goos c = true ->
             c = filepath.Separator goos) ->
  filepath.FromSlash goos s = s.
Proof.
  intros H. unfold filepath.FromSlash.
  destruct (Ascii.eqb (filepath.Separator goos) "/") eqn:E; [reflexivity|].
  apply mapString_same. intros c Hc.
  destruct (Ascii.eqb c "/") eqn:Ec; [|reflexivity].
  apply Ascii.eqb_eq in Ec. subst c. symmetry. apply H; [exact Hc|].
  destruct goos; reflexivity.
Qed.


Lemma join_head (x : string) (l : list string) :
  exists tl, joinWith (filepath.sepString goos) (x :: l) = (x ++ tl)%string.
Proof.
  destruct l as [|y l'].
  - exists EmptyString. simpl. induction x; simpl; congruence.
  - eexists. reflexivity.
Qed.

Lemma join_not_rooted (l : list string) :
  l <> [] ->
  Forall (fun e => sepFree goos e /\ e <> EmptyString) l ->
  filepath.rooted goos (joinWith (filepath.sepString goos) l) = false /\
  joinWith (filepath.sepString goos) l <> EmptyString.
Proof.
  intros Hne Hl. destruct l as [|x l']; [congruence|].
  inversion Hl as [|? ? [Hx Hx0] _]; subst.
  destruct (join_head x l') as [tl ->].
  destruct x as [|c x']; [congruence|]. simpl.
  split; [apply Hx; left; reflexivity | discriminate].
Qed.

(** [Clean] is stable: cleaning a cleaned path scans to the same
    stack, and keeps it rooted or not. *)
Lemma cleanStack_Clean (path : string) :
  cleanStack goos (filepath.Clean goos path) = cleanStack goos path /\
  filepath.rooted goos (filepath.Clean goos path) = filepath.rooted goos path.
Proof.
  unfold filepath.Clean.
  destruct (String.eqb path EmptyString) eqn:E.
  { apply String.eqb_eq in E. subst path. unfold cleanStack.
    destruct goos; split; reflexivity. }
  fold (cleanStack goos path).
  pose proof (cleanStack_shape path) as Hsh.
  pose proof (stackShape_sepFree _ _ Hsh) as Hall.
  assert (Hrev : Forall (fun e => sepFree goos e /\ e <> EmptyString) (rev (cleanStack goos path)))
    by (apply Forall_rev; exact Hall).
  assert (Hfree : Forall (sepFree goos) (rev (cleanStack goos path))).
  { revert Hrev. apply Forall_impl. intros e [H _]. exact H. }
  set (st := cleanStack goos path) in *.
  set (body := joinWith (filepath.sepString goos) (rev st)).
  assert (Hbody : forall c, InString c body ->
                  filepath.IsPathSeparator goos c = true ->
                  c = filepath.Separator goos).
  { intros c. apply join_separators. exact Hfree. }
  destruct (filepath.rooted goos path) eqn:Hr.
  - change (filepath.sepString goos ++ body)%string
      with (String (filepath.Separator goos) body).
    cbn [String.eqb]. 
    rewrite FromSlash_same.
    2:{ intros c [Hc|Hc]; [auto | apply Hbody; exact Hc]. }
    unfold cleanStack at 1. cbn [filepath.rooted splitOn].
    rewrite IsPathSeparator_Separator. split; [|reflexivity].
    cbn [fold_left]. change (filepath.cleanStep true [] EmptyString) with (@nil string).
    destruct (rev st) as [|x l] eqn:Erev.
    + assert (st = []) by (apply (f_equal (@rev string)) in Erev;
                           rewrite rev_involutive in Erev; exact Erev).
      subst body. rewrite H. reflexivity.
    + unfold body. rewrite splitOn_join; [|exact Hfree|discriminate].
      rewrite <- Erev. apply fold_replay. exact Hsh.
  - destruct (rev st) as [|x l] eqn:Erev.
    + assert (Hst : st = []) by (apply (f_equal (@rev string)) in Erev;
                           rewrite rev_involutive in Erev; exact Erev).
      subst body. simpl. unfold cleanStack at 1. clearbody st. subst st.
      clear. destruct goos; split; reflexivity.
    + destruct (join_not_rooted (x :: l)) as [Hnr Hne];
        [discriminate | exact Hrev |].
      fold body in Hnr, Hne. apply String.eqb_neq in Hne. rewrite Hne.
      rewrite (FromSlash_same body Hbody).
      split; [|exact Hnr]. unfold cleanStack at 1. rewrite Hnr.
      unfold body. rewrite splitOn_join; [|exact Hfree|discriminate].
      rewrite <- Erev. apply fold_replay. exact Hsh.
Qed.


Lemma rooted_app (p q : string) :
  p <> EmptyString ->
  filepath.rooted goos (p ++ q)%string = filepath.rooted goos p.
Proof. destruct p; [congruence | reflexivity]. Qed.

Lemma cleanStack_proper (name : string) :
  properName goos name -> cleanStack goos name = [name].
Proof.
  intros (H1 & H2 & H3 & H4). unfold cleanStack.
  rewrite (splitOn_sepFree_id name H4). cbn [fold_left].
  apply cleanStep_proper; assumption.
Qed.

(** Joining a proper name to a path puts one more element on the
    cleaned stack. *)
Lemma cleanStack_Join (p name : string) :
  properName goos name ->
  cleanStack goos (filepath.Join goos [p; name]) = name :: cleanStack goos p.
Proof.
  intros Hn. pose proof Hn as (H1 & H2 & H3 & H4).
  unfold filepath.Join. cbn [filepath.dropEmpty].
  destruct (String.eqb p EmptyString) eqn:Ep.
  - apply String.eqb_eq in Ep. subst p.
    apply String.eqb_neq in H1. rewrite H1.
    change (joinWith (filepath.sepString goos) [name]) with name.
    destruct (cleanStack_Clean name) as [-> _].
    rewrite (cleanStack_proper name Hn). unfold cleanStack.
    destruct goos; reflexivity.
  - apply String.eqb_neq in Ep.
    change (joinWith (filepath.sepString goos) [p; name])
      with (p ++ String (filepath.Separator goos) name)%string.
    destruct (cleanStack_Clean (p ++ String (filepath.Separator goos) name))
      as [-> _].
    unfold cleanStack. rewrite (rooted_app p _ Ep).
    rewrite splitOn_app_sep by apply IsPathSeparator_Separator.
    rewrite (splitOn_sepFree_id name H4), fold_left_app. cbn [fold_left].
    apply cleanStep_proper; assumption.
Qed.

End PathFacts.

(** ** The walk below the root *)

Section BelowRoot.
Variable goos : GOOS.
Variables (dir relativePath : string) (wf : WriteFunc) (keepTarOpen : bool).



Lemma sameWalks_insert x y a b :
  fst x = fst y /\ fst (snd x) = fst (snd y) /\
    (forall s : Writer, snd (snd x) s = snd (snd y) s) ->
  sameWalks a b -> sameWalks (insertByName x a) (insertByName y b).
Proof.
  intros Hxy Hab. induction Hab as [|u v a b Huv Hab IH]; simpl.
  - constructor; [exact Hxy|constructor].
  - destruct Hxy as (Hf & Hrest). destruct Huv as (Hg & Hrest').
    rewrite Hf, Hg. destruct (String.leb (fst y) (fst v)).
    + constructor; [split; assumption|]. constructor; [split; assumption|exact Hab].
    + constructor; [split; assumption|]. apply IH.
Qed.

Lemma sameWalks_sort a b : sameWalks a b -> sameWalks (sortByName a) (sortByName b).
Proof.
  intros Hab. induction Hab as [|u v a b Huv Hab IH]; simpl.
  - constructor.
  - apply sameWalks_insert; assumption.
Qed.

Lemma walkEntries_same a b :
  sameWalks a b -> forall s : Writer, walkEntries a s = walkEntries b s.
Proof.
  intros Hab. induction Hab as [|[n1 [i1 s1]] [n2 [i2 s2]] a b Huv Hab IH];
    intros s; simpl; [reflexivity|].
  destruct Huv as (_ & Hi & Hs). simpl in Hi, Hs. subst i2. rewrite Hs.
  destruct (s2 s) as [s' [e|]]; [|apply IH].
  rewrite IH. reflexivity.
Qed.



End BelowRoot.




(** ** The writer at the end of the walk *)

Lemma FileInfoHeader_error (f : FileInfo) (link : string) (e : Error) :
  FileInfoHeader f link = inr e -> e <> SkipDir /\ e <> SkipAll.
Proof.
  unfold FileInfoHeader.
  destruct (IsRegular (fi_Mode f)); [discriminate|].
  destruct (IsDir (fi_Mode f)); [discriminate|].
  destruct (hasBit (fi_Mode f) ModeSymlink); [discriminate|].
  destruct (hasBit (fi_Mode f) ModeDevice).
  { destruct (hasBit (fi_Mode f) ModeCharDevice); discriminate. }
  destruct (hasBit (fi_Mode f) ModeNamedPipe); [discriminate|].
  destruct (hasBit (fi_Mode f) ModeSocket); intros H; inversion H;
    split; discriminate.
Qed.

Lemma WriteHeader_error (t t1 : Writer) (h : Header) (e : Error) :
  ready t -> tw.WriteHeader t h = (t1, Some e) -> e = ErrHeader.
Proof.
  intros Hr. unfold tw.WriteHeader. rewrite (Flush_ready t Hr).
  destruct (negb (isHeaderOnlyType (Typeflag h)) && (Size h <? 0));
    intros H; inversion H. reflexivity.
Qed.

Lemma Open_error (goos : GOOS) (fs : Node) (path : string) (e : Error) :
  Open goos fs path = inr e -> e = PathError "open" path ENOENT.
Proof.
  unfold Open. destruct (node goos fs path) as [[| ]|]; intros H; inversion H.
  reflexivity.
Qed.

Lemma StreamRenameFile_keepsReady (goos : GOOS) (fs : Node) (name : string) :
  keepsReady (fun f rel full t => StreamRenameFile goos fs f name rel full t).
Proof.
  intros f rel full t Hr. unfold exitOK.
  destruct (FileInfoHeader f (fi_Name f)) as [h0|e] eqn:Hh.
  2:{ unfold StreamRenameFile. rewrite Hh. simpl.
      exact (FileInfoHeader_error _ _ _ Hh). }
  destruct (tw.WriteHeader t (withName h0 (entryName goos rel name)))
    as [t1 [e|]] eqn:Hw.
  { unfold StreamRenameFile. rewrite Hh. fold (entryName goos rel name).
    rewrite Hw. simpl. rewrite (WriteHeader_error _ _ _ _ Hr Hw).
    split; discriminate. }
  destruct (IsRegular (fi_Mode f)) eqn:Hreg.
  - destruct (Open goos fs full) as [fr|e] eqn:Ho.
    + rewrite (StreamRenameFile_regular goos fs f name rel full t t1 h0 fr
                 Hreg Hh Hw Ho). simpl.
      destruct (Z.of_nat (List.length fr) <? fi_Size f) eqn:E.
      * split; discriminate.
      * apply Z.ltb_ge in E. split; simpl; [reflexivity|].
        rewrite length_firstn. lia.
    + rewrite (StreamRenameFile_written goos fs f name rel full t t1 h0 Hh Hw).
      rewrite Hreg, Ho. simpl. rewrite (Open_error _ _ _ _ Ho).
      split; discriminate.
  - rewrite (StreamRenameFile_written goos fs f name rel full t t1 h0 Hh Hw).
    rewrite Hreg. simpl.
    destruct (WriteHeader_ok _ _ _ Hw) as (_ & Ht1 & _).
    pose proof (FileInfoHeader_Typeflag _ _ _ Hh) as Hty.
    rewrite Hreg in Hty. simpl in Hty.
    rewrite Ht1. simpl. rewrite Hty. split; simpl; [reflexivity|lia].
Qed.

Lemma StreamFile_keepsReady (goos : GOOS) (fs : Node) :
  keepsReady (StreamFile goos fs).
Proof.
  intros f rel full t Hr. unfold StreamFile.
  exact (StreamRenameFile_keepsReady goos fs (fi_Name f) f rel full t Hr).
Qed.

Lemma SinceFilterTarFile_keepsReady (goos : GOOS) (fs : Node) (since : Time) :
  keepsReady (SinceFilterTarFile goos fs since).
Proof.
  intros f rel full t Hr. unfold SinceFilterTarFile.
  destruct (After (fi_ModTime f) since).
  - apply StreamFile_keepsReady. exact Hr.
  - exact Hr.
Qed.

Section WalkInvariant.
Variable goos : GOOS.
Variables (dir relativePath : string) (wf : WriteFunc) (keepTarOpen : bool).
Hypothesis Hwf : keepsReady wf.

Lemma streamWalkFn_exitOK (path : string) (f : FileInfo) :
  soundWalk (streamWalkFn goos dir relativePath wf keepTarOpen path (inl f)).
Proof.
  intros t Hr. unfold streamWalkFn.
  destruct (String.eqb dir path && IsDir (fi_Mode f)).
  - destruct keepTarOpen; [apply Hwf; exact Hr | exact Hr].
  - destruct (filepath.Split goos path) as [subDir base].
    destruct (filepath.Rel goos dir subDir) as [sd|e] eqn:HRel.
    + apply Hwf. exact Hr.
    + unfold filepath.Rel in HRel. unfold exitOK. simpl.
      repeat match type of HRel with
             | (if ?c then _ else _) = _ => destruct c
             | (let '(_, _) := ?p in _) = _ => destruct p
             | match ?l with [] => _ | _ :: _ => _ end = _ => destruct l
             end; inversion HRel; split; discriminate.
Qed.

Lemma Forall_insertByName {A : Type} (P : string * A -> Prop)
  (x : string * A) (l : list (string * A)) :
  P x -> Forall P l -> Forall P (insertByName x l).
Proof.
  intros Hx Hl. induction Hl as [|y r Hy Hr IH]; simpl.
  - constructor; [exact Hx | constructor].
  - destruct (String.leb (fst x) (fst y)).
    + constructor; [exact Hx|]. constructor; assumption.
    + constructor; assumption.
Qed.

Lemma Forall_sortByName {A : Type} (P : string * A -> Prop)
  (l : list (string * A)) :
  Forall P l -> Forall P (sortByName l).
Proof.
  intros Hl. induction Hl as [|y r Hy Hr IH]; simpl.
  - constructor.
  - apply Forall_insertByName; assumption.
Qed.

Lemma walkEntries_exitOK
  (subs : list (string * (FileInfo * (Writer -> Writer * error)))) :
  Forall (fun x => soundWalk (snd (snd x))) subs ->
  soundWalk (walkEntries subs).
Proof.
  intros Hs. induction Hs as [|[name [info sub]] rest Hsub Hrest IH];
    intros t Hr; simpl.
  - exact Hr.
  - simpl in Hsub. specialize (Hsub t Hr). unfold exitOK in Hsub.
    destruct (sub t) as [t' [e|]]; simpl in Hsub.
    + destruct Hsub as [Hd Ha].
      destruct e; try congruence; rewrite orb_true_r;
        unfold exitOK; simpl; split; discriminate.
    + apply IH. exact Hsub.
Qed.

Lemma walk_exitOK (n : Node) :
  forall path info,
    soundWalk (walk goos n path info
                 (streamWalkFn goos dir relativePath wf keepTarOpen)).
Proof.
  induction n as [m t sz d | m t es IH] using Node_induction; intros path info.
  - simpl. apply streamWalkFn_exitOK.
  - intros s Hr. rewrite walk_Dir.
    pose proof (streamWalkFn_exitOK path info s Hr) as H0.
    unfold exitOK in H0.
    destruct (streamWalkFn goos dir relativePath wf keepTarOpen path (inl info) s)
      as [s1 [e|]]; simpl in H0.
    + exact H0.
    + apply walkEntries_exitOK; [|exact H0].
      unfold childWalks. apply Forall_sortByName.
      apply Forall_map. simpl.
      revert IH. apply Forall_impl. intros ne Hne. apply Hne.
Qed.

End WalkInvariant.

(** With a handler that keeps the writer in order, a walk that returns
    nil ends on a writer that is ready to be closed. *)
Lemma streamWalk_ready (goos : GOOS) (fs : Node) (w : Sink)
  (dir relativePath : string) (writeFunc : option WriteFunc)
  (keepTarOpen : bool) (tw1 : Writer) :
  keepsReady (orStreamFile goos fs writeFunc) ->
  streamWalk goos fs w dir relativePath writeFunc keepTarOpen = (tw1, None) ->
  ready tw1.
Proof.
  intros Hwf. unfold streamWalk, Walk.
  destruct (node goos fs dir) as [n|] eqn:Hn.
  - pose proof (walk_exitOK goos dir relativePath _ keepTarOpen Hwf n dir
                  (nodeInfo (filepath.basename goos dir) n)
                  (tw.NewWriter w) (ready_NewWriter w)) as H0.
    unfold exitOK in H0.
    destruct (walk goos n dir _ _ (tw.NewWriter w)) as [s' [e|]]; simpl in H0.
    + destruct H0 as [Hd Ha].
      destruct e; try congruence; simpl; intros H; inversion H.
    + simpl. intros H; inversion H; subst. exact H0.
  - simpl. intros H; inversion H.
Qed.

(** ** The end of the archive *)

(** C8, as the claim states it, fails: with [keepTarOpen] unset [Stream]
    leaves through the error of the short copy, [tw.Close] is called, and
    the sink holds no end markers. *)
Lemma C8_no_end_markers_after_short_copy :
  snd (Stream unix shrunk_fs [] "/data/1" "db/rp/1" None false) = Some EOF /\
  ~ In BEnd (fst (Stream unix shrunk_fs [] "/data/1" "db/rp/1" None false)).
Proof.
  split; [reflexivity|].
  vm_compute. intros [H | [H | H]]; try discriminate H. exact H.
Qed.

(** C8, amended: on every way out of [Stream], error or not, the deferred
    call is made on the writer the walk left: [tw.Flush] when the tar is
    kept open, which adds no end markers, and [tw.Close] otherwise.
    [tw.Close] adds the end markers when that writer is ready (no sticky
    error, the last entry fully written) and adds nothing when it is not.
    With a handler that keeps the writer in order, as [StreamFile] and
    [SinceFilterTarFile] do, a walk that returns nil leaves it ready, so a
    successful [Stream] with [keepTarOpen] unset ends with the end
    markers. *)
Theorem C8_deferred_flush_or_close (goos : GOOS) (fs : Node) (w : Sink)
  (dir relativePath : string) (writeFunc : option WriteFunc)
  (keepTarOpen : bool) (tw1 : Writer) (err : error) :
  streamWalk goos fs w dir relativePath writeFunc keepTarOpen = (tw1, err) ->
  let out := fst (Stream goos fs w dir relativePath writeFunc keepTarOpen) in
  Stream goos fs w dir relativePath writeFunc keepTarOpen =
    (w_out (if keepTarOpen then fst (tw.Flush tw1) else fst (tw.Close tw1)), err) /\
  (keepTarOpen = true -> out = w_out tw1) /\
  (keepTarOpen = false -> ready tw1 -> out = w_out tw1 ++ [BEnd]) /\
  (keepTarOpen = false -> ~ ready tw1 -> out = w_out tw1) /\
  (keepsReady (orStreamFile goos fs writeFunc) -> err = None -> ready tw1) /\
  (keepsReady (orStreamFile goos fs writeFunc) -> err = None ->
   keepTarOpen = false -> out = w_out tw1 ++ [BEnd]).
Proof.
  intros Hwalk out.
  assert (Hrun : Stream goos fs w dir relativePath writeFunc keepTarOpen =
                 (w_out (if keepTarOpen then fst (tw.Flush tw1)
                         else fst (tw.Close tw1)), err)).
  { unfold Stream. rewrite Hwalk. unfold streamDeferred.
    destruct keepTarOpen; reflexivity. }
  assert (Hclose : ready tw1 -> w_out (fst (tw.Close tw1)) = w_out tw1 ++ [BEnd]).
  { intros Hr. unfold tw.Close. destruct Hr as [He Hn]. rewrite He.
    rewrite (Flush_ready tw1 (conj He Hn)). reflexivity. }
  split; [exact Hrun|].
  unfold out. rewrite Hrun. simpl.
  split; [intros ->; rewrite Flush_state; reflexivity|].
  split; [intros -> Hr; exact (Hclose Hr)|].
  split.
  - intros -> Hnr. unfold tw.Close.
    destruct (w_err tw1) as [e|] eqn:He.
    + destruct e; reflexivity.
    + unfold tw.Flush. rewrite He.
      destruct (0 <? w_nb tw1) eqn:En; [reflexivity|].
      apply Z.ltb_ge in En. exfalso. apply Hnr. split; assumption.
  - split.
    + intros Hwf ->. exact (streamWalk_ready goos fs w dir relativePath writeFunc
                              keepTarOpen tw1 Hwf Hwalk).
    + intros Hwf -> ->. apply Hclose.
      exact (streamWalk_ready goos fs w dir relativePath writeFunc
               false tw1 Hwf Hwalk).
Qed.

Lemma C8_deferred_flush_or_close_witness :
  Stream unix shrunk_fs [] "/data/1" "db/rp/1" None false =
    (w_out (fst (tw.Close
                   (mkWriter
                      [BHeader (mkHeader TypeReg "db/rp/1/a.tsm" EmptyString 4 420 8);
                       BData (list_byte_of_string "hi")] 2 None))),
     Some EOF).
Proof.
  apply (C8_deferred_flush_or_close unix shrunk_fs [] "/data/1" "db/rp/1" None false
           (mkWriter
              [BHeader (mkHeader TypeReg "db/rp/1/a.tsm" EmptyString 4 420 8);
               BData (list_byte_of_string "hi")] 2 None)
           (Some EOF)).
  reflexivity.
Defined.

(** ** The restore loop ends *)

Section RestoreTotal.
Variable goos : GOOS.

Lemma keepsPending_bind {A B : Type} (m : M A) (k : A -> M B) :
  keepsPending m -> (forall a, keepsPending (k a)) -> keepsPending (bind m k).
Proof.
  intros Hm Hk s. unfold bind. specialize (Hm s).
  destruct (m s) as [s' [a|e]]; simpl in *.
  - rewrite Hk. exact Hm.
  - exact Hm.
Qed.

Lemma keepsPending_ret {A : Type} (a : A) : keepsPending (ret a).
Proof. intros s. reflexivity. Qed.

Lemma keepsPending_liftFs (op : Node -> Node * error) : keepsPending (liftFs op).
Proof.
  intros s. unfold liftFs. destruct (op (r_fs s)) as [fs' [e|]]; reflexivity.
Qed.

Lemma keepsPending_OpenFile (name : string) (flag perm : Z) :
  keepsPending (OpenFile goos name flag perm).
Proof.
  intros s. unfold OpenFile.
  destruct (node goos (r_fs s) name) as [[mode mt size data|mode mt es]|].
  - destruct (hasBit flag O_TRUNC); [|reflexivity].
    destruct (store _ _ _); reflexivity.
  - reflexivity.
  - destruct (hasBit flag O_CREATE && negb (String.eqb name EmptyString));
      [|reflexivity].
    destruct (store _ _ _); reflexivity.
Qed.

Lemma CopyN_src {W R : Type} `{ioWriter W} `{ioReader R}
  (dst : W) (src : R) (n : Z) :
  snd (fst (fst (CopyN dst src n))) = fst (fst (readUpTo src n)).
Proof.
  unfold CopyN. destruct (readUpTo src n) as [[src' bs] rerr].
  destruct (match bs with [] => (dst, 0, None) | _ :: _ => writeBytes dst bs end)
    as [[dst' written] werr].
  destruct (written =? n); [reflexivity|].
  destruct ((written <? n) && isNil _); reflexivity.
Qed.

Lemma readUpTo_pending (t : Reader) (n : Z) :
  r_pending (fst (fst (readUpTo t n))) = r_pending t.
Proof.
  simpl. destruct (r_err t); [reflexivity|].
  destruct (Nat.ltb _ _); reflexivity.
Qed.

Lemma keepsPending_copyFromTar (f : WriteFile) (n : Z) :
  keepsPending (copyFromTar goos f n).
Proof.
  intros s. unfold copyFromTar.
  pose proof (@CopyN_src _ _ (WriteFile_ioWriter goos) _ (r_fs s, f) (r_tr s) n)
    as Hsrc.
  destruct (@CopyN _ _ (WriteFile_ioWriter goos) _ (r_fs s, f) (r_tr s) n)
    as [[[[fs' f'] t'] written] err].
  simpl in Hsrc. unfold pending. simpl fst. simpl r_tr.
  rewrite Hsrc. apply readUpTo_pending.
Qed.

Lemma keepsPending_CreateFileFromTar (destPath : string) (hdr : Header) :
  keepsPending (CreateFileFromTar goos destPath hdr).
Proof.
  unfold CreateFileFromTar.
  apply keepsPending_bind; [apply keepsPending_OpenFile|]. intros f.
  apply keepsPending_bind; [apply keepsPending_copyFromTar|]. intros f'.
  apply keepsPending_bind; [intros s; reflexivity|]. intros _.
  apply keepsPending_bind; [apply keepsPending_ret|]. intros _.
  apply keepsPending_liftFs.
Qed.

(** A round of the loop that returns nil has consumed an entry. *)
Lemma extractFile_consumes (dir : string) (s s' : RState) :
  extractFile goos dir s = (s', inl tt) ->
  (List.length (pending s') < List.length (pending s))%nat.
Proof.
  unfold extractFile, bind at 1, trNext.
  destruct (tr.Next (r_tr s)) as [t r] eqn:HN.
  destruct r as [hdr|e]; [|discriminate].
  assert (Hlen : (List.length (r_pending t) < List.length (pending s))%nat).
  { unfold tr.Next in HN. unfold pending.
    destruct (r_err (r_tr s)); [discriminate|].
    destruct (Z.of_nat _ <? r_nb (r_tr s)); [discriminate|].
    destruct (r_pending (r_tr s)) as [|en rest]; [discriminate|].
    destruct (_ <? 0); inversion HN; subst. simpl. lia. }
  set (s1 := mkRState (r_fs s) t (r_log s)).
  change (r_pending t) with (pending s1) in Hlen.
  destruct (Nat.ltb _ 3); [discriminate|].
  destruct (filepath.Split goos _) as [subDir base].
  intros H.
  assert (Hk : pending s' = pending s1); [|rewrite Hk; exact Hlen].
  change s' with (fst (s', @inl unit Error tt)). rewrite <- H.
  destruct (TypeFlag_eqb (Typeflag hdr) TypeDir).
  - apply keepsPending_liftFs.
  - apply keepsPending_bind.
    + destruct (negb (String.eqb subDir EmptyString));
        [apply keepsPending_liftFs | apply keepsPending_ret].
    + intros _. apply keepsPending_CreateFileFromTar.
Qed.

Lemma restoreLoop_total (dir : string) (fuel : nat) :
  forall s, (List.length (pending s) < fuel)%nat ->
            restoreLoop goos fuel dir s <> None.
Proof.
  induction fuel as [|fuel IH]; intros s Hlt; [lia|].
  simpl. destruct (extractFile goos dir s) as [s' r] eqn:Hx.
  destruct r as [[]|e]; simpl.
  - apply IH. pose proof (extractFile_consumes dir s s' Hx). lia.
  - destruct e; discriminate.
Qed.

(** [Restore] returns, whatever the archive and the tree. *)
Lemma Restore_total (r : list Entry * error) (dir : string) (fs : Node)
  (log : list Durable) :
  Restore goos r dir fs log <> None.
Proof.
  unfold Restore.
  pose proof (restoreLoop_total dir (Datatypes.S (List.length (fst r)))
                (mkRState fs (tr.NewReader (fst r) (snd r)) log)) as H.
  destruct (restoreLoop goos _ dir _) as [[s [u|e]]|].
  - destruct (SyncDir goos dir s). discriminate.
  - discriminate.
  - exfalso. apply H; [|reflexivity]. unfold pending. simpl. lia.
Qed.

End RestoreTotal.

(** ** Claims about the restorer *)

(** An entry name with fewer than three sections is rejected with the
    error ["invalid archive path: <name>"], and neither the tree nor the
    sync log is touched. *)
Lemma extractFile_invalid_path (goos : GOOS) (dir : string) (s : RState)
  (t : Reader) (hdr : Header) :
  tr.Next (r_tr s) = (t, inl hdr) ->
  (List.length (sectionsOf goos (Name hdr)) < 3)%nat ->
  extractFile goos dir s =
    (mkRState (r_fs s) t (r_log s), inr (ErrInvalidArchivePath (Name hdr))) /\
  ErrorString (ErrInvalidArchivePath (Name hdr)) =
    ("invalid archive path: " ++ Name hdr)%string.
Proof.
  intros HN Hlen. split; [|reflexivity].
  unfold extractFile, bind at 1, trNext. rewrite HN.
  fold (sectionsOf goos (Name hdr)).
  apply Nat.ltb_lt in Hlen. rewrite Hlen. reflexivity.
Qed.

(** An entry name with exactly three sections is not rejected: its
    relative path is empty, and an entry that is not a directory is
    materialized at the destination root itself. *)
Lemma extractFile_three_sections (goos : GOOS) (dir : string) (s : RState)
  (t : Reader) (hdr : Header) :
  tr.Next (r_tr s) = (t, inl hdr) ->
  List.length (sectionsOf goos (Name hdr)) = 3%nat ->
  TypeFlag_eqb (Typeflag hdr) TypeDir = false ->
  extractFile goos dir s =
    CreateFileFromTar goos (filepath.Join goos [dir; EmptyString]) hdr
      (mkRState (r_fs s) t (r_log s)).
Proof.
  intros HN Hlen Hty.
  unfold extractFile, bind at 1, trNext. rewrite HN.
  fold (sectionsOf goos (Name hdr)).
  rewrite Hlen. simpl Nat.ltb. cbv iota.
  destruct (sectionsOf goos (Name hdr)) as [|a [|b [|c [|d l]]]];
    try discriminate Hlen.
  simpl skipn. unfold filepath.Join at 1. simpl filepath.dropEmpty.
  simpl filepath.Split. rewrite Hty. reflexivity.
Qed.

(** A directory entry makes [MkdirAll] of the directory part of its
    relative path, with the permission bits of the header; the payload of
    the archive is not read. *)
Lemma extractFile_directory (goos : GOOS) (dir : string) (s : RState)
  (t : Reader) (hdr : Header) :
  tr.Next (r_tr s) = (t, inl hdr) ->
  (3 <= List.length (sectionsOf goos (Name hdr)))%nat ->
  Typeflag hdr = TypeDir ->
  let relativePath := filepath.Join goos (skipn 3 (sectionsOf goos (Name hdr))) in
  let subDir := fst (filepath.Split goos relativePath) in
  let made := MkdirAll goos (r_fs s) (filepath.Join goos [dir; subDir])
                (Perm (FileMode (Mode hdr))) in
  extractFile goos dir s =
    (mkRState (fst made) t (r_log s),
     match snd made with None => inl tt | Some e => inr e end).
Proof.
  intros HN Hlen Hty relativePath subDir made.
  unfold extractFile, bind at 1, trNext. rewrite HN.
  fold (sectionsOf goos (Name hdr)).
  assert (Hlt : Nat.ltb (List.length (sectionsOf goos (Name hdr))) 3 = false)
    by (apply Nat.ltb_ge; exact Hlen).
  rewrite Hlt. fold relativePath. unfold made, subDir.
  destruct (filepath.Split goos relativePath) as [sd base].
  rewrite Hty. simpl. unfold liftFs. simpl.
  destruct (MkdirAll goos (r_fs s) _ _) as [fs' [e|]]; reflexivity.
Qed.

(** C1, at an entry the code accepts although the claim rejects it: the
    regular-file entry [db/rp/1] has three sections.  [Restore] into
    [/data] does not fail with "invalid archive path"; the payload is
    written to the file [/data.tmp] beside the destination root, and the
    error returned is that of renaming it onto the root directory. *)
Theorem C1_three_section_entry_is_extracted :
  exists s e,
    Restore unix ([regular_entry "db/rp/1" 420 "hi"], None) "/data" empty_dest []
      = Some (s, Some e) /\
    List.length (sectionsOf unix "db/rp/1") = 3%nat /\
    e = PathError "rename" "/data" EISDIR /\
    e <> ErrInvalidArchivePath "db/rp/1" /\
    node unix (r_fs s) "/data.tmp" =
      Some (File 420 0 2 (list_byte_of_string "hi")).
Proof.
  eexists. eexists. split; [vm_compute; reflexivity|].
  split; [reflexivity|]. split; [reflexivity|]. split; [discriminate|].
  reflexivity.
Qed.

(** C2, at an entry where the directory is not made: for the directory
    entry [db/rp/1/index] the directory part of the relative path [index]
    is empty, so [MkdirAll] is called on the destination root; [Restore]
    succeeds and [/data/index] does not exist. *)
Theorem C2_directory_entry_not_created :
  exists s,
    Restore unix
      ([mkEntry (mkHeader TypeDir "db/rp/1/index" EmptyString 0 493 0) []], None)
      "/data" empty_dest []
      = Some (s, None) /\
    filepath.Split unix (filepath.Join unix (skipn 3 (sectionsOf unix "db/rp/1/index")))
      = (EmptyString, "index") /\
    r_fs s = empty_dest /\
    node unix (r_fs s) "/data/index" = None.
Proof.
  eexists. split; [vm_compute; reflexivity|].
  split; [reflexivity|]. split; reflexivity.
Qed.

(** A file that exists is opened as it is when [O_TRUNC] is not among
    the flags, and [CreateFileFromTar] does not pass it. *)
Lemma OpenFile_existing (goos : GOOS) (name : string) (flag perm : Z)
  (s : RState) (mode : Z) (mt : Time) (size : Z) (data : list byte) :
  node goos (r_fs s) name = Some (File mode mt size data) ->
  hasBit flag O_TRUNC = false ->
  OpenFile goos name flag perm s = (s, inl (mkWriteFile name 0)).
Proof.
  intros Hn Hf. unfold OpenFile. rewrite Hn, Hf. reflexivity.
Qed.

(** C3, at a temporary file left behind: [OpenFile] is called with
    [O_CREATE|O_RDWR] and no [O_TRUNC], so the old file is opened as it
    is; the two bytes of the entry replace its first two bytes, and the
    materialized [/data/a.tsm] keeps the old tail and the old permission
    bits (0600, not the 0644 of the entry). *)
Theorem C3_stale_temporary_file_survives :
  exists s,
    Restore unix ([regular_entry "db/rp/1/a.tsm" 420 "hi"], None)
      "/data" stale_tmp_dest []
      = Some (s, None) /\
    hasBit (Z.lor O_CREATE O_RDWR) O_TRUNC = false /\
    node unix (r_fs s) "/data/a.tsm" =
      Some (File 384 0 6 (list_byte_of_string "hiDOLD")) /\
    node unix (r_fs s) "/data/a.tsm.tmp" = None.
Proof.
  eexists. split; [vm_compute; reflexivity|].
  split; [reflexivity|]. split; reflexivity.
Qed.

(** [Restore] returns nil only with the directory sync of [dir] as the
    last sync done. *)
Lemma Restore_nil_after_SyncDir (goos : GOOS) (r : list Entry * error)
  (dir : string) (fs : Node) (log : list Durable) (s : RState) :
  Restore goos r dir fs log = Some (s, None) ->
  exists log', r_log s = DirSynced dir :: log'.
Proof.
  unfold Restore.
  destruct (restoreLoop goos _ dir _) as [[s0 [u|e]]|]; try discriminate.
  unfold SyncDir.
  destruct (node goos (r_fs s0) dir) as [[mode mt size data|mode mt es]|];
    simpl; intros H; inversion H; subst.
  exists (r_log s0). reflexivity.
Qed.

(** The copy of the payload of an entry that has no data section, as
    every header-only kind, returns [io.EOF] when the header declares a
    size. *)
Lemma copyFromTar_no_data (goos : GOOS) (f : WriteFile) (n : Z) (s : RState) :
  r_err (r_tr s) = None ->
  r_nb (r_tr s) = 0 ->
  0 < n ->
  snd (copyFromTar goos f n s) = inr EOF.
Proof.
  intros He Hnb Hn. unfold copyFromTar, CopyN. simpl readUpTo.
  rewrite He, Hnb. rewrite Z.min_r by lia. simpl.
  destruct n as [|n'|n']; [lia | reflexivity | lia].
Qed.

(** The loop of [Restore] is left by [break] on [io.EOF] from any step
    of [extractFile], not only from [tr.Next]. *)
Lemma restoreLoop_breaks_on_EOF (goos : GOOS) (dir : string) (fuel : nat)
  (s s' : RState) :
  extractFile goos dir s = (s', inr EOF) ->
  restoreLoop goos (Datatypes.S fuel) dir s = Some (s', inl tt).
Proof.
  intros H. simpl. rewrite H. reflexivity.
Qed.

(** C9, at an error that does not abort the restore: the first entry is
    a symlink header that declares five bytes; such an entry has no
    payload, the copy of [hdr.Size] bytes stops short and returns
    [io.EOF], and [Restore] takes it for the end of the archive: it
    syncs the directory and returns nil, and the entry [a.tsm] that
    follows is never read. *)
Theorem C9_short_copy_ends_restore_with_success :
  exists s,
    Restore unix
      ([mkEntry (mkHeader TypeSymlink "db/rp/1/l" "a.tsm" 5 420 0) [];
        regular_entry "db/rp/1/a.tsm" 420 "hi"], None)
      "/data" empty_dest []
      = Some (s, None) /\
    r_log s = [DirSynced "/data"] /\
    pending s = [regular_entry "db/rp/1/a.tsm" 420 "hi"] /\
    node unix (r_fs s) "/data/a.tsm" = None /\
    node unix (r_fs s) "/data/l.tmp" = Some (File 420 0 0 []).
Proof.
  eexists. split; [vm_compute; reflexivity|].
  repeat split; reflexivity.
Qed.

(** * Further properties *)

(** ** What the archiver adds to the sink *)

Section Adds.
Variable P : Block -> Prop.

Lemma addsOnly_refl (t : Writer) : addsOnly P t t.
Proof. exists []. rewrite app_nil_r. split; [reflexivity | constructor]. Qed.

Lemma addsOnly_trans (t1 t2 t3 : Writer) :
  addsOnly P t1 t2 -> addsOnly P t2 t3 -> addsOnly P t1 t3.
Proof.
  intros (r1 & H1 & F1) (r2 & H2 & F2). exists (r1 ++ r2).
  rewrite H2, H1, app_assoc. split; [reflexivity|].
  apply Forall_app. split; assumption.
Qed.

Lemma WriteHeader_adds (t : Writer) (h : Header) :
  P (BHeader h) -> addsOnly P t (fst (tw.WriteHeader t h)).
Proof.
  intros Hh. unfold tw.WriteHeader.
  rewrite (surjective_pairing (tw.Flush t)), Flush_state.
  destruct (snd (tw.Flush t)); [apply addsOnly_refl|].
  destruct (negb (isHeaderOnlyType (Typeflag h)) && (Size h <? 0));
    [apply addsOnly_refl|].
  exists [BHeader h]. split; [reflexivity|]. constructor; [exact Hh|constructor].
Qed.

Lemma Write_adds (t : Writer) (b : list byte) :
  (forall d, P (BData d)) -> addsOnly P t (fst (fst (tw.Write t b))).
Proof.
  intros Hd. unfold tw.Write. destruct (w_err t); [apply addsOnly_refl|].
  simpl. destruct (0 <? _); [|apply addsOnly_refl].
  eexists. split; [reflexivity|]. constructor; [apply Hd|constructor].
Qed.

Lemma CopyN_adds (t : Writer) (fr : ReadFile) (n : Z) :
  (forall d, P (BData d)) -> addsOnly P t (fst (fst (fst (CopyN t fr n)))).
Proof.
  intros Hd. unfold CopyN. simpl readUpTo. cbv beta iota zeta.
  pose proof (Write_adds t (firstn (Z.to_nat n) fr) Hd) as Hw.
  destruct (firstn (Z.to_nat n) fr) as [|b0 bs] eqn:E.
  - simpl. destruct n; simpl; apply addsOnly_refl.
  - simpl writeBytes.
    destruct (tw.Write t (b0 :: bs)) as [[t' written] werr]. simpl in Hw.
    destruct (written =? n); [exact Hw|].
    destruct ((written <? n) && isNil _); exact Hw.
Qed.

Lemma StreamRenameFile_adds (goos : GOOS) (fs : Node) (f : FileInfo)
  (name rel full : string) (t : Writer) :
  (forall d, P (BData d)) ->
  (forall h0, FileInfoHeader f (fi_Name f) = inl h0 ->
              P (BHeader (withName h0 (entryName goos rel name)))) ->
  addsOnly P t (fst (StreamRenameFile goos fs f name rel full t)).
Proof.
  intros Hd Hh. unfold StreamRenameFile.
  destruct (FileInfoHeader f (fi_Name f)) as [h0|e]; [|apply addsOnly_refl].
  fold (entryName goos rel name).
  pose proof (WriteHeader_adds t _ (Hh h0 eq_refl)) as Hw.
  destruct (tw.WriteHeader t (withName h0 (entryName goos rel name)))
    as [t1 [e|]]; simpl in Hw; [exact Hw|].
  destruct (negb (IsRegular (fi_Mode f))); [exact Hw|].
  destruct (Open goos fs full) as [fr|e]; [|exact Hw].
  generalize (Size (withName h0 (entryName goos rel name))). intros n.
  pose proof (CopyN_adds t1 fr n Hd) as Hc.
  match goal with
  | |- context [@CopyN ?W ?R ?iw ?ir ?a ?b ?c] =>
      set (cc := @CopyN W R iw ir a b c)
  end.
  change (addsOnly P t1 (fst (fst (fst cc)))) in Hc.
  destruct cc as [[[t2 fr'] written] err].
  simpl in Hc. simpl.
  exact (addsOnly_trans _ _ _ Hw Hc).
Qed.

Lemma walkEntries_adds
  (subs : list (string * (FileInfo * (Writer -> Writer * error)))) :
  Forall (fun x => forall s, addsOnly P s (fst (snd (snd x) s))) subs ->
  forall s, addsOnly P s (fst (walkEntries subs s)).
Proof.
  intros Hs. induction Hs as [|[name [info sub]] rest Hsub Hrest IH];
    intros s; simpl.
  - apply addsOnly_refl.
  - simpl in Hsub. specialize (Hsub s).
    destruct (sub s) as [s' [e|]]; simpl in Hsub.
    + match goal with
      | |- context [if ?c then _ else _] => destruct c
      end.
      * exact Hsub.
      * exact (addsOnly_trans _ _ _ Hsub (IH s')).
    + exact (addsOnly_trans _ _ _ Hsub (IH s')).
Qed.

Lemma streamWalkFn_adds (goos : GOOS) (dir rel : string) (wf : WriteFunc)
  (keep : bool) (path : string) (f : FileInfo + Error) (s : Writer) :
  handlerAdds P wf ->
  addsOnly P s (fst (streamWalkFn goos dir rel wf keep path f s)).
Proof.
  intros Hwf. unfold streamWalkFn. destruct f as [f|e]; [|apply addsOnly_refl].
  destruct (String.eqb dir path && IsDir (fi_Mode f)).
  - destruct keep; [apply Hwf | apply addsOnly_refl].
  - destruct (filepath.Split goos path) as [subDir base].
    destruct (filepath.Rel goos dir subDir); [apply Hwf | apply addsOnly_refl].
Qed.

Lemma walk_adds (goos : GOOS) (dir rel : string) (wf : WriteFunc) (keep : bool)
  (n : Node) :
  handlerAdds P wf ->
  forall path info s,
    addsOnly P s (fst (walk goos n path info
                         (streamWalkFn goos dir rel wf keep) s)).
Proof.
  intros Hwf.
  induction n as [m t sz d | m t es IH] using Node_induction; intros path info s.
  - cbn [walk]. apply streamWalkFn_adds. exact Hwf.
  - rewrite walk_Dir.
    pose proof (streamWalkFn_adds goos dir rel wf keep path (inl info) s Hwf) as H0.
    destruct (streamWalkFn goos dir rel wf keep path (inl info) s) as [s1 [e|]];
      simpl in H0; [exact H0|].
    refine (addsOnly_trans _ _ _ H0 _).
    apply walkEntries_adds. unfold childWalks. apply Forall_sortByName.
    apply Forall_map. simpl. revert IH. apply Forall_impl.
    intros ne Hne s'. apply Hne.
Qed.

(** Whatever [Stream] returns, the sink holds what it held before, then
    blocks the write function added, then the end markers or nothing. *)
Lemma Stream_adds (goos : GOOS) (fs : Node) (w : Sink) (dir rel : string)
  (writeFunc : option WriteFunc) (keep : bool) :
  handlerAdds P (orStreamFile goos fs writeFunc) ->
  exists rest tail,
    fst (Stream goos fs w dir rel writeFunc keep) = w ++ rest ++ tail /\
    Forall P rest /\
    (tail = [] \/ (tail = [BEnd] /\ keep = false)).
Proof.
  intros Hwf. unfold Stream.
  assert (Hw : addsOnly P (tw.NewWriter w)
                 (fst (streamWalk goos fs w dir rel writeFunc keep))).
  { unfold streamWalk, Walk.
    destruct (node goos fs dir) as [n|].
    - pose proof (walk_adds goos dir rel _ keep n Hwf dir
                    (nodeInfo (filepath.basename goos dir) n) (tw.NewWriter w)) as H0.
      destruct (walk goos n dir _ _ (tw.NewWriter w)) as [s' err].
      destruct (isSkipDir err || isSkipAll err); exact H0.
    - simpl. apply addsOnly_refl. }
  destruct (streamWalk goos fs w dir rel writeFunc keep) as [tw1 err].
  destruct Hw as (rest & Hout & Hrest). simpl in Hout. simpl fst.
  exists rest. unfold streamDeferred. destruct keep.
  - exists []. rewrite Flush_state, Hout, app_nil_r. auto.
  - unfold tw.Close. destruct (w_err tw1) as [e|] eqn:He.
    + exists []. rewrite app_nil_r. destruct e; simpl; rewrite Hout; auto.
    + unfold tw.Flush. rewrite He. destruct (0 <? w_nb tw1).
      * exists []. simpl. rewrite Hout, app_nil_r. auto.
      * exists [BEnd]. simpl. rewrite Hout, <- app_assoc. auto.
Qed.

End Adds.


Lemma StreamFile_adds_slashName (goos : GOOS) (fs : Node) :
  handlerAdds (slashName goos) (StreamFile goos fs).
Proof.
  intros f rel full t. unfold StreamFile. apply StreamRenameFile_adds.
  - intros d. exact I.
  - intros h0 _. simpl. intros Hs. apply ToSlash_no_host_separator. exact Hs.
Qed.


Lemma SinceFilterTarFile_adds_slashName (goos : GOOS) (fs : Node) (since : Time) :
  handlerAdds (slashName goos) (SinceFilterTarFile goos fs since).
Proof.
  intros f rel full t. unfold SinceFilterTarFile.
  destruct (After (fi_ModTime f) since); [|apply addsOnly_refl].
  apply StreamFile_adds_slashName.
Qed.

(** X1: [Stream] with the default write function or with the since-filter
    never changes what the sink already holds: on every return, error or
    not, the sink is its earlier contents followed by what was added. *)
Theorem Stream_only_appends (goos : GOOS) (fs : Node) (w : Sink)
  (dir relativePath : string) (keepTarOpen : bool) (since : Time) :
  (exists added,
     fst (Stream goos fs w dir relativePath None keepTarOpen) = w ++ added) /\
  (exists added,
     fst (Stream goos fs w dir relativePath
            (Some (SinceFilterTarFile goos fs since)) keepTarOpen) = w ++ added).
Proof.
  split.
  - destruct (Stream_adds (slashName goos) goos fs w dir relativePath None
                keepTarOpen (StreamFile_adds_slashName goos fs))
      as (rest & tail & H & _).
    exists (rest ++ tail). exact H.
  - destruct (Stream_adds (slashName goos) goos fs w dir relativePath
                (Some (SinceFilterTarFile goos fs since)) keepTarOpen
                (SinceFilterTarFile_adds_slashName goos fs since))
      as (rest & tail & H & _).
    exists (rest ++ tail). exact H.
Qed.


(** X3: on a host whose separator is not the slash, no entry name that
    [Stream] writes with the default write function holds the host
    separator: the names are slash-separated on every host. *)
Theorem Stream_entry_names_have_no_host_separator (goos : GOOS) (fs : Node)
  (w : Sink) (dir relativePath : string) (keepTarOpen : bool) :
  filepath.Separator goos <> "/"%char ->
  exists entries tail,
    fst (Stream goos fs w dir relativePath None keepTarOpen)
      = w ++ entries ++ tail /\
    (forall h, In (BHeader h) entries ->
               ~ InString (filepath.Separator goos) (Name h)) /\
    (tail = [] \/ (tail = [BEnd] /\ keepTarOpen = false)).
Proof.
  intros Hsep.
  destruct (Stream_adds (slashName goos) goos fs w dir relativePath None
              keepTarOpen (StreamFile_adds_slashName goos fs))
    as (rest & tail & H & Hall & Ht).
  exists rest, tail. split; [exact H|]. split; [|exact Ht].
  intros h Hin. rewrite Forall_forall in Hall. exact (Hall _ Hin Hsep).
Qed.

Lemma Stream_entry_names_have_no_host_separator_witness :
  exists entries tail,
    fst (Stream windows shrunk_fs [] "\data\1" "db/rp/1" None false)
      = [] ++ entries ++ tail /\
    (forall h, In (BHeader h) entries -> ~ InString backslash (Name h)) /\
    (tail = [] \/ (tail = [BEnd] /\ false = false)).
Proof.
  apply (Stream_entry_names_have_no_host_separator windows shrunk_fs []
           "\data\1" "db/rp/1" false).
  simpl. discriminate.
Defined.

(** ** Complete entries *)

Lemma framed_app (a b : list Block) : framed a -> framed b -> framed (a ++ b).
Proof.
  intros Ha Hb. induction Ha as [|h d rest Hd Hrest IH]; [exact Hb|].
  simpl. rewrite <- app_assoc. constructor; assumption.
Qed.

Lemma addsFramed_refl (t : Writer) : addsFramed t t.
Proof. exists []. rewrite app_nil_r. split; [reflexivity | constructor]. Qed.

Lemma addsFramed_trans (t1 t2 t3 : Writer) :
  addsFramed t1 t2 -> addsFramed t2 t3 -> addsFramed t1 t3.
Proof.
  intros (r1 & H1 & F1) (r2 & H2 & F2). exists (r1 ++ r2).
  rewrite H2, H1, app_assoc. split; [reflexivity|].
  apply framed_app; assumption.
Qed.

Section Keeps.
Variable R : Writer -> Writer -> Prop.
Hypothesis R_refl : forall t, R t t.
Hypothesis R_trans : forall t1 t2 t3, R t1 t2 -> R t2 t3 -> R t1 t3.
Variable goos : GOOS.
Variables (dir relativePath : string) (wf : WriteFunc) (keepTarOpen : bool).
Hypothesis Hwf : handlerKeeps R wf.

Lemma streamWalkFn_exitWith (path : string) (f : FileInfo) (t : Writer) :
  ready t ->
  exitWith R t (streamWalkFn goos dir relativePath wf keepTarOpen path (inl f) t).
Proof.
  intros Hr. unfold streamWalkFn.
  destruct (String.eqb dir path && IsDir (fi_Mode f)).
  - destruct keepTarOpen; [apply Hwf; exact Hr | split; [exact Hr | apply R_refl]].
  - destruct (filepath.Split goos path) as [subDir base].
    destruct (filepath.Rel goos dir subDir) as [sd|e] eqn:HRel.
    + apply Hwf. exact Hr.
    + unfold filepath.Rel in HRel. unfold exitWith. simpl.
      repeat match type of HRel with
             | (if ?c then _ else _) = _ => destruct c
             | (let '(_, _) := ?p in _) = _ => destruct p
             | match ?l with [] => _ | _ :: _ => _ end = _ => destruct l
             end; inversion HRel; split; discriminate.
Qed.

Lemma exitWith_then (t t1 : Writer) (r : Writer * error) :
  R t t1 -> exitWith R t1 r -> exitWith R t r.
Proof.
  unfold exitWith. destruct (snd r); [auto|].
  intros H01 [Hr H1]. split; [exact Hr | exact (R_trans _ _ _ H01 H1)].
Qed.

Lemma walkEntries_exitWith
  (subs : list (string * (FileInfo * (Writer -> Writer * error)))) :
  Forall (fun x => forall t, ready t -> exitWith R t (snd (snd x) t)) subs ->
  forall t, ready t -> exitWith R t (walkEntries subs t).
Proof.
  intros Hs. induction Hs as [|[name [info sub]] rest Hsub Hrest IH];
    intros t Hr; simpl.
  - split; [exact Hr | apply R_refl].
  - simpl in Hsub. specialize (Hsub t Hr). unfold exitWith in Hsub.
    destruct (sub t) as [t' [e|]]; simpl in Hsub.
    + destruct Hsub as [Hd Ha].
      destruct e; try congruence; rewrite orb_true_r;
        unfold exitWith; simpl; split; discriminate.
    + destruct Hsub as [Hr' H01].
      exact (exitWith_then _ _ _ H01 (IH t' Hr')).
Qed.

Lemma walk_exitWith (n : Node) :
  forall path info t,
    ready t ->
    exitWith R t (walk goos n path info
                    (streamWalkFn goos dir relativePath wf keepTarOpen) t).
Proof.
  induction n as [m mt sz d | m mt es IH] using Node_induction;
    intros path info t Hr.
  - cbn [walk]. apply streamWalkFn_exitWith. exact Hr.
  - rewrite walk_Dir.
    pose proof (streamWalkFn_exitWith path info t Hr) as H0.
    unfold exitWith in H0.
    destruct (streamWalkFn goos dir relativePath wf keepTarOpen path (inl info) t)
      as [t1 [e|]]; simpl in H0.
    + exact H0.
    + destruct H0 as [Hr1 H01]. refine (exitWith_then _ _ _ H01 _).
      apply walkEntries_exitWith; [|exact Hr1].
      unfold childWalks. apply Forall_sortByName.
      apply Forall_map. simpl.
      revert IH. apply Forall_impl. intros ne Hne. apply Hne.
Qed.

End Keeps.

(** A walk that returns nil leaves the writer ready and related to the
    new writer by what the write function keeps. *)
Lemma streamWalk_keeps (R : Writer -> Writer -> Prop)
  (goos : GOOS) (fs : Node) (w : Sink) (dir relativePath : string)
  (writeFunc : option WriteFunc) (keepTarOpen : bool) (tw1 : Writer) :
  (forall t, R t t) ->
  (forall t1 t2 t3, R t1 t2 -> R t2 t3 -> R t1 t3) ->
  handlerKeeps R (orStreamFile goos fs writeFunc) ->
  streamWalk goos fs w dir relativePath writeFunc keepTarOpen = (tw1, None) ->
  ready tw1 /\ R (tw.NewWriter w) tw1.
Proof.
  intros Hrefl Htrans Hwf. unfold streamWalk, Walk.
  destruct (node goos fs dir) as [n|] eqn:Hn.
  - pose proof (walk_exitWith R Hrefl Htrans goos dir relativePath _ keepTarOpen
                  Hwf n dir (nodeInfo (filepath.basename goos dir) n)
                  (tw.NewWriter w) (ready_NewWriter w)) as H0.
    unfold exitWith in H0.
    destruct (walk goos n dir _ _ (tw.NewWriter w)) as [s' [e|]]; simpl in H0.
    + destruct H0 as [Hd Ha].
      destruct e; try congruence; simpl; intros H; inversion H.
    + simpl. intros H; inversion H; subst. exact H0.
  - simpl. intros H; inversion H.
Qed.

Lemma StreamRenameFile_keeps_framed (goos : GOOS) (fs : Node) (name : string) :
  handlerKeeps addsFramed
    (fun f rel full t => StreamRenameFile goos fs f name rel full t).
Proof.
  intros f rel full t Hr. unfold exitWith.
  pose proof (StreamRenameFile_keepsReady goos fs name f rel full t Hr) as Hk.
  unfold exitOK in Hk.
  destruct (StreamRenameFile goos fs f name rel full t) as [t' [e|]] eqn:Hrun;
    simpl in *; [exact Hk|].
  split; [exact Hk|].
  destruct (FileInfoHeader f (fi_Name f)) as [h0|e] eqn:Hh.
  2:{ unfold StreamRenameFile in Hrun. rewrite Hh in Hrun. discriminate. }
  destruct (tw.WriteHeader t (withName h0 (entryName goos rel name)))
    as [t1 [e|]] eqn:Hw.
  { unfold StreamRenameFile in Hrun. rewrite Hh in Hrun.
    fold (entryName goos rel name) in Hrun. rewrite Hw in Hrun. discriminate. }
  pose proof (FileInfoHeader_Typeflag _ _ _ Hh) as Hty.
  pose proof (FileInfoHeader_Size _ _ _ Hh) as Hsz.
  destruct (WriteHeader_ok _ _ _ Hw) as (_ & Ht1 & Hnb).
  destruct (IsRegular (fi_Mode f)) eqn:Hreg; simpl in Hty.
  - destruct (Open goos fs full) as [fr|e] eqn:Ho.
    + rewrite (StreamRenameFile_regular goos fs f name rel full t t1 h0 fr
                 Hreg Hh Hw Ho) in Hrun.
      destruct (Z.of_nat (List.length fr) <? fi_Size f) eqn:E;
        [inversion Hrun|].
      apply Z.ltb_ge in E. inversion Hrun; subst t'. simpl.
      eexists. split; [reflexivity|].
      rewrite <- (app_nil_r (dataBlocks _)). constructor; [|constructor].
      simpl. rewrite Hty, Hsz, length_firstn.
      assert (0 <= fi_Size f).
      { rewrite Ht1 in Hnb. simpl in Hnb. rewrite Hty, Hsz in Hnb. exact Hnb. }
      lia.
    + rewrite (StreamRenameFile_written goos fs f name rel full t t1 h0 Hh Hw)
        in Hrun. rewrite Hreg, Ho in Hrun. discriminate.
  - rewrite (StreamRenameFile_written goos fs f name rel full t t1 h0 Hh Hw)
      in Hrun. rewrite Hreg in Hrun. simpl in Hrun. inversion Hrun; subst t'.
    rewrite Ht1. simpl. exists [BHeader (withName h0 (entryName goos rel name))].
    split; [reflexivity|].
    change [BHeader (withName h0 (entryName goos rel name))]
      with (BHeader (withName h0 (entryName goos rel name)) :: dataBlocks [] ++ []).
    constructor; [|constructor]. simpl. rewrite Hty. reflexivity.
Qed.

Lemma StreamFile_keeps_framed (goos : GOOS) (fs : Node) :
  handlerKeeps addsFramed (StreamFile goos fs).
Proof.
  intros f rel full t Hr. unfold StreamFile.
  exact (StreamRenameFile_keeps_framed goos fs (fi_Name f) f rel full t Hr).
Qed.

Lemma SinceFilterTarFile_keeps_framed (goos : GOOS) (fs : Node) (since : Time) :
  handlerKeeps addsFramed (SinceFilterTarFile goos fs since).
Proof.
  intros f rel full t Hr. unfold SinceFilterTarFile.
  destruct (After (fi_ModTime f) since).
  - apply StreamFile_keeps_framed. exact Hr.
  - split; [exact Hr | apply addsFramed_refl].
Qed.

(** X4: when [Stream] returns nil, with the default write function or
    with the since-filter, what it added to the sink is a sequence of
    complete entries, each header followed by exactly the payload bytes
    it declares (none for a header-only kind), and after them the end
    markers unless the tar is kept open. *)
Theorem Stream_nil_adds_complete_entries (goos : GOOS) (fs : Node) (w : Sink)
  (dir relativePath : string) (writeFunc : option WriteFunc)
  (keepTarOpen : bool) (since : Time) (out : Sink) :
  writeFunc = None \/ writeFunc = Some (SinceFilterTarFile goos fs since) ->
  Stream goos fs w dir relativePath writeFunc keepTarOpen = (out, None) ->
  exists entries,
    framed entries /\
    out = w ++ entries ++ (if keepTarOpen then [] else [BEnd]).
Proof.
  intros Hwf. unfold Stream.
  destruct (streamWalk goos fs w dir relativePath writeFunc keepTarOpen)
    as [tw1 err] eqn:Hwalk.
  intros H. inversion H; subst err. clear H.
  assert (Hk : handlerKeeps addsFramed (orStreamFile goos fs writeFunc)).
  { destruct Hwf as [-> | ->]; simpl.
    - apply StreamFile_keeps_framed.
    - apply SinceFilterTarFile_keeps_framed. }
  destruct (streamWalk_keeps addsFramed goos fs w dir relativePath writeFunc
              keepTarOpen tw1 addsFramed_refl addsFramed_trans Hk Hwalk)
    as [Hr (entries & Hout & Hfr)].
  simpl in Hout. exists entries. split; [exact Hfr|].
  unfold streamDeferred. destruct keepTarOpen.
  - rewrite Flush_state, Hout, app_nil_r. reflexivity.
  - unfold tw.Close. destruct Hr as [He Hn]. rewrite He.
    rewrite (Flush_ready tw1 (conj He Hn)). simpl.
    rewrite Hout, <- app_assoc. reflexivity.
Qed.

Lemma Stream_nil_adds_complete_entries_witness :
  exists entries,
    framed entries /\
    [BHeader (mkHeader TypeDir "db/rp/1/1" EmptyString 0 493 5)]
      = [] ++ entries ++ [].
Proof.
  apply (Stream_nil_adds_complete_entries unix empty_shard_fs [] "/data/1"
           "db/rp/1" None true 0).
  - left. reflexivity.
  - reflexivity.
Defined.

(** ** A directory that is not there *)

(** X5: when [dir] does not exist, [Stream] never calls the write
    function: it returns the error of [Lstat], and the sink gets nothing
    but the end markers of the deferred [tw.Close] (nothing at all when
    the tar is kept open). *)
Theorem Stream_missing_directory (goos : GOOS) (fs : Node) (w : Sink)
  (dir relativePath : string) (writeFunc : option WriteFunc)
  (keepTarOpen : bool) :
  node goos fs dir = None ->
  Stream goos fs w dir relativePath writeFunc keepTarOpen =
    (if keepTarOpen then w else w ++ [BEnd],
     Some (PathError "lstat" dir ENOENT)).
Proof.
  intros Hn. unfold Stream, streamWalk, Walk. rewrite Hn. simpl.
  destruct keepTarOpen; reflexivity.
Qed.

Lemma Stream_missing_directory_witness :
  Stream unix empty_dest [] "/data/7" "db/rp/7" None false =
    ([BEnd], Some (PathError "lstat" "/data/7" ENOENT)).
Proof.
  apply (Stream_missing_directory unix empty_dest [] "/data/7" "db/rp/7" None false).
  reflexivity.
Defined.

(** ** The name override *)

Lemma sameButNames_Write (t1 t2 : Writer) (b : list byte) :
  sameButNames t1 t2 ->
  sameButNames (fst (fst (tw.Write t1 b))) (fst (fst (tw.Write t2 b))) /\
  snd (fst (tw.Write t1 b)) = snd (fst (tw.Write t2 b)) /\
  snd (tw.Write t1 b) = snd (tw.Write t2 b).
Proof.
  intros (Ho & Hn & He). unfold tw.Write. rewrite He, Hn.
  destruct (w_err t2) eqn:E2; simpl; [repeat split; congruence|].
  destruct (0 <? _); simpl.
  - repeat split; auto. simpl. rewrite !map_app, Ho. reflexivity.
  - repeat split; congruence.
Qed.

Lemma sameButNames_CopyN (t1 t2 : Writer) (fr : ReadFile) (n : Z) :
  sameButNames t1 t2 ->
  sameButNames (fst (fst (fst (CopyN t1 fr n)))) (fst (fst (fst (CopyN t2 fr n)))) /\
  snd (CopyN t1 fr n) = snd (CopyN t2 fr n).
Proof.
  intros Hs. unfold CopyN. simpl readUpTo. cbv beta iota zeta.
  destruct (firstn (Z.to_nat n) fr) as [|b0 bs].
  - destruct (0 =? n); [split; [exact Hs|reflexivity]|].
    destruct ((0 <? n) && isNil None); split; try exact Hs; reflexivity.
  - simpl writeBytes.
    destruct (sameButNames_Write t1 t2 (b0 :: bs) Hs) as (H1 & H2 & H3).
    destruct (tw.Write t1 (b0 :: bs)) as [[t1' w1] e1].
    destruct (tw.Write t2 (b0 :: bs)) as [[t2' w2] e2].
    simpl in H1, H2, H3. subst w2 e2.
    destruct (w1 =? n); [split; [exact H1|reflexivity]|].
    destruct ((w1 <? n) && isNil _); split; try exact H1; reflexivity.
Qed.

(** X6: the name given to [StreamRenameFile] in place of the file's own
    changes nothing but the name in the header: with any two names the
    call returns the same error, and the two writers hold the same
    blocks, payload included, up to the names of the headers. *)
Theorem StreamRenameFile_name_only_in_header (goos : GOOS) (fs : Node)
  (f : FileInfo) (name1 name2 relativePath fullPath : string) (t : Writer) :
  let r1 := StreamRenameFile goos fs f name1 relativePath fullPath t in
  let r2 := StreamRenameFile goos fs f name2 relativePath fullPath t in
  snd r1 = snd r2 /\
  map forgetName (w_out (fst r1)) = map forgetName (w_out (fst r2)) /\
  w_nb (fst r1) = w_nb (fst r2) /\
  w_err (fst r1) = w_err (fst r2).
Proof.
  cbv zeta. unfold StreamRenameFile.
  destruct (FileInfoHeader f (fi_Name f)) as [h0|e]; [|repeat split].
  fold (entryName goos relativePath name1). fold (entryName goos relativePath name2).
  generalize (entryName goos relativePath name1) as n1.
  generalize (entryName goos relativePath name2) as n2. intros n2 n1.
  unfold tw.WriteHeader.
  rewrite (surjective_pairing (tw.Flush t)), Flush_state.
  destruct (snd (tw.Flush t)); [repeat split|].
  change (Typeflag (withName h0 n1)) with (Typeflag h0).
  change (Typeflag (withName h0 n2)) with (Typeflag h0).
  change (Size (withName h0 n1)) with (Size h0).
  change (Size (withName h0 n2)) with (Size h0).
  destruct (negb (isHeaderOnlyType (Typeflag h0)) && (Size h0 <? 0));
    [repeat split|].
  set (nb := if isHeaderOnlyType (Typeflag h0) then 0 else Size h0).
  assert (Hs : sameButNames
                 (mkWriter (w_out t ++ [BHeader (withName h0 n1)]) nb None)
                 (mkWriter (w_out t ++ [BHeader (withName h0 n2)]) nb None)).
  { split; [|split; reflexivity]. simpl. rewrite !map_app. reflexivity. }
  destruct (negb (IsRegular (fi_Mode f))).
  { destruct Hs as (H1 & H2 & H3). repeat split; assumption. }
  destruct (Open goos fs fullPath) as [fr|e].
  2:{ destruct Hs as (H1 & H2 & H3). repeat split; assumption. }
  pose proof (sameButNames_CopyN _ _ fr (Size h0) Hs) as Hc.
  match goal with
  | |- context [@CopyN ?W ?R ?iw ?ir ?a ?b ?c] =>
      set (c1 := @CopyN W R iw ir a b c)
  end.
  match goal with
  | |- context [@CopyN ?W ?R ?iw ?ir ?a ?b ?c] =>
      set (c2 := @CopyN W R iw ir a b c)
  end.
  change (sameButNames (fst (fst (fst c1))) (fst (fst (fst c2)))
          /\ snd c1 = snd c2) in Hc.
  destruct c1 as [[[t1' fr1] w1] e1]. destruct c2 as [[[t2' fr2] w2] e2].
  destruct Hc as [(H1 & H2 & H3) H4].
  simpl in *. repeat split; assumption.
Qed.

(** ** A cutoff before every file *)

Lemma allNewer_entries (since : Time) (m : Z) (mt : Time)
  (es : list (string * Node)) :
  allNewer since (Dir m mt es) ->
  since < mt /\ Forall (fun ne => allNewer since (snd ne)) es.
Proof.
  simpl. intros [Hmt Hes]. split; [exact Hmt|].
  induction es as [|ne r IH]; constructor.
  - destruct Hes as [H _]. exact H.
  - apply IH. destruct Hes as [_ H]. exact H.
Qed.

Lemma allNewer_ModTime (since : Time) (name : string) (n : Node) :
  allNewer since n -> since < fi_ModTime (nodeInfo name n).
Proof.
  destruct n as [m mt sz d | m mt es]; simpl; [auto | intros [H _]; exact H].
Qed.

Lemma streamWalkFn_since_newer (goos : GOOS) (fs : Node) (dir rel : string)
  (keep : bool) (since : Time) (path : string) (f : FileInfo) (s : Writer) :
  since < fi_ModTime f ->
  streamWalkFn goos dir rel (SinceFilterTarFile goos fs since) keep path (inl f) s
  = streamWalkFn goos dir rel (StreamFile goos fs) keep path (inl f) s.
Proof.
  intros Hlt. unfold streamWalkFn, SinceFilterTarFile, After.
  apply Z.ltb_lt in Hlt. rewrite Hlt. reflexivity.
Qed.

Lemma walk_since_newer (goos : GOOS) (fs : Node) (dir rel : string)
  (keep : bool) (since : Time) (n : Node) :
  allNewer since n ->
  forall path name s,
    walk goos n path (nodeInfo name n)
         (streamWalkFn goos dir rel (SinceFilterTarFile goos fs since) keep) s
    = walk goos n path (nodeInfo name n)
           (streamWalkFn goos dir rel (StreamFile goos fs) keep) s.
Proof.
  induction n as [m mt sz d | m mt es IH] using Node_induction;
    intros Hnew path name s.
  - cbn [walk]. apply streamWalkFn_since_newer.
    exact (allNewer_ModTime since name _ Hnew).
  - rewrite !walk_Dir.
    rewrite (streamWalkFn_since_newer goos fs dir rel keep since path _ s
               (allNewer_ModTime since name _ Hnew)).
    destruct (streamWalkFn goos dir rel (StreamFile goos fs) keep path _ s)
      as [s1 [e|]]; [reflexivity|].
    apply walkEntries_same. unfold childWalks. apply sameWalks_sort.
    destruct (allNewer_entries since m mt es Hnew) as [_ Hes].
    clear Hnew. induction es as [|ne r IHr]; simpl; constructor.
    + simpl. split; [reflexivity|]. split; [reflexivity|]. intros s'.
      inversion IH as [|? ? Hne _]; subst. inversion Hes as [|? ? Hw _]; subst.
      apply Hne. exact Hw.
    + apply IHr; [inversion IH | inversion Hes]; assumption.
Qed.

(** X7: with a cutoff that lies before the modification time of the
    directory and of everything in it, the since-filter filters nothing:
    [Stream] with [SinceFilterTarFile since] gives the same sink and the
    same error as [Stream] with the default write function. *)
Theorem Stream_since_before_everything (goos : GOOS) (fs : Node) (w : Sink)
  (dir relativePath : string) (keepTarOpen : bool) (since : Time) (n : Node) :
  node goos fs dir = Some n ->
  allNewer since n ->
  Stream goos fs w dir relativePath
         (Some (SinceFilterTarFile goos fs since)) keepTarOpen
  = Stream goos fs w dir relativePath None keepTarOpen.
Proof.
  intros Hn Hnew. unfold Stream, streamWalk, Walk. rewrite Hn. simpl orStreamFile.
  rewrite (walk_since_newer goos fs dir relativePath keepTarOpen since n Hnew).
  reflexivity.
Qed.

Lemma Stream_since_before_everything_witness :
  Stream unix shrunk_fs [] "/data/1" "db/rp/1"
         (Some (SinceFilterTarFile unix shrunk_fs 4)) false
  = Stream unix shrunk_fs [] "/data/1" "db/rp/1" None false.
Proof.
  apply (Stream_since_before_everything unix shrunk_fs [] "/data/1" "db/rp/1"
           false 4
           (Dir 493 5 [("a.tsm", File 420 8 4 (list_byte_of_string "hi"))])).
  - reflexivity.
  - simpl. lia.
Defined.

(** ** The restorer at the ends of the archive *)

Lemma Next_first (hdr : Header) (data : list byte) (rest : list Entry)
  (tail : error) :
  (isHeaderOnlyType (Typeflag hdr) = false -> 0 <= Size hdr) ->
  tr.Next (tr.NewReader (mkEntry hdr data :: rest) tail) =
    (mkReader rest tail
              (if isHeaderOnlyType (Typeflag hdr) then 0 else Size hdr)
              data None,
     inl hdr).
Proof.
  intros Hs. unfold tr.Next, tr.NewReader. simpl.
  destruct (isHeaderOnlyType (Typeflag hdr)); [reflexivity|].
  destruct (Size hdr <? 0) eqn:E; [|reflexivity].
  apply Z.ltb_lt in E. specialize (Hs eq_refl). lia.
Qed.

(** X8: an archive whose first entry has a name of fewer than three
    sections makes [Restore] fail at once with the error
    ["invalid archive path: <name>"]: the file tree is as before and
    nothing has been synced. *)
Theorem Restore_rejects_short_name (goos : GOOS) (hdr : Header)
  (data : list byte) (rest : list Entry) (tail : error) (dir : string)
  (fs : Node) (log : list Durable) :
  (List.length (sectionsOf goos (Name hdr)) < 3)%nat ->
  (isHeaderOnlyType (Typeflag hdr) = false -> 0 <= Size hdr) ->
  exists s,
    Restore goos (mkEntry hdr data :: rest, tail) dir fs log
      = Some (s, Some (ErrInvalidArchivePath (Name hdr))) /\
    r_fs s = fs /\ r_log s = log /\
    ErrorString (ErrInvalidArchivePath (Name hdr))
      = ("invalid archive path: " ++ Name hdr)%string.
Proof.
  intros Hlen Hsz. unfold Restore. cbn [fst snd restoreLoop].
  pose proof (Next_first hdr data rest tail Hsz) as HN.
  destruct (extractFile_invalid_path goos dir
              (mkRState fs (tr.NewReader (mkEntry hdr data :: rest) tail) log)
              _ hdr HN Hlen) as [Hx Hstr].
  rewrite Hx. simpl. eexists. split; [reflexivity|]. repeat split.
Qed.

Lemma Restore_rejects_short_name_witness :
  exists s,
    Restore unix ([regular_entry "db/a.tsm" 420 "hi"], None) "/data" empty_dest []
      = Some (s, Some (ErrInvalidArchivePath "db/a.tsm")) /\
    r_fs s = empty_dest /\ r_log s = [] /\
    ErrorString (ErrInvalidArchivePath "db/a.tsm")
      = "invalid archive path: db/a.tsm"%string.
Proof.
  apply (Restore_rejects_short_name unix
           (mkHeader TypeReg "db/a.tsm" EmptyString 2 420 0)
           (list_byte_of_string "hi") [] None "/data" empty_dest []).
  - simpl. lia.
  - simpl. lia.
Defined.

(** X9: an archive that ends, properly or with a decode error, before
    its first entry leaves the file tree as it is.  On a decode error
    [Restore] returns that error and syncs nothing; on a proper end it
    goes on to sync [dir] and returns what the sync returns. *)
Theorem Restore_without_entries (goos : GOOS) (tail : error) (dir : string)
  (fs : Node) (log : list Durable) :
  exists s,
    r_fs s = fs /\
    match tail with
    | Some e =>
        e <> EOF ->
        Restore goos ([], tail) dir fs log = Some (s, Some e) /\ r_log s = log
    | None =>
        Restore goos ([], tail) dir fs log
          = Some (fst (SyncDir goos dir s), errorOf (snd (SyncDir goos dir s))) /\
        r_log s = log
    end.
Proof.
  exists (mkRState fs
            (mkReader [] tail 0 []
                      (Some (match tail with Some e => e | None => EOF end)))
            log).
  split; [reflexivity|].
  unfold Restore. cbn [fst snd restoreLoop List.length].
  unfold extractFile, bind at 1, trNext. simpl.
  destruct tail as [e|]; simpl.
  - intros Hne. destruct e; try congruence; simpl; split; reflexivity.
  - split; [|reflexivity].
    match goal with
    | |- (let '(s', res) := ?x in _) = _ => destruct x as [s' res]
    end. reflexivity.
Qed.

(** ** What a restore syncs *)

Section SyncLog.
Variable goos : GOOS.

Lemma syncsTmpOnly_same {A : Type} (m : M A) :
  (forall s, r_log (fst (m s)) = r_log s) -> syncsTmpOnly m.
Proof.
  intros H s. exists []. split; [apply H | constructor].
Qed.

Lemma syncsTmpOnly_bind {A B : Type} (m : M A) (k : A -> M B) :
  syncsTmpOnly m -> (forall a, syncsTmpOnly (k a)) -> syncsTmpOnly (bind m k).
Proof.
  intros Hm Hk s. unfold bind. destruct (Hm s) as (l1 & H1 & F1).
  destruct (m s) as [s' [a|e]]; simpl in *.
  - destruct (Hk a s') as (l2 & H2 & F2). exists (l2 ++ l1).
    rewrite H2, H1, app_assoc. split; [reflexivity|].
    apply Forall_app. split; assumption.
  - exists l1. split; assumption.
Qed.

Lemma syncsTmpOnly_liftFs (op : Node -> Node * error) : syncsTmpOnly (liftFs op).
Proof.
  apply syncsTmpOnly_same. intros s. unfold liftFs.
  destruct (op (r_fs s)) as [fs' [e|]]; reflexivity.
Qed.

Lemma syncsTmpOnly_OpenFile (name : string) (flag perm : Z) :
  syncsTmpOnly (OpenFile goos name flag perm).
Proof.
  apply syncsTmpOnly_same. intros s. unfold OpenFile.
  destruct (node goos (r_fs s) name) as [[mode mt size data|mode mt es]|].
  - destruct (hasBit flag O_TRUNC); [|reflexivity].
    destruct (store _ _ _); reflexivity.
  - reflexivity.
  - destruct (hasBit flag O_CREATE && negb (String.eqb name EmptyString));
      [|reflexivity].
    destruct (store _ _ _); reflexivity.
Qed.

Lemma syncsTmpOnly_copyFromTar (f : WriteFile) (n : Z) :
  syncsTmpOnly (copyFromTar goos f n).
Proof.
  apply syncsTmpOnly_same. intros s. unfold copyFromTar.
  destruct (@CopyN _ _ (WriteFile_ioWriter goos) _ (r_fs s, f) (r_tr s) n)
    as [[[[fs' f'] t'] written] err]. reflexivity.
Qed.

(** The handle keeps the name it was opened with. *)
Lemma OpenFile_name (name : string) (flag perm : Z) (s s' : RState) (f : WriteFile) :
  OpenFile goos name flag perm s = (s', inl f) -> f_name f = name.
Proof.
  unfold OpenFile.
  destruct (node goos (r_fs s) name) as [[mode mt size data|mode mt es]|].
  - destruct (hasBit flag O_TRUNC).
    + destruct (store _ _ _); intros H; inversion H; reflexivity.
    + intros H; inversion H; reflexivity.
  - discriminate.
  - destruct (hasBit flag O_CREATE && negb (String.eqb name EmptyString));
      [|discriminate].
    destruct (store _ _ _); intros H; inversion H; reflexivity.
Qed.

Lemma fileWrite_name (st : Node * WriteFile) (b : list byte) :
  f_name (snd (fst (fst (fileWrite goos st b)))) = f_name (snd st).
Proof.
  destruct st as [fs f]. unfold fileWrite.
  destruct (node goos fs (f_name f)) as [[mode mt size data|mode mt es]|];
    try reflexivity.
  destruct (store _ _ _); reflexivity.
Qed.

Lemma copyFromTar_name (f f' : WriteFile) (n : Z) (s s' : RState) :
  copyFromTar goos f n s = (s', inl f') -> f_name f' = f_name f.
Proof.
  unfold copyFromTar, CopyN.
  destruct (readUpTo (r_tr s) n) as [[src' bs] rerr].
  pose proof (fileWrite_name (r_fs s, f) bs) as Hw.
  destruct bs as [|b0 bs'].
  - destruct (0 =? n); [intros H; inversion H; reflexivity|].
    destruct ((0 <? n) && isNil _); [discriminate|].
    destruct rerr; intros H; inversion H; reflexivity.
  - change (writeBytes (r_fs s, f) (b0 :: bs'))
      with (fileWrite goos (r_fs s, f) (b0 :: bs')).
    destruct (fileWrite goos (r_fs s, f) (b0 :: bs')) as [[[fs1 f1] written] werr].
    simpl in Hw.
    destruct (written =? n); [intros H; inversion H; subst; exact Hw|].
    destruct ((written <? n) && isNil _); [discriminate|].
    destruct (match werr with Some e => Some e | None => rerr end);
      intros H; inversion H; subst; exact Hw.
Qed.

Lemma syncsTmpOnly_CreateFileFromTar (destPath : string) (hdr : Header) :
  syncsTmpOnly (CreateFileFromTar goos destPath hdr).
Proof.
  intros s. unfold CreateFileFromTar, bind at 1.
  destruct (syncsTmpOnly_OpenFile (destPath ++ ".tmp") (Z.lor O_CREATE O_RDWR)
              (Perm (FileMode (Mode hdr))) s) as (l0 & H0 & F0).
  destruct (OpenFile goos (destPath ++ ".tmp") _ _ s) as [s0 [f|e]] eqn:Ho;
    simpl in H0; [|exists l0; split; assumption].
  pose proof (OpenFile_name _ _ _ _ _ _ Ho) as Hname.
  unfold bind at 1.
  destruct (syncsTmpOnly_copyFromTar f (Size hdr) s0) as (l1 & H1 & F1).
  destruct (copyFromTar goos f (Size hdr) s0) as [s1 [f'|e]] eqn:Hc;
    simpl in H1.
  2:{ exists (l1 ++ l0). simpl. rewrite H1, H0, app_assoc. split; [reflexivity|].
      apply Forall_app. split; assumption. }
  pose proof (copyFromTar_name _ _ _ _ _ Hc) as Hname'.
  change ((fSync f';; fClose f';;
           RenameFile goos (destPath ++ ".tmp") destPath)%go s1)
    with (RenameFile goos (destPath ++ ".tmp") destPath
            (mkRState (r_fs s1) (r_tr s1) (FileSynced (f_name f') :: r_log s1))).
  unfold RenameFile.
  match goal with
  | |- exists l, r_log (fst (liftFs ?op ?st)) = _ /\ _ =>
      destruct (syncsTmpOnly_liftFs op st) as (l2 & H2 & F2)
  end.
  exists (l2 ++ [FileSynced (f_name f')] ++ l1 ++ l0).
  rewrite H2. simpl r_log. rewrite H1, H0, <- !app_assoc. split; [reflexivity|].
  apply Forall_app. split; [exact F2|].
  constructor; [|apply Forall_app; split; assumption].
  exists destPath. rewrite Hname', Hname. reflexivity.
Qed.
End SyncLog.

Lemma syncsTmpOnly_extractFile (goos : GOOS) (dir : string) :
  syncsTmpOnly (extractFile goos dir).
Proof.
  unfold extractFile. apply syncsTmpOnly_bind.
  { apply syncsTmpOnly_same. intros s. unfold trNext.
    destruct (tr.Next (r_tr s)). reflexivity. }
  intros hdr. destruct (Nat.ltb _ 3).
  { apply syncsTmpOnly_same. reflexivity. }
  destruct (filepath.Split goos _) as [subDir base].
  destruct (TypeFlag_eqb (Typeflag hdr) TypeDir).
  { apply syncsTmpOnly_liftFs. }
  apply syncsTmpOnly_bind.
  - destruct (negb (String.eqb subDir EmptyString)).
    + apply syncsTmpOnly_liftFs.
    + apply syncsTmpOnly_same. reflexivity.
  - intros _. apply syncsTmpOnly_CreateFileFromTar.
Qed.

Lemma syncsTmpOnly_restoreLoop (goos : GOOS) (dir : string) (fuel : nat) :
  forall s s' res,
    restoreLoop goos fuel dir s = Some (s', res) ->
    exists l, r_log s' = l ++ r_log s /\ Forall isTmpSync l.
Proof.
  induction fuel as [|fuel IH]; intros s s' res; [discriminate|].
  simpl. destruct (syncsTmpOnly_extractFile goos dir s) as (l1 & H1 & F1).
  destruct (extractFile goos dir s) as [s1 r]. simpl in H1.
  destruct (isEOF (errorOf r)).
  { intros H; inversion H; subst. exists l1. split; assumption. }
  destruct (errorOf r).
  { intros H; inversion H; subst. exists l1. split; assumption. }
  intros H. destruct (IH _ _ _ H) as (l2 & H2 & F2).
  exists (l2 ++ l1). rewrite H2, H1, app_assoc. split; [reflexivity|].
  apply Forall_app. split; assumption.
Qed.

(** X10: whatever the archive, the only file syncs of a [Restore] are
    those of temporary files ([<destination>.tmp]), and the directory
    [dir] is synced exactly when [Restore] returns nil, once and as the
    last step; when [Restore] returns an error no directory has been
    synced. *)
Theorem Restore_syncs (goos : GOOS) (r : list Entry * error) (dir : string)
  (fs : Node) (log : list Durable) (s : RState) (err : error) :
  Restore goos r dir fs log = Some (s, err) ->
  exists tmps,
    Forall isTmpSync tmps /\
    r_log s = match err with
              | None => DirSynced dir :: tmps ++ log
              | Some _ => tmps ++ log
              end.
Proof.
  unfold Restore.
  destruct (restoreLoop goos _ dir _) as [[s0 [u|e]]|] eqn:Hloop; try discriminate.
  - destruct (syncsTmpOnly_restoreLoop goos dir _ _ _ _ Hloop) as (l & Hl & Fl).
    simpl in Hl. unfold SyncDir.
    destruct (node goos (r_fs s0) dir) as [[mode mt size data|mode mt es]|];
      simpl; intros H; inversion H; subst; exists l; simpl; rewrite Hl; auto.
  - destruct (syncsTmpOnly_restoreLoop goos dir _ _ _ _ Hloop) as (l & Hl & Fl).
    simpl in Hl. intros H; inversion H; subst. exists l. auto.
Qed.

Lemma Restore_syncs_witness :
  exists tmps,
    Forall isTmpSync tmps /\
    [DirSynced "/data"; FileSynced "/data/a.tsm.tmp"]
      = DirSynced "/data" :: tmps ++ [].
Proof.
  apply (Restore_syncs unix ([regular_entry "db/rp/1/a.tsm" 420 "hi"], None)
           "/data" empty_dest []
           (mkRState
              (Dir 493 0
                 [("data", Dir 493 0
                    [("a.tsm", File 420 0 2 (list_byte_of_string "hi"))])])
              (mkReader [] None 0 [] (Some EOF))
              [DirSynced "/data"; FileSynced "/data/a.tsm.tmp"])
           None).
  vm_compute. reflexivity.
Defined.

(** ** The sections of an entry name *)

(** X11: [Restore] looks only at what follows the first three sections
    of an entry name: two archives that differ in the name of their
    first entry, both names of at least three sections with the same
    sections after the third, are restored to the same result. *)
Theorem Restore_ignores_first_three_sections (goos : GOOS) (hdr : Header)
  (name' : string) (data : list byte) (rest : list Entry) (tail : error)
  (dir : string) (fs : Node) (log : list Durable) :
  (3 <= List.length (sectionsOf goos (Name hdr)))%nat ->
  (3 <= List.length (sectionsOf goos name'))%nat ->
  skipn 3 (sectionsOf goos (Name hdr)) = skipn 3 (sectionsOf goos name') ->
  (isHeaderOnlyType (Typeflag hdr) = false -> 0 <= Size hdr) ->
  Restore goos (mkEntry (withName hdr name') data :: rest, tail) dir fs log
  = Restore goos (mkEntry hdr data :: rest, tail) dir fs log.
Proof.
  intros H1 H2 Hskip Hsz. unfold Restore. cbn [fst snd List.length].
  assert (Hx : extractFile goos dir
                 (mkRState fs (tr.NewReader (mkEntry (withName hdr name') data :: rest)
                                            tail) log)
               = extractFile goos dir
                   (mkRState fs (tr.NewReader (mkEntry hdr data :: rest) tail) log)).
  { pose proof (Next_first hdr data rest tail Hsz) as HR.
    pose proof (Next_first (withName hdr name') data rest tail Hsz) as HL.
    change (Typeflag (withName hdr name')) with (Typeflag hdr) in HL.
    change (Size (withName hdr name')) with (Size hdr) in HL.
    unfold extractFile.
    match goal with |- bind _ ?k _ = _ => set (K := k) end.
    unfold bind, trNext. cbn [r_tr r_fs r_log]. rewrite HL, HR.
    unfold K. cbv beta.
    change (Name (withName hdr name')) with name'.
    fold (sectionsOf goos name'). fold (sectionsOf goos (Name hdr)).
    apply Nat.ltb_ge in H1, H2. rewrite H1, H2, Hskip. reflexivity. }
  cbn [restoreLoop]. rewrite Hx. reflexivity.
Qed.

Lemma Restore_ignores_first_three_sections_witness :
  Restore unix ([regular_entry "x/y/z/a.tsm" 420 "hi"], None) "/data" empty_dest []
  = Restore unix ([regular_entry "db/rp/1/a.tsm" 420 "hi"], None) "/data"
            empty_dest [].
Proof.
  apply (Restore_ignores_first_three_sections unix
           (mkHeader TypeReg "db/rp/1/a.tsm" EmptyString 2 420 0) "x/y/z/a.tsm"
           (list_byte_of_string "hi") [] None "/data" empty_dest []).
  - simpl. lia.
  - simpl. lia.
  - reflexivity.
  - simpl. lia.
Defined.

(** ** Looking up what was stored *)

Lemma getEntry_setEntry_same (e : string) (v : Node) (es : list (string * Node)) :
  getEntry e (setEntry e v es) = Some v.
Proof.
  induction es as [|[k w] r IH]; simpl.
  - rewrite String.eqb_refl. reflexivity.
  - destruct (String.eqb k e) eqn:E; simpl; rewrite E; [reflexivity | exact IH].
Qed.

Lemma getEntry_setEntry_other (a e : string) (v : Node) (es : list (string * Node)) :
  a <> e -> getEntry a (setEntry e v es) = getEntry a es.
Proof.
  intros Hne. induction es as [|[k w] r IH]; simpl.
  - destruct (String.eqb e a) eqn:E; [|reflexivity].
    apply String.eqb_eq in E. congruence.
  - destruct (String.eqb k e) eqn:E; simpl.
    + apply String.eqb_eq in E. subst k.
      destruct (String.eqb e a) eqn:E2; [|reflexivity].
      apply String.eqb_eq in E2. congruence.
    + rewrite IH. reflexivity.
Qed.

Lemma getEntry_delEntry_other (a e : string) (es : list (string * Node)) :
  a <> e -> getEntry a (delEntry e es) = getEntry a es.
Proof.
  intros Hne. induction es as [|[k w] r IH]; simpl; [reflexivity|].
  destruct (String.eqb k e) eqn:E; simpl.
  - apply String.eqb_eq in E. subst k.
    destruct (String.eqb e a) eqn:E2; [|reflexivity].
    apply String.eqb_eq in E2. congruence.
  - rewrite IH. reflexivity.
Qed.

Lemma boundOnce_absent (e : string) (es : list (string * Node)) :
  getEntry e es = None -> boundOnce e es.
Proof.
  unfold boundOnce. induction es as [|[k w] r IH]; simpl; [reflexivity|].
  destruct (String.eqb k e) eqn:E; [discriminate|].
  simpl. rewrite E. exact IH.
Qed.

Lemma boundOnce_setEntry_same (e : string) (v : Node) (es : list (string * Node)) :
  boundOnce e es -> boundOnce e (setEntry e v es).
Proof.
  unfold boundOnce. induction es as [|[k w] r IH]; simpl.
  - rewrite String.eqb_refl. reflexivity.
  - destruct (String.eqb k e) eqn:E; simpl; rewrite E; [auto|].
    simpl. rewrite E. exact IH.
Qed.

Lemma boundOnce_setEntry_other (a e : string) (v : Node) (es : list (string * Node)) :
  a <> e -> boundOnce a es -> boundOnce a (setEntry e v es).
Proof.
  unfold boundOnce. intros Hne. induction es as [|[k w] r IH]; simpl.
  - intros _. destruct (String.eqb e a) eqn:E.
    + apply String.eqb_eq in E. congruence.
    + simpl. rewrite E. reflexivity.
  - destruct (String.eqb k a) eqn:Ea.
    + apply String.eqb_eq in Ea. subst k.
      assert (Hae : String.eqb a e = false) by (apply String.eqb_neq; exact Hne).
      rewrite Hae. simpl. rewrite String.eqb_refl.
      intros H. rewrite getEntry_setEntry_other; assumption.
    + destruct (String.eqb k e) eqn:Ee; simpl; rewrite Ea; simpl; rewrite ?Ea; auto.
Qed.

Lemma setEntry_setEntry (e : string) (v w : Node) (es : list (string * Node)) :
  setEntry e v (setEntry e w es) = setEntry e v es.
Proof.
  induction es as [|[k x] r IH]; simpl.
  - rewrite String.eqb_refl. reflexivity.
  - destruct (String.eqb k e) eqn:E; simpl; rewrite E; [reflexivity|].
    rewrite IH. reflexivity.
Qed.

Lemma lookup_app (k q : list string) (fs : Node) :
  lookup (k ++ q) fs =
  match lookup k fs with Some n => lookup q n | None => None end.
Proof.
  revert fs. induction k as [|e k IH]; intros fs; [reflexivity|].
  simpl. destruct fs as [|m t es]; [reflexivity|].
  destruct (getEntry e es); [apply IH | reflexivity].
Qed.

(** Storing below an existing directory succeeds and changes the entry
    list of that directory only. *)
Lemma store_at_parent (k : list string) (b : string) (v : option Node) :
  forall (fs : Node) (m : Z) (t : Time) (es : list (string * Node)),
  lookup k fs = Some (Dir m t es) ->
  exists fs',
    store (k ++ [b]) v fs = Some fs' /\
    lookup k fs' = Some (Dir m t (match v with
                                  | Some n => setEntry b n es
                                  | None => delEntry b es
                                  end)).
Proof.
  induction k as [|e k IH]; intros fs m t es Hl.
  - simpl in Hl. injection Hl as ->. eexists. split; reflexivity.
  - simpl in Hl. destruct fs as [|m0 t0 es0]; [discriminate|].
    destruct (getEntry e es0) as [child|] eqn:Ee; [|discriminate].
    destruct (IH child m t es Hl) as (child' & Hs & Hl').
    exists (Dir m0 t0 (setEntry e child' es0)). split.
    + change ((e :: k) ++ [b]) with (e :: (k ++ [b])).
      cbn [store]. destruct (k ++ [b]) as [|x r] eqn:Ek.
      * destruct k; discriminate.
      * rewrite Ee, Hs. reflexivity.
    + cbn [lookup]. rewrite getEntry_setEntry_same. exact Hl'.
Qed.

Lemma lookup_child (k : list string) (a : string) (fs : Node)
  (m : Z) (t : Time) (es : list (string * Node)) :
  lookup k fs = Some (Dir m t es) ->
  lookup (k ++ [a]) fs = getEntry a es.
Proof.
  intros H. rewrite lookup_app, H. simpl. destruct (getEntry a es); reflexivity.
Qed.

Section Materialise.
Variable goos : GOOS.

Lemma pathKey_empty : pathKey goos EmptyString = [].
Proof. destruct goos; reflexivity. Qed.

Lemma node_at (fs : Node) (path : string) (k : list string) (a : string)
  (m : Z) (t : Time) (es : list (string * Node)) :
  pathKey goos path = (k ++ [a])%list ->
  lookup k fs = Some (Dir m t es) ->
  node goos fs path = getEntry a es.
Proof.
  intros Hk Hl. unfold node.
  destruct (String.eqb path EmptyString) eqn:E.
  - apply String.eqb_eq in E. subst path. rewrite pathKey_empty in Hk.
    destruct k; discriminate.
  - rewrite Hk. apply (lookup_child _ _ _ _ _ _ Hl).
Qed.

(** Writing from offset 0 into an empty file below an existing
    directory. *)
Lemma fileWrite_at (fs : Node) (name : string) (bs : list byte)
  (k : list string) (b : string) (m : Z) (t : Time)
  (es : list (string * Node)) (mode : Z) (mt : Time) (sz : Z) :
  pathKey goos name = (k ++ [b])%list ->
  lookup k fs = Some (Dir m t es) ->
  getEntry b es = Some (File mode mt sz []) ->
  exists fs',
    fileWrite goos (fs, mkWriteFile name 0) bs =
      (fs', mkWriteFile name (List.length bs), Z.of_nat (List.length bs), None) /\
    lookup k fs' =
      Some (Dir m t (setEntry b (File mode mt (Z.of_nat (List.length bs)) bs) es)).
Proof.
  intros Hk Hl Hb. unfold fileWrite. cbn [f_name f_off].
  rewrite (node_at fs name k b m t es Hk Hl), Hb, Hk.
  cbn [firstn skipn]. rewrite skipn_nil, app_nil_r. cbn [app].
  destruct (store_at_parent k b
              (Some (File mode mt (Z.of_nat (List.length bs)) bs)) fs m t es Hl)
    as (fs' & Hs & Hl').
  rewrite Hs. exists fs'. split; [reflexivity | exact Hl'].
Qed.

(** The rename of a file onto a sibling that is not a directory. *)
Lemma RenameFile_at (oldpath newpath : string) (s : RState)
  (k : list string) (a b : string) (m : Z) (t : Time)
  (es : list (string * Node)) (mode : Z) (mt : Time) (sz : Z) (data : list byte) :
  pathKey goos newpath = (k ++ [a])%list ->
  pathKey goos oldpath = (k ++ [b])%list ->
  lookup k (r_fs s) = Some (Dir m t es) ->
  getEntry b es = Some (File mode mt sz data) ->
  (forall m' t' es', getEntry a es <> Some (Dir m' t' es')) ->
  exists fs',
    RenameFile goos oldpath newpath s = (mkRState fs' (r_tr s) (r_log s), inl tt) /\
    lookup k fs' =
      Some (Dir m t (delEntry b (setEntry a (File mode mt sz data) es))).
Proof.
  intros Ha Hb Hl Hgb Hnd. unfold RenameFile, liftFs.
  rewrite (node_at _ oldpath k b m t es Hb Hl), Hgb.
  rewrite (node_at _ newpath k a m t es Ha Hl), Ha, Hb.
  destruct (store_at_parent k a (Some (File mode mt sz data)) _ m t es Hl)
    as (fs1 & Hs1 & Hl1).
  destruct (store_at_parent k b None fs1 m t _ Hl1) as (fs2 & Hs2 & Hl2).
  exists fs2. split; [|exact Hl2].
  destruct (getEntry a es) as [[| m' t' es']|] eqn:Ega.
  - rewrite Hs1, Hs2. reflexivity.
  - exfalso. exact (Hnd m' t' es' eq_refl).
  - rewrite Hs1, Hs2. reflexivity.
Qed.

Lemma CreateFileFromTar_at (destPath : string) (hdr : Header) (s : RState)
  (k : list string) (a b : string) (m : Z) (t : Time)
  (es : list (string * Node)) :
  pathKey goos destPath = (k ++ [a])%list ->
  pathKey goos (destPath ++ ".tmp") = (k ++ [b])%list ->
  a <> b ->
  lookup k (r_fs s) = Some (Dir m t es) ->
  getEntry b es = None ->
  (forall m' t' es', getEntry a es <> Some (Dir m' t' es')) ->
  r_err (r_tr s) = None ->
  r_nb (r_tr s) = Size hdr ->
  Z.of_nat (List.length (r_avail (r_tr s))) = Size hdr ->
  exists s' es',
    CreateFileFromTar goos destPath hdr s = (s', inl tt) /\
    lookup k (r_fs s') = Some (Dir m t es') /\
    getEntry a es' = Some (File (Perm (FileMode (Mode hdr))) 0 (Size hdr)
                                (r_avail (r_tr s))) /\
    getEntry b es' = None /\
    (forall c, c <> a -> c <> b -> getEntry c es' = getEntry c es) /\
    r_log s' = FileSynced (destPath ++ ".tmp") :: r_log s /\
    r_tr s' = mkReader (r_pending (r_tr s)) (r_tail (r_tr s)) 0 [] None.
Proof.
  intros Ha Hb Hab Hl Hfresh Hnd He Hnb Hlen.
  destruct s as [fs rd log]. cbn [r_fs r_tr r_log] in *.
  set (perm := Perm (FileMode (Mode hdr))).
  set (tmp := (destPath ++ ".tmp")%string) in *.
  unfold CreateFileFromTar. fold tmp. fold perm.
  (* the temporary file is made *)
  destruct (store_at_parent k b (Some (File perm 0 0 [])) fs m t es Hl)
    as (fs1 & Hs1 & Hl1).
  unfold bind at 1. unfold OpenFile. cbn [r_fs r_tr r_log].
  rewrite (node_at fs tmp k b m t es Hb Hl), Hfresh.
  assert (Htmp : String.eqb tmp EmptyString = false).
  { apply String.eqb_neq. unfold tmp. destruct destPath; discriminate. }
  rewrite Htmp, Hb, Hs1.
  change (hasBit (Z.lor O_CREATE O_RDWR) O_CREATE && negb false) with true.
  cbv iota.
  (* the payload is copied *)
  assert (Hcopy : exists fs2 f2,
    copyFromTar goos (mkWriteFile tmp 0) (Size hdr) (mkRState fs1 rd log) =
      (mkRState fs2 (mkReader (r_pending rd) (r_tail rd) 0 [] None) log, inl f2) /\
    f_name f2 = tmp /\
    lookup k fs2 =
      Some (Dir m t (setEntry b (File perm 0 (Size hdr) (r_avail rd)) es))).
  { unfold copyFromTar, CopyN. cbn [r_fs r_tr r_log].
    unfold readUpTo, Reader_ioReader. rewrite He, Hnb.
    rewrite Z.min_id. rewrite <- Hlen, Nat2Z.id, Nat.ltb_irrefl.
    rewrite firstn_all, skipn_all, Z.sub_diag.
    destruct (r_avail rd) as [|c0 rest] eqn:Ed.
    - exists fs1, (mkWriteFile tmp 0). simpl. auto.
    - destruct (fileWrite_at fs1 tmp (c0 :: rest) k b m t _ perm 0 0 Hb Hl1
                  (getEntry_setEntry_same _ _ _)) as (fs2 & Hw & Hl2).
      unfold writeBytes, WriteFile_ioWriter. rewrite Hw, Z.eqb_refl.
      exists fs2, (mkWriteFile tmp (List.length (c0 :: rest))).
      split; [reflexivity|]. split; [reflexivity|].
      rewrite Hl2. do 2 f_equal. apply setEntry_setEntry. }
  destruct Hcopy as (fs2 & f2 & Hc & Hf2 & Hl2).
  unfold bind at 1. rewrite Hc.
  unfold bind at 1. unfold fSync at 1. cbn [r_fs r_tr r_log].
  unfold bind at 1. unfold fClose at 1, ret at 1. rewrite Hf2.
  destruct (RenameFile_at tmp destPath
              (mkRState fs2 (mkReader (r_pending rd) (r_tail rd) 0 [] None)
                        (FileSynced tmp :: log))
              k a b m t _ perm 0 (Size hdr) (r_avail rd) Ha Hb Hl2
              (getEntry_setEntry_same _ _ _))
    as (fs4 & Hr & Hl4).
  { intros m' t' es'. rewrite getEntry_setEntry_other by exact Hab. apply Hnd. }
  rewrite Hr. cbn [r_fs r_tr r_log].
  eexists. eexists. split; [reflexivity|]. cbn [r_fs r_tr r_log].
  split; [exact Hl4|].
  split.
  { rewrite getEntry_delEntry_other by exact Hab.
    apply getEntry_setEntry_same. }
  split.
  { apply boundOnce_setEntry_other; [congruence|].
    apply boundOnce_setEntry_same, boundOnce_absent, Hfresh. }
  split; [|split; reflexivity].
  intros c Hca Hcb.
  rewrite getEntry_delEntry_other, !getEntry_setEntry_other by assumption.
  reflexivity.
Qed.

End Materialise.

(** ** The file-tree position of a joined path *)

Section PathKeys.
Variable goos : GOOS.

(** The string [Clean] returns, from the stack of its scan. *)
Lemma Clean_form (path : string) :
  path <> EmptyString ->
  filepath.Clean goos path =
    if filepath.rooted goos path
    then String (filepath.Separator goos)
                (joinWith (filepath.sepString goos) (rev (cleanStack goos path)))
    else match cleanStack goos path with
         | [] => "."%string
         | _ :: _ => joinWith (filepath.sepString goos) (rev (cleanStack goos path))
         end.
Proof.
  intros Hne. unfold filepath.Clean.
  apply String.eqb_neq in Hne. rewrite Hne.
  fold (cleanStack goos path).
  pose proof (cleanStack_shape goos path) as Hsh.
  pose proof (stackShape_sepFree goos _ _ Hsh) as Hall.
  assert (Hrev : Forall (fun e => sepFree goos e /\ e <> EmptyString)
                        (rev (cleanStack goos path)))
    by (apply Forall_rev; exact Hall).
  assert (Hfree : Forall (sepFree goos) (rev (cleanStack goos path))).
  { revert Hrev. apply Forall_impl. intros e [H _]. exact H. }
  set (st := cleanStack goos path) in *.
  set (body := joinWith (filepath.sepString goos) (rev st)).
  assert (Hbody : forall c, InString c body ->
                  filepath.IsPathSeparator goos c = true ->
                  c = filepath.Separator goos).
  { intros c. apply join_separators. exact Hfree. }
  destruct (filepath.rooted goos path) eqn:Hr.
  - change (filepath.sepString goos ++ body)%string
      with (String (filepath.Separator goos) body).
    cbn [String.eqb]. apply FromSlash_same.
    intros c [Hc|Hc]; [auto | apply Hbody; exact Hc].
  - destruct st as [|x l] eqn:Est.
    + clear. destruct goos; reflexivity.
    + destruct (join_not_rooted goos (rev (x :: l))) as [_ Hn].
      * intros E. apply (f_equal (@rev string)) in E.
        rewrite rev_involutive in E. discriminate.
      * exact Hrev.
      * fold body in Hn. apply String.eqb_neq in Hn. rewrite Hn.
        apply FromSlash_same. exact Hbody.
Qed.

(** The elements a path names are the real elements of its cleaned
    stack. *)
Lemma pathKey_cleanStack (path : string) :
  pathKey goos path =
  rev (filter (fun e => negb (String.eqb e EmptyString || String.eqb e "."
                              || String.eqb e ".."))
              (cleanStack goos path)).
Proof.
  unfold pathKey.
  destruct (String.eqb path EmptyString) eqn:E.
  { apply String.eqb_eq in E. subst path. destruct goos; reflexivity. }
  apply String.eqb_neq in E. rewrite (Clean_form path E).
  pose proof (cleanStack_shape goos path) as Hsh.
  pose proof (stackShape_sepFree goos _ _ Hsh) as Hall.
  assert (Hfree : Forall (sepFree goos) (rev (cleanStack goos path))).
  { apply Forall_rev. revert Hall. apply Forall_impl. intros e [H _]. exact H. }
  set (st := cleanStack goos path) in *.
  assert (Hsplit : st <> [] ->
            splitOn (filepath.IsPathSeparator goos)
                    (joinWith (filepath.sepString goos) (rev st)) = rev st).
  { intros Hst. apply splitOn_join; [exact Hfree|].
    intros E2. apply (f_equal (@rev string)) in E2.
    rewrite rev_involutive in E2. exact (Hst E2). }
  destruct (filepath.rooted goos path).
  - cbn [splitOn]. rewrite IsPathSeparator_Separator. cbn [filter String.eqb orb negb].
    destruct st as [|x l] eqn:Est; [reflexivity|].
    rewrite Hsplit by discriminate. apply filter_rev.
  - destruct st as [|x l] eqn:Est.
    + clear. destruct goos; reflexivity.
    + rewrite Hsplit by discriminate. apply filter_rev.
Qed.

Lemma append_assoc (a b c : string) :
  ((a ++ b) ++ c)%string = (a ++ (b ++ c))%string.
Proof. induction a as [|x a IH]; simpl; [reflexivity | rewrite IH; reflexivity]. Qed.

Lemma joinWith_snoc (sep : string) (l : list string) (x y : string) :
  (joinWith sep (l ++ [x]) ++ y)%string = joinWith sep (l ++ [(x ++ y)%string]).
Proof.
  unfold joinWith. induction l as [|a l IH]; [reflexivity|].
  change ((a :: l) ++ [x]) with (a :: (l ++ [x])).
  change ((a :: l) ++ [(x ++ y)%string]) with (a :: (l ++ [(x ++ y)%string])).
  cbn [String.concat].
  destruct (l ++ [x]) as [|u r] eqn:E1; [destruct l; discriminate|].
  destruct (l ++ [(x ++ y)%string]) as [|u' r'] eqn:E2; [destruct l; discriminate|].
  rewrite !append_assoc, IH. reflexivity.
Qed.

Lemma stackShape_tail (r : bool) (x : string) (st : list string) :
  stackShape goos r (x :: st) -> stackShape goos r st.
Proof.
  intros (ps & k & Hst & Hps & Hk). destruct ps as [|p ps'].
  - destruct k as [|k']; [discriminate|]. simpl in Hst. injection Hst as _ ->.
    exists [], k'. repeat split; auto. intros Hr. specialize (Hk Hr). discriminate.
  - simpl in Hst. injection Hst as _ ->. inversion Hps; subst.
    exists ps', k. auto.
Qed.

Lemma properName_sepFree (e : string) : properName goos e -> sepFree goos e.
Proof. intros (_ & _ & _ & H). exact H. Qed.

(** A suffix put on a cleaned path extends its last element. *)
Lemma cleanStack_Clean_suffix (path x suffix : string) (st : list string) :
  path <> EmptyString ->
  cleanStack goos path = x :: st ->
  properName goos (x ++ suffix) ->
  cleanStack goos (filepath.Clean goos path ++ suffix) = (x ++ suffix)%string :: st.
Proof.
  intros Hne Hst Hxs.
  pose proof (cleanStack_shape goos path) as Hsh. rewrite Hst in Hsh.
  pose proof (stackShape_tail _ _ _ Hsh) as Hsh'.
  pose proof (stackShape_sepFree goos _ _ Hsh') as Hall.
  assert (Hfree : Forall (sepFree goos) (rev st ++ [(x ++ suffix)%string])).
  { apply Forall_app. split.
    - apply Forall_rev. revert Hall. apply Forall_impl. intros e [H _]. exact H.
    - constructor; [|constructor]. apply properName_sepFree. exact Hxs. }
  assert (Hall' : Forall (fun e => sepFree goos e /\ e <> EmptyString)
                         (rev st ++ [(x ++ suffix)%string])).
  { apply Forall_app. split.
    - apply Forall_rev. exact Hall.
    - constructor; [|constructor]. destruct Hxs as (H1 & _ & _ & H4). auto. }
  assert (Hnil : rev st ++ [(x ++ suffix)%string] <> []) by (destruct (rev st); discriminate).
  destruct Hxs as (H1 & H2 & H3 & H4).
  rewrite (Clean_form path Hne), Hst. cbn [rev].
  destruct (filepath.rooted goos path) eqn:Hr.
  - cbn [String.append]. rewrite joinWith_snoc.
    unfold cleanStack. cbn [filepath.rooted splitOn].
    rewrite IsPathSeparator_Separator. cbn [fold_left].
    change (filepath.cleanStep true [] EmptyString) with (@nil string).
    rewrite splitOn_join by assumption.
    rewrite fold_left_app, (fold_replay goos _ _ Hsh'). cbn [fold_left].
    apply cleanStep_proper; assumption.
  - rewrite joinWith_snoc.
    destruct (join_not_rooted goos _ Hnil Hall') as [Hnr _].
    unfold cleanStack. rewrite Hnr.
    rewrite splitOn_join by assumption.
    rewrite fold_left_app, (fold_replay goos _ _ Hsh'). cbn [fold_left].
    apply cleanStep_proper; assumption.
Qed.

Lemma length_append (a b : string) :
  String.length (a ++ b) = (String.length a + String.length b)%nat.
Proof. induction a as [|c a IH]; simpl; [reflexivity | rewrite IH; reflexivity]. Qed.

Lemma properName_suffix (name suffix : string) :
  properName goos name -> sepFree goos suffix ->
  (2 <= String.length suffix)%nat ->
  properName goos (name ++ suffix).
Proof.
  intros (H1 & H2 & H3 & H4) Hs Hlen.
  assert (Hl : (3 <= String.length (name ++ suffix))%nat).
  { rewrite length_append. destruct name; [congruence|]. simpl. lia. }
  repeat split.
  - intros E. rewrite E in Hl. simpl in Hl. lia.
  - intros E. rewrite E in Hl. simpl in Hl. lia.
  - intros E. rewrite E in Hl. simpl in Hl. lia.
  - intros c Hc. apply InString_app in Hc. destruct Hc; auto.
Qed.

Lemma properName_keep (e : string) :
  properName goos e ->
  negb (String.eqb e EmptyString || String.eqb e "." || String.eqb e "..") = true.
Proof.
  intros (H1 & H2 & H3 & _). apply String.eqb_neq in H1, H2, H3.
  rewrite H1, H2, H3. reflexivity.
Qed.

(** A proper name joined to a directory is one element below it. *)
Lemma pathKey_Join (dir name : string) :
  properName goos name ->
  pathKey goos (filepath.Join goos [dir; name]) = (pathKey goos dir ++ [name])%list.
Proof.
  intros Hn. rewrite !pathKey_cleanStack, cleanStack_Join by exact Hn.
  cbn [filter]. rewrite (properName_keep name Hn). reflexivity.
Qed.

Lemma Join_Clean (dir name : string) :
  name <> EmptyString ->
  exists path, path <> EmptyString /\
    filepath.Join goos [dir; name] = filepath.Clean goos path.
Proof.
  intros Hn. unfold filepath.Join. cbn [filepath.dropEmpty].
  destruct (String.eqb dir EmptyString) eqn:Ed.
  - apply String.eqb_neq in Hn. rewrite Hn. exists name. split.
    + apply String.eqb_neq. exact Hn.
    + reflexivity.
  - eexists. split; [|reflexivity].
    apply String.eqb_neq in Ed. destruct dir; [congruence | discriminate].
Qed.

(** ... and so is the name with a suffix put on the joined path. *)
Lemma pathKey_Join_suffix (dir name suffix : string) :
  properName goos name -> sepFree goos suffix ->
  (2 <= String.length suffix)%nat ->
  pathKey goos (filepath.Join goos [dir; name] ++ suffix) =
  (pathKey goos dir ++ [(name ++ suffix)%string])%list.
Proof.
  intros Hn Hs Hlen.
  pose proof (properName_suffix name suffix Hn Hs Hlen) as Hns.
  pose proof (cleanStack_Join goos dir name Hn) as Hst.
  destruct (Join_Clean dir name (proj1 Hn)) as (path & Hne & Hj).
  rewrite Hj in Hst |- *.
  destruct (cleanStack_Clean goos path) as [Hc _]. rewrite Hc in Hst.
  rewrite !pathKey_cleanStack.
  rewrite (cleanStack_Clean_suffix path name suffix _ Hne Hst Hns).
  cbn [filter]. rewrite (properName_keep _ Hns). reflexivity.
Qed.

End PathKeys.

(** ** One round of the restore loop *)

Section Round.
Variable goos : GOOS.

Lemma Split_sepFree (e : string) :
  sepFree goos e -> filepath.Split goos e = (EmptyString, e).
Proof.
  induction e as [|c r IH]; intros Hf; [reflexivity|].
  cbn [filepath.Split]. rewrite IH by (intros d Hd; apply Hf; right; exact Hd).
  cbn [String.eqb]. rewrite (Hf c (or_introl eq_refl)). reflexivity.
Qed.

Lemma rooted_proper (name : string) :
  properName goos name -> filepath.rooted goos name = false.
Proof.
  intros (H1 & _ & _ & H4). destruct name as [|c r]; [congruence|].
  apply H4. left. reflexivity.
Qed.

Lemma Clean_proper (name : string) :
  properName goos name -> filepath.Clean goos name = name.
Proof.
  intros Hn. rewrite (Clean_form goos name (proj1 Hn)).
  rewrite (rooted_proper name Hn), (cleanStack_proper goos name Hn).
  reflexivity.
Qed.

Lemma Join_proper (name : string) :
  properName goos name -> filepath.Join goos [name] = name.
Proof.
  intros Hn. unfold filepath.Join. cbn [filepath.dropEmpty].
  destruct Hn as (H1 & Hrest). pose proof H1 as H1'.
  apply String.eqb_neq in H1'. rewrite H1'.
  apply Clean_proper. split; assumption.
Qed.

Lemma tmp_differs (name : string) : name <> (name ++ ".tmp")%string.
Proof.
  intros E. apply (f_equal String.length) in E.
  rewrite length_append in E. simpl in E. lia.
Qed.

Lemma sepFree_tmp : sepFree goos ".tmp".
Proof.
  intros c [H|[H|[H|[H|[]]]]]; subst; destruct goos; reflexivity.
Qed.

(** The next entry is a regular file with its whole payload, named by
    three sections and a proper name; the directory [dir] exists, holds
    no temporary file of that name and no directory of that name. *)
Lemma extractFile_round (dir : string) (s : RState) (hdr : Header)
  (data : list byte) (rest : list Entry) (a b c name : string)
  (m : Z) (t : Time) (es : list (string * Node)) :
  r_err (r_tr s) = None ->
  r_nb (r_tr s) <= Z.of_nat (List.length (r_avail (r_tr s))) ->
  r_pending (r_tr s) = mkEntry hdr data :: rest ->
  Typeflag hdr = TypeReg ->
  Z.of_nat (List.length data) = Size hdr ->
  sectionsOf goos (Name hdr) = [a; b; c; name] ->
  properName goos name ->
  lookup (pathKey goos dir) (r_fs s) = Some (Dir m t es) ->
  getEntry (name ++ ".tmp") es = None ->
  (forall m' t' es', getEntry name es <> Some (Dir m' t' es')) ->
  exists s' es',
    extractFile goos dir s = (s', inl tt) /\
    lookup (pathKey goos dir) (r_fs s') = Some (Dir m t es') /\
    getEntry name es' =
      Some (File (Perm (FileMode (Mode hdr))) 0 (Size hdr) data) /\
    getEntry (name ++ ".tmp") es' = None /\
    (forall x, x <> name -> x <> (name ++ ".tmp")%string ->
               getEntry x es' = getEntry x es) /\
    r_log s' = FileSynced (filepath.Join goos [dir; name] ++ ".tmp") :: r_log s /\
    r_tr s' = mkReader rest (r_tail (r_tr s)) 0 [] None.
Proof.
  intros He Hnb Hp Hreg Hlen Hsec Hn Hl Hfresh Hnd.
  destruct s as [fs rd log]. cbn [r_fs r_tr r_log] in *.
  unfold extractFile. unfold bind at 1. unfold trNext, tr.Next.
  cbn [r_fs r_tr r_log]. rewrite He.
  destruct (Z.of_nat (List.length (r_avail rd)) <? r_nb rd) eqn:E;
    [apply Z.ltb_lt in E; lia|].
  rewrite Hp. cbn [e_hdr e_data]. rewrite Hreg. cbn [isHeaderOnlyType].
  destruct (Size hdr <? 0) eqn:E2; [apply Z.ltb_lt in E2; lia|].
  fold (sectionsOf goos (Name hdr)). rewrite Hsec.
  cbn [List.length Nat.ltb Nat.leb skipn].
  rewrite (Join_proper name Hn), (Split_sepFree name (properName_sepFree goos name Hn)).
  rewrite Hreg. cbn [TypeFlag_eqb String.eqb negb].
  unfold bind at 1, ret at 1.
  destruct (CreateFileFromTar_at goos (filepath.Join goos [dir; name]) hdr
              (mkRState fs (mkReader rest (r_tail rd) (Size hdr) data None) log)
              (pathKey goos dir) name (name ++ ".tmp") m t es)
    as (s' & es' & Hc & Hl' & Ha & Hb & Hx & Hlog & Htr); cbn [r_fs r_tr r_log r_err r_nb r_avail];
    auto.
  - apply pathKey_Join. exact Hn.
  - apply pathKey_Join_suffix; [exact Hn | apply sepFree_tmp | simpl; lia].
  - apply tmp_differs.
  - exists s', es'. cbn [r_fs r_tr r_log r_avail r_pending r_tail] in *. auto 10.
Qed.

End Round.

(** ** What a failing extraction leaves in place *)

Lemma store_sibling (k : list string) (a b : string) (v : option Node) :
  a <> b ->
  forall fs fs', store (k ++ [b]) v fs = Some fs' ->
  lookup (k ++ [a]) fs' = lookup (k ++ [a]) fs.
Proof.
  intros Hab. induction k as [|e k IH]; intros fs fs' Hs.
  - simpl in Hs. destruct fs as [|m t es]; [discriminate|].
    injection Hs as <-. simpl.
    destruct v as [n|].
    + rewrite getEntry_setEntry_other by exact Hab. reflexivity.
    + rewrite getEntry_delEntry_other by exact Hab. reflexivity.
  - change ((e :: k) ++ [b]) with (e :: (k ++ [b])) in Hs.
    change ((e :: k) ++ [a]) with (e :: (k ++ [a])).
    cbn [store] in Hs. destruct fs as [|m t es]; [discriminate|].
    destruct (k ++ [b]) as [|x r] eqn:Ek; [destruct k; discriminate|].
    destruct (getEntry e es) as [child|] eqn:Ee; [|discriminate].
    destruct (store (x :: r) v child) as [child'|] eqn:Es; [|discriminate].
    injection Hs as <-. cbn [lookup].
    rewrite getEntry_setEntry_same, Ee. apply IH. exact Es.
Qed.

Section Atomic.
Variable goos : GOOS.
Variables (k : list string) (a b : string).
Hypothesis Hab : a <> b.

Lemma keepsNode_bind {A B : Type} (q : list string) (m : M A) (f : A -> M B) :
  keepsNode q m -> (forall x, keepsNode q (f x)) -> keepsNode q (bind m f).
Proof.
  intros Hm Hf s. unfold bind. specialize (Hm s).
  destruct (m s) as [s' [x|e]]; simpl in *.
  - rewrite (Hf x s'). exact Hm.
  - exact Hm.
Qed.

Lemma keepsNode_OpenFile (name : string) (flag perm : Z) :
  pathKey goos name = k ++ [b] ->
  keepsNode (k ++ [a]) (OpenFile goos name flag perm).
Proof.
  intros Hk s. unfold OpenFile. rewrite Hk.
  destruct (node goos (r_fs s) name) as [[mode mt size data|mode mt es]|].
  - destruct (hasBit flag O_TRUNC); [|reflexivity].
    destruct (store _ _ _) eqn:Es; [|reflexivity].
    simpl. apply (store_sibling k a b _ Hab _ _ Es).
  - reflexivity.
  - destruct (hasBit flag O_CREATE && negb (String.eqb name EmptyString));
      [|reflexivity].
    destruct (store _ _ _) eqn:Es; [|reflexivity].
    simpl. apply (store_sibling k a b _ Hab _ _ Es).
Qed.

Lemma fileWrite_sibling (fs : Node) (f : WriteFile) (bs : list byte) :
  pathKey goos (f_name f) = k ++ [b] ->
  lookup (k ++ [a]) (fst (fst (fst (fileWrite goos (fs, f) bs)))) =
  lookup (k ++ [a]) fs.
Proof.
  intros Hk. unfold fileWrite. rewrite Hk.
  destruct (node goos fs (f_name f)) as [[mode mt size data|mode mt es]|];
    try reflexivity.
  destruct (store _ _ _) eqn:Es; [|reflexivity].
  simpl. apply (store_sibling k a b _ Hab _ _ Es).
Qed.

Lemma keepsNode_copyFromTar (f : WriteFile) (n : Z) :
  pathKey goos (f_name f) = k ++ [b] ->
  keepsNode (k ++ [a]) (copyFromTar goos f n).
Proof.
  intros Hk s. unfold copyFromTar, CopyN.
  destruct (readUpTo (r_tr s) n) as [[src' bs] rerr].
  pose proof (fileWrite_sibling (r_fs s) f bs Hk) as Hw.
  destruct bs as [|b0 bs'].
  - destruct (0 =? n); [reflexivity|].
    destruct ((0 <? n) && isNil _); reflexivity.
  - change (writeBytes (r_fs s, f) (b0 :: bs'))
      with (fileWrite goos (r_fs s, f) (b0 :: bs')).
    destruct (fileWrite goos (r_fs s, f) (b0 :: bs')) as [[[fs1 f1] written] werr].
    simpl in Hw.
    destruct (written =? n); [exact Hw|].
    destruct ((written <? n) && isNil _); exact Hw.
Qed.

Lemma RenameFile_error (oldpath newpath : string) (s s' : RState) (e : Error) :
  RenameFile goos oldpath newpath s = (s', inr e) -> r_fs s' = r_fs s.
Proof.
  unfold RenameFile, liftFs.
  destruct (node goos (r_fs s) oldpath) as [[mode mt size data|mode mt es]|];
    try (intros H; inversion H; reflexivity).
  destruct (node goos (r_fs s) newpath) as [[mode' mt' size' data'|mode' mt' es']|];
    try (intros H; inversion H; reflexivity);
    (destruct (store _ _ (r_fs s)) as [fs1|];
      [|intros H; inversion H; reflexivity];
     destruct (store _ None fs1) as [fs2|];
      [discriminate | intros H; inversion H; reflexivity]).
Qed.

Lemma CreateFileFromTar_error_at (destPath : string) (hdr : Header)
  (s s' : RState) (e : Error) :
  pathKey goos (destPath ++ ".tmp") = k ++ [b] ->
  CreateFileFromTar goos destPath hdr s = (s', inr e) ->
  lookup (k ++ [a]) (r_fs s') = lookup (k ++ [a]) (r_fs s).
Proof.
  intros Hk. unfold CreateFileFromTar, bind at 1.
  pose proof (keepsNode_OpenFile (destPath ++ ".tmp") (Z.lor O_CREATE O_RDWR)
                (Perm (FileMode (Mode hdr))) Hk s) as H0.
  destruct (OpenFile goos (destPath ++ ".tmp") _ _ s) as [s0 [f|e0]] eqn:Ho;
    simpl in H0; [|intros H; inversion H; subst; exact H0].
  pose proof (OpenFile_name _ _ _ _ _ _ _ Ho) as Hname.
  unfold bind at 1.
  assert (Hkf : pathKey goos (f_name f) = k ++ [b]) by (rewrite Hname; exact Hk).
  pose proof (keepsNode_copyFromTar f (Size hdr) Hkf s0) as H1.
  destruct (copyFromTar goos f (Size hdr) s0) as [s1 [f'|e1]] eqn:Hc;
    simpl in H1; [|intros H; inversion H; subst; congruence].
  change ((fSync f';; fClose f';;
           RenameFile goos (destPath ++ ".tmp") destPath)%go s1)
    with (RenameFile goos (destPath ++ ".tmp") destPath
            (mkRState (r_fs s1) (r_tr s1) (FileSynced (f_name f') :: r_log s1))).
  intros Hr. apply RenameFile_error in Hr. simpl in Hr. congruence.
Qed.

End Atomic.

(** ** The restore of an archive of files *)

Section Whole.
Variable goos : GOOS.
Variable dir : string.

Lemma extractFile_at_end (s : RState) :
  r_err (r_tr s) = None ->
  r_nb (r_tr s) <= Z.of_nat (List.length (r_avail (r_tr s))) ->
  r_pending (r_tr s) = [] ->
  r_tail (r_tr s) = None ->
  exists s', extractFile goos dir s = (s', inr EOF) /\
             r_fs s' = r_fs s /\ r_log s' = r_log s.
Proof.
  intros He Hnb Hp Ht. destruct s as [fs rd log]. cbn [r_fs r_tr r_log] in *.
  unfold extractFile, bind, trNext, tr.Next. cbn [r_fs r_tr r_log].
  rewrite He.
  destruct (Z.of_nat (List.length (r_avail rd)) <? r_nb rd) eqn:E;
    [apply Z.ltb_lt in E; lia|].
  rewrite Hp, Ht. eexists. split; [reflexivity|]. split; reflexivity.
Qed.

Lemma restoreLoop_flat (m : Z) (t : Time) (entries : list Entry)
  (names : list string) :
  Forall2 (flatEntry goos) entries names ->
  NoDup names ->
  (forall x y, In x names -> In y names -> y <> (x ++ ".tmp")%string) ->
  forall (fuel : nat) (s : RState) (es : list (string * Node)),
  (List.length entries < fuel)%nat ->
  r_err (r_tr s) = None ->
  r_nb (r_tr s) <= Z.of_nat (List.length (r_avail (r_tr s))) ->
  r_pending (r_tr s) = entries ->
  r_tail (r_tr s) = None ->
  lookup (pathKey goos dir) (r_fs s) = Some (Dir m t es) ->
  (forall n, In n names -> getEntry (n ++ ".tmp") es = None) ->
  (forall n, In n names -> forall m' t' es', getEntry n es <> Some (Dir m' t' es')) ->
  exists s' es',
    restoreLoop goos fuel dir s = Some (s', inl tt) /\
    lookup (pathKey goos dir) (r_fs s') = Some (Dir m t es') /\
    (forall e n, In (e, n) (combine entries names) ->
       getEntry n es' = Some (File (Perm (FileMode (Mode (e_hdr e)))) 0
                                   (Size (e_hdr e)) (e_data e))) /\
    (forall n, In n names -> getEntry (n ++ ".tmp") es' = None) /\
    (forall x, ~ In x names -> (forall n, In n names -> x <> (n ++ ".tmp")%string) ->
       getEntry x es' = getEntry x es) /\
    r_log s' = rev (map (fun n => FileSynced (tmpPath goos dir n)) names) ++ r_log s.
Proof.
  intros Hflat. induction Hflat as [|e n entries names He Hrest IH];
    intros Hnd Htmp fuel s es Hfuel Herr Hnb Hp Ht Hl Hfresh Hnodir.
  - destruct fuel as [|fuel]; [simpl in Hfuel; lia|].
    destruct (extractFile_at_end s Herr Hnb Hp Ht) as (s' & Hx & Hfs & Hlog).
    exists s', es. cbn [restoreLoop]. rewrite Hx. cbn [errorOf isEOF].
    split; [reflexivity|]. rewrite Hfs, Hlog.
    split; [exact Hl|]. split; [intros ? ? []|]. split; [intros ? []|].
    split; reflexivity.
  - destruct fuel as [|fuel]; [simpl in Hfuel; lia|].
    destruct He as (Hreg & Hlen & (a & b & c & Hsec) & Hn).
    destruct e as [hdr data]. cbn [e_hdr e_data] in *.
    destruct (extractFile_round goos dir s hdr data entries a b c n m t es
                Herr Hnb Hp Hreg Hlen Hsec Hn Hl
                (Hfresh n (or_introl eq_refl)) (Hnodir n (or_introl eq_refl)))
      as (s1 & es1 & Hx & Hl1 & Hgn & Hgt & Hother & Hlog1 & Htr1).
    inversion Hnd as [|? ? Hnin Hnd']; subst.
    destruct (IH Hnd') with (fuel := fuel) (s := s1) (es := es1)
      as (s' & es' & Hloop & Hl' & Hfiles & Htmps & Hframe & Hlog').
    + intros x y Hx' Hy'. apply Htmp; right; assumption.
    + simpl in Hfuel. lia.
    + rewrite Htr1. reflexivity.
    + rewrite Htr1. simpl. lia.
    + rewrite Htr1. reflexivity.
    + rewrite Htr1. simpl. exact Ht.
    + exact Hl1.
    + intros n' Hn'.
      destruct (string_dec (n' ++ ".tmp") (n ++ ".tmp")) as [E|E];
        [rewrite E; exact Hgt|].
      rewrite Hother; [apply Hfresh; right; exact Hn' | | exact E].
      intros E2. apply (Htmp n' n); [right; exact Hn' | left; reflexivity |].
      symmetry. exact E2.
    + intros n' Hn' m' t' es0.
      rewrite Hother; [apply Hnodir; right; exact Hn' | |].
      * intros E2. subst n'. exact (Hnin Hn').
      * apply Htmp; [left; reflexivity | right; exact Hn'].
    + exists s', es'. cbn [restoreLoop]. rewrite Hx. cbn [errorOf isEOF].
      split; [exact Hloop|]. split; [exact Hl'|].
      assert (Hkeep : getEntry n es' = getEntry n es1).
      { apply Hframe; [exact Hnin|]. intros n' Hn'.
        apply Htmp; [right; exact Hn' | left; reflexivity]. }
      split.
      { intros e' n' [Hin|Hin].
        - inversion Hin; subst. cbn [e_hdr e_data]. rewrite Hkeep. exact Hgn.
        - apply Hfiles. exact Hin. }
      split.
      { intros n' [<-|Hn']; [|apply Htmps; exact Hn'].
        destruct (in_dec string_dec (n ++ ".tmp")%string
                         (map (fun x => (x ++ ".tmp")%string) names)) as [Hi|Hi].
        - apply in_map_iff in Hi. destruct Hi as (n' & E & Hn').
          rewrite <- E. apply Htmps. exact Hn'.
        - rewrite Hframe; [exact Hgt | |].
          + intros Hin. apply (Htmp n (n ++ ".tmp")%string);
              [left; reflexivity | right; exact Hin | reflexivity].
          + intros n' Hn' E. apply Hi. apply in_map_iff. exists n'. auto. }
      split.
      { intros x Hx' Hxt. rewrite Hframe.
        - apply Hother.
          + intros E. apply Hx'. left. symmetry. exact E.
          + apply Hxt. left. reflexivity.
        - intros Hin. apply Hx'. right. exact Hin.
        - intros n' Hn'. apply Hxt. right. exact Hn'. }
      rewrite Hlog', Hlog1. cbn [map rev]. rewrite <- app_assoc. reflexivity.
Qed.

End Whole.

(** ** Files that reach the restored directory *)

Section Restored.
Variable goos : GOOS.

Lemma node_dir (fs : Node) (dir : string) (n : Node) :
  node goos fs dir = Some n -> lookup (pathKey goos dir) fs = Some n.
Proof.
  unfold node. destruct (String.eqb dir EmptyString); [discriminate | auto].
Qed.

Lemma node_Join (fs : Node) (dir name : string) (m : Z) (t : Time)
  (es : list (string * Node)) :
  lookup (pathKey goos dir) fs = Some (Dir m t es) ->
  properName goos name ->
  node goos fs (filepath.Join goos [dir; name]) = getEntry name es.
Proof.
  intros Hl Hn. apply (node_at goos fs _ (pathKey goos dir) name m t es);
    [apply pathKey_Join; exact Hn | exact Hl].
Qed.

Lemma node_tmpPath (fs : Node) (dir name : string) (m : Z) (t : Time)
  (es : list (string * Node)) :
  lookup (pathKey goos dir) fs = Some (Dir m t es) ->
  properName goos name ->
  node goos fs (tmpPath goos dir name) = getEntry (name ++ ".tmp") es.
Proof.
  intros Hl Hn. apply (node_at goos fs _ (pathKey goos dir) _ m t es); [|exact Hl].
  apply pathKey_Join_suffix; [exact Hn | apply sepFree_tmp | simpl; lia].
Qed.

End Restored.

(** The whole of [Restore] on an archive of files, in terms of the entry
    list of [dir]. *)
Lemma Restore_flat_keys (goos : GOOS) (entries : list Entry)
  (names : list string) (dir : string) (fs : Node) (log : list Durable)
  (m : Z) (t : Time) (es : list (string * Node)) :
  Forall2 (flatEntry goos) entries names ->
  NoDup names ->
  (forall x y, In x names -> In y names -> y <> (x ++ ".tmp")%string) ->
  node goos fs dir = Some (Dir m t es) ->
  (forall n, In n names -> getEntry (n ++ ".tmp") es = None) ->
  (forall n, In n names -> forall m' t' es', getEntry n es <> Some (Dir m' t' es')) ->
  exists s' es',
    Restore goos (entries, None) dir fs log = Some (s', None) /\
    lookup (pathKey goos dir) (r_fs s') = Some (Dir m t es') /\
    (forall e n, In (e, n) (combine entries names) ->
       getEntry n es' = Some (File (Perm (FileMode (Mode (e_hdr e)))) 0
                                   (Size (e_hdr e)) (e_data e))) /\
    (forall n, In n names -> getEntry (n ++ ".tmp") es' = None) /\
    (forall x, ~ In x names -> (forall n, In n names -> x <> (n ++ ".tmp")%string) ->
       getEntry x es' = getEntry x es) /\
    r_log s' =
      DirSynced dir
        :: rev (map (fun n => FileSynced (tmpPath goos dir n)) names) ++ log.
Proof.
  intros Hflat Hnd Htmp Hnode Hfresh Hnodir.
  pose proof (node_dir goos fs dir _ Hnode) as Hdir.
  destruct (restoreLoop_flat goos dir m t entries names Hflat Hnd Htmp
              (Datatypes.S (List.length entries))
              (mkRState fs (tr.NewReader entries None) log) es)
    as (s1 & es1 & Hloop & Hl1 & Hfiles & Htmps & Hframe & Hlog);
    cbn [r_fs r_tr r_log].
  - lia.
  - reflexivity.
  - simpl. lia.
  - reflexivity.
  - reflexivity.
  - exact Hdir.
  - exact Hfresh.
  - exact Hnodir.
  - assert (Hnode1 : node goos (r_fs s1) dir = Some (Dir m t es1)).
    { unfold node in Hnode |- *.
      destruct (String.eqb dir EmptyString); [discriminate | exact Hl1]. }
    unfold Restore. cbn [fst snd]. rewrite Hloop.
    unfold SyncDir. rewrite Hnode1.
    eexists. exists es1. split; [reflexivity|]. cbn [r_fs r_tr r_log].
    rewrite Hlog. auto 10.
Qed.

Lemma flatEntry_proper (goos : GOOS) (entries : list Entry) (names : list string) :
  Forall2 (flatEntry goos) entries names ->
  forall n, In n names -> properName goos n.
Proof.
  intros Hflat. induction Hflat as [|e n entries names He _ IH]; intros x [].
  - subst x. destruct He as (_ & _ & _ & H). exact H.
  - auto.
Qed.

(** X12: one round of the restore loop on a regular entry that comes
    with its whole payload and whose name is three sections and a proper
    file name.  If [dir] is an existing directory that holds no
    temporary file for that name and no directory of that name, the
    round succeeds: the file [dir/name] holds exactly the payload, the
    temporary file is gone, every other entry of [dir] is as it was, the
    temporary file is the one thing that was synced, and the reader is
    at the next entry. *)
Theorem extractFile_writes_regular_entry (goos : GOOS) (dir : string)
  (s : RState) (hdr : Header) (data : list byte) (rest : list Entry)
  (a b c name : string) (m : Z) (t : Time) (es : list (string * Node)) :
  r_err (r_tr s) = None ->
  r_nb (r_tr s) <= Z.of_nat (List.length (r_avail (r_tr s))) ->
  r_pending (r_tr s) = mkEntry hdr data :: rest ->
  Typeflag hdr = TypeReg ->
  Z.of_nat (List.length data) = Size hdr ->
  sectionsOf goos (Name hdr) = [a; b; c; name] ->
  properName goos name ->
  node goos (r_fs s) dir = Some (Dir m t es) ->
  node goos (r_fs s) (tmpPath goos dir name) = None ->
  (forall m' t' es',
     node goos (r_fs s) (filepath.Join goos [dir; name]) <> Some (Dir m' t' es')) ->
  exists s',
    extractFile goos dir s = (s', inl tt) /\
    (exists mode mt,
       node goos (r_fs s') (filepath.Join goos [dir; name]) =
         Some (File mode mt (Size hdr) data)) /\
    node goos (r_fs s') (tmpPath goos dir name) = None /\
    (forall other, properName goos other ->
       other <> name -> other <> (name ++ ".tmp")%string ->
       node goos (r_fs s') (filepath.Join goos [dir; other]) =
       node goos (r_fs s) (filepath.Join goos [dir; other])) /\
    r_log s' = FileSynced (tmpPath goos dir name) :: r_log s /\
    r_pending (r_tr s') = rest.
Proof.
  intros He Hnb Hp Hreg Hlen Hsec Hn Hdir Hfresh Hnodir.
  apply node_dir in Hdir.
  rewrite (node_tmpPath goos _ dir name m t es Hdir Hn) in Hfresh.
  rewrite (node_Join goos _ dir name m t es Hdir Hn) in Hnodir.
  destruct (extractFile_round goos dir s hdr data rest a b c name m t es
              He Hnb Hp Hreg Hlen Hsec Hn Hdir Hfresh Hnodir)
    as (s' & es' & Hx & Hl' & Hgn & Hgt & Hother & Hlog & Htr).
  exists s'. split; [exact Hx|].
  split.
  { rewrite (node_Join goos _ dir name m t es' Hl' Hn), Hgn. eauto. }
  split.
  { rewrite (node_tmpPath goos _ dir name m t es' Hl' Hn). exact Hgt. }
  split.
  { intros other Ho H1 H2.
    rewrite (node_Join goos _ dir other m t es' Hl' Ho),
            (node_Join goos _ dir other m t es Hdir Ho).
    apply Hother; assumption. }
  split; [exact Hlog|]. rewrite Htr. reflexivity.
Qed.

Lemma extractFile_writes_regular_entry_witness :
  exists s',
    extractFile unix "/data"
      (mkRState empty_dest
         (tr.NewReader [regular_entry "db/rp/1/a.tsm" 420 "hello"] None) []) =
      (s', inl tt) /\
    (exists mode mt,
       node unix (r_fs s') (filepath.Join unix ["/data"; "a.tsm"]) =
         Some (File mode mt 5 (list_byte_of_string "hello"))) /\
    node unix (r_fs s') (tmpPath unix "/data" "a.tsm") = None /\
    (forall other, properName unix other ->
       other <> "a.tsm"%string -> other <> ("a.tsm" ++ ".tmp")%string ->
       node unix (r_fs s') (filepath.Join unix ["/data"; other]) =
       node unix empty_dest (filepath.Join unix ["/data"; other])) /\
    r_log s' = [FileSynced (tmpPath unix "/data" "a.tsm")] /\
    r_pending (r_tr s') = [].
Proof.
  apply (extractFile_writes_regular_entry unix "/data"
           (mkRState empty_dest
              (tr.NewReader [regular_entry "db/rp/1/a.tsm" 420 "hello"] None) [])
           (e_hdr (regular_entry "db/rp/1/a.tsm" 420 "hello"))
           (list_byte_of_string "hello") [] "db" "rp" "1" "a.tsm" 493 0 []).
  - reflexivity.
  - simpl. lia.
  - reflexivity.
  - reflexivity.
  - reflexivity.
  - reflexivity.
  - repeat split; try discriminate.
    intros ch H. simpl in H.
    repeat (destruct H as [H|H]; [subst ch; reflexivity|]). contradiction.
  - reflexivity.
  - reflexivity.
  - intros m' t' es'. vm_compute. discriminate.
Defined.

(** X13: [CreateFileFromTar] is all or nothing for the destination: when
    it returns an error, whatever step failed, every entry of [dir]
    other than the temporary file is as it was before the call, the
    destination [dir/name] among them. *)
Theorem CreateFileFromTar_error_keeps_destination (goos : GOOS)
  (dir name other : string) (hdr : Header) (s s' : RState) (e : Error) :
  properName goos name ->
  properName goos other ->
  other <> (name ++ ".tmp")%string ->
  CreateFileFromTar goos (filepath.Join goos [dir; name]) hdr s = (s', inr e) ->
  node goos (r_fs s') (filepath.Join goos [dir; other]) =
  node goos (r_fs s) (filepath.Join goos [dir; other]).
Proof.
  intros Hn Ho Hne Hc.
  assert (Hk : pathKey goos (filepath.Join goos [dir; name] ++ ".tmp") =
               pathKey goos dir ++ [(name ++ ".tmp")%string]).
  { apply pathKey_Join_suffix; [exact Hn | apply sepFree_tmp | simpl; lia]. }
  pose proof (CreateFileFromTar_error_at goos (pathKey goos dir) other
                (name ++ ".tmp") Hne _ hdr s s' e Hk Hc) as H.
  unfold node. rewrite (pathKey_Join goos dir other Ho), H. reflexivity.
Qed.

Lemma CreateFileFromTar_error_keeps_destination_witness :
  node unix
    (r_fs (fst (CreateFileFromTar unix (filepath.Join unix ["/"; "a.tsm"])
                  (mkHeader TypeReg "db/rp/1/a.tsm" EmptyString 4 420 0)
                  (mkRState short_file_fs
                     (mkReader [] None 4 (list_byte_of_string "hi") None) []))))
    (filepath.Join unix ["/"; "a.tsm"]) =
  node unix short_file_fs (filepath.Join unix ["/"; "a.tsm"]).
Proof.
  apply (CreateFileFromTar_error_keeps_destination unix "/" "a.tsm" "a.tsm"
           (mkHeader TypeReg "db/rp/1/a.tsm" EmptyString 4 420 0)
           (mkRState short_file_fs
              (mkReader [] None 4 (list_byte_of_string "hi") None) [])
           _ ErrUnexpectedEOF).
  - repeat split; try discriminate.
    intros ch H. simpl in H.
    repeat (destruct H as [H|H]; [subst ch; reflexivity|]). contradiction.
  - repeat split; try discriminate.
    intros ch H. simpl in H.
    repeat (destruct H as [H|H]; [subst ch; reflexivity|]). contradiction.
  - discriminate.
  - reflexivity.
Defined.

(** X14: [Restore] of an archive of regular entries that come with
    their whole payload, each named by three sections and a proper file
    name, no two with the same file name and none with the temporary
    name of another.  If [dir] is an existing directory that holds no
    temporary file and no directory under those names, [Restore] returns
    nil; afterwards every entry's file [dir/name] holds exactly its
    payload, no temporary file is left, the entries of [dir] under other
    names are as they were, and the sync log is: each temporary file in
    archive order, then the directory. *)
Theorem Restore_flat_archive (goos : GOOS) (entries : list Entry)
  (names : list string) (dir : string) (fs : Node) (log : list Durable)
  (m : Z) (t : Time) (es : list (string * Node)) :
  Forall2 (flatEntry goos) entries names ->
  NoDup names ->
  (forall x y, In x names -> In y names -> y <> (x ++ ".tmp")%string) ->
  node goos fs dir = Some (Dir m t es) ->
  (forall n, In n names -> node goos fs (tmpPath goos dir n) = None) ->
  (forall n, In n names -> forall m' t' es',
     node goos fs (filepath.Join goos [dir; n]) <> Some (Dir m' t' es')) ->
  exists s',
    Restore goos (entries, None) dir fs log = Some (s', None) /\
    (forall e n, In (e, n) (combine entries names) ->
       Open goos (r_fs s') (filepath.Join goos [dir; n]) = inl (e_data e)) /\
    (forall n, In n names -> node goos (r_fs s') (tmpPath goos dir n) = None) /\
    (forall other, properName goos other -> ~ In other names ->
       (forall n, In n names -> other <> (n ++ ".tmp")%string) ->
       node goos (r_fs s') (filepath.Join goos [dir; other]) =
       node goos fs (filepath.Join goos [dir; other])) /\
    r_log s' =
      DirSynced dir
        :: rev (map (fun n => FileSynced (tmpPath goos dir n)) names) ++ log.
Proof.
  intros Hflat Hnd Htmp Hnode Hfresh Hnodir.
  pose proof (node_dir goos fs dir _ Hnode) as Hdir.
  pose proof (flatEntry_proper goos entries names Hflat) as Hproper.
  destruct (Restore_flat_keys goos entries names dir fs log m t es
              Hflat Hnd Htmp Hnode)
    as (s' & es' & Hres & Hl' & Hfiles & Htmps & Hframe & Hlog).
  - intros n Hn. rewrite <- (node_tmpPath goos fs dir n m t es Hdir (Hproper n Hn)).
    apply Hfresh. exact Hn.
  - intros n Hn. rewrite <- (node_Join goos fs dir n m t es Hdir (Hproper n Hn)).
    apply Hnodir. exact Hn.
  - exists s'. split; [exact Hres|].
    split.
    { intros e n Hin. unfold Open.
      assert (Hn : In n names) by (apply in_combine_r in Hin; exact Hin).
      rewrite (node_Join goos _ dir n m t es' Hl' (Hproper n Hn)).
      rewrite (Hfiles e n Hin). reflexivity. }
    split.
    { intros n Hn.
      rewrite (node_tmpPath goos _ dir n m t es' Hl' (Hproper n Hn)).
      apply Htmps. exact Hn. }
    split; [|exact Hlog].
    intros other Ho Hnin Hnt.
    rewrite (node_Join goos _ dir other m t es' Hl' Ho),
            (node_Join goos _ dir other m t es Hdir Ho).
    apply Hframe; assumption.
Qed.

Lemma Restore_flat_archive_witness :
  exists s',
    Restore unix
      ([regular_entry "db/rp/1/a.tsm" 420 "hello";
        regular_entry "db/rp/1/b.tsm" 420 "world!"], None)
      "/data" empty_dest [] = Some (s', None) /\
    (forall e n,
       In (e, n) (combine [regular_entry "db/rp/1/a.tsm" 420 "hello";
                           regular_entry "db/rp/1/b.tsm" 420 "world!"]
                          ["a.tsm"%string; "b.tsm"%string]) ->
       Open unix (r_fs s') (filepath.Join unix ["/data"; n]) = inl (e_data e)) /\
    (forall n, In n ["a.tsm"%string; "b.tsm"%string] ->
       node unix (r_fs s') (tmpPath unix "/data" n) = None) /\
    (forall other, properName unix other ->
       ~ In other ["a.tsm"%string; "b.tsm"%string] ->
       (forall n, In n ["a.tsm"%string; "b.tsm"%string] ->
                  other <> (n ++ ".tmp")%string) ->
       node unix (r_fs s') (filepath.Join unix ["/data"; other]) =
       node unix empty_dest (filepath.Join unix ["/data"; other])) /\
    r_log s' =
      DirSynced "/data"
        :: rev (map (fun n => FileSynced (tmpPath unix "/data" n))
                    ["a.tsm"%string; "b.tsm"%string]) ++ [].
Proof.
  apply (Restore_flat_archive unix
           [regular_entry "db/rp/1/a.tsm" 420 "hello";
            regular_entry "db/rp/1/b.tsm" 420 "world!"]
           ["a.tsm"%string; "b.tsm"%string] "/data" empty_dest [] 493 0 []).
  - repeat constructor; try discriminate;
      try (exists "db"%string, "rp"%string, "1"%string; reflexivity);
      intros ch H; simpl in H;
      repeat (destruct H as [H|H]; [subst ch; reflexivity|]); contradiction.
  - repeat constructor; simpl; intuition discriminate.
  - intros x y Hx Hy. simpl in Hx, Hy.
    destruct Hx as [<-|[<-|[]]]; destruct Hy as [<-|[<-|[]]]; discriminate.
  - reflexivity.
  - intros n [<-|[<-|[]]]; reflexivity.
  - intros n [<-|[<-|[]]] m' t' es'; vm_compute; discriminate.
Defined.

(** ** The paths and names of a streamed directory *)

Section StreamedPaths.
Variable goos : GOOS.

Lemma Split_app_sep (p n : string) (c : ascii) :
  filepath.IsPathSeparator goos c = true -> sepFree goos n ->
  filepath.Split goos (p ++ String c n) = ((p ++ String c EmptyString)%string, n).
Proof.
  intros Hc Hn. induction p as [|x p IH].
  - cbn [String.append filepath.Split]. rewrite (Split_sepFree goos n Hn).
    cbn [String.eqb]. rewrite Hc. reflexivity.
  - cbn [String.append filepath.Split]. rewrite IH.
    destruct (p ++ String c EmptyString)%string eqn:E; [destruct p; discriminate|].
    reflexivity.
Qed.

Lemma Clean_eq (p q : string) :
  p <> EmptyString -> q <> EmptyString ->
  filepath.rooted goos p = filepath.rooted goos q ->
  cleanStack goos p = cleanStack goos q ->
  filepath.Clean goos p = filepath.Clean goos q.
Proof.
  intros Hp Hq Hr Hs. rewrite (Clean_form goos p Hp), (Clean_form goos q Hq), Hr, Hs.
  reflexivity.
Qed.

Lemma Clean_nonempty (p : string) : filepath.Clean goos p <> EmptyString.
Proof.
  destruct (String.eqb p EmptyString) eqn:E.
  - apply String.eqb_eq in E. subst p. destruct goos; discriminate.
  - apply String.eqb_neq in E. rewrite (Clean_form goos p E).
    destruct (filepath.rooted goos p); [discriminate|].
    pose proof (cleanStack_shape goos p) as Hsh.
    pose proof (stackShape_sepFree goos _ _ Hsh) as Hall.
    destruct (cleanStack goos p) as [|x l] eqn:Est; [discriminate|].
    destruct (join_not_rooted goos (rev (x :: l))) as [_ Hn]; [| |exact Hn].
    + intros E2. apply (f_equal (@rev string)) in E2.
      rewrite rev_involutive in E2. discriminate.
    + apply Forall_rev. exact Hall.
Qed.

Lemma cleanStack_trailing_sep (p : string) :
  p <> EmptyString ->
  cleanStack goos (p ++ String (filepath.Separator goos) EmptyString) = cleanStack goos p.
Proof.
  intros Hp. unfold cleanStack. rewrite (rooted_app goos p _ Hp).
  rewrite splitOn_app_sep by apply IsPathSeparator_Separator.
  rewrite fold_left_app. reflexivity.
Qed.

Lemma joinWith_snoc_sep (l : list string) (n : string) :
  l <> [] ->
  joinWith (filepath.sepString goos) (l ++ [n]) =
  (joinWith (filepath.sepString goos) l ++ String (filepath.Separator goos) n)%string.
Proof.
  unfold joinWith. induction l as [|a l IH]; intros Hne; [congruence|].
  destruct l as [|b l'].
  - reflexivity.
  - change ((a :: b :: l') ++ [n]) with (a :: ((b :: l') ++ [n])).
    cbn [String.concat]. cbn [app]. rewrite append_assoc.
    f_equal. change (b :: l' ++ [n]) with ((b :: l') ++ [n]).
    rewrite IH by discriminate.
    change (filepath.sepString goos) with (String (filepath.Separator goos) EmptyString).
    reflexivity.
Qed.

(** The path joined from a directory and a proper name, from the
    cleaned directory. *)
Lemma Join_stack (dir n : string) :
  dir <> EmptyString -> properName goos n ->
  filepath.Join goos [dir; n] =
    filepath.Clean goos (dir ++ String (filepath.Separator goos) n) /\
  cleanStack goos (dir ++ String (filepath.Separator goos) n) = n :: cleanStack goos dir /\
  filepath.rooted goos (dir ++ String (filepath.Separator goos) n) = filepath.rooted goos dir.
Proof.
  intros Hd Hn. pose proof (cleanStack_Join goos dir n Hn) as Hst.
  unfold filepath.Join in *. cbn [filepath.dropEmpty] in *.
  apply String.eqb_neq in Hd. rewrite Hd in *. apply String.eqb_neq in Hd.
  change (joinWith (filepath.sepString goos) [dir; n])
    with (dir ++ String (filepath.Separator goos) n)%string in *.
  split; [reflexivity|]. split; [|apply rooted_app; exact Hd].
  destruct (cleanStack_Clean goos (dir ++ String (filepath.Separator goos) n)) as [Hc _].
  rewrite <- Hc. exact Hst.
Qed.

Lemma Join_below (dir n : string) :
  dir <> EmptyString -> cleanStack goos dir <> [] -> properName goos n ->
  filepath.Join goos [dir; n] =
  (filepath.Clean goos dir ++ String (filepath.Separator goos) n)%string.
Proof.
  intros Hd Hst Hn. destruct (Join_stack dir n Hd Hn) as (-> & Hs & Hr).
  assert (Hne : (dir ++ String (filepath.Separator goos) n)%string <> EmptyString)
    by (destruct dir; discriminate).
  rewrite (Clean_form goos _ Hne), (Clean_form goos dir Hd), Hs, Hr.
  cbn [rev].
  assert (Hrev : rev (cleanStack goos dir) <> []).
  { intros E. apply (f_equal (@rev string)) in E.
    rewrite rev_involutive in E. exact (Hst E). }
  rewrite (joinWith_snoc_sep _ n Hrev).
  destruct (filepath.rooted goos dir).
  - reflexivity.
  - destruct (cleanStack goos dir); [congruence | reflexivity].
Qed.

Lemma Join_at_top (dir n : string) :
  dir <> EmptyString -> cleanStack goos dir = [] -> properName goos n ->
  filepath.Join goos [dir; n] =
  if filepath.rooted goos dir then String (filepath.Separator goos) n else n.
Proof.
  intros Hd Hst Hn. destruct (Join_stack dir n Hd Hn) as (-> & Hs & Hr).
  assert (Hne : (dir ++ String (filepath.Separator goos) n)%string <> EmptyString)
    by (destruct dir; discriminate).
  rewrite (Clean_form goos _ Hne), Hs, Hr, Hst.
  destruct (filepath.rooted goos dir); reflexivity.
Qed.

(** The directory part of a joined path cleans to the directory. *)
Lemma Split_Join (dir n : string) :
  properName goos n ->
  filepath.Clean goos (fst (filepath.Split goos (filepath.Join goos [dir; n]))) =
  filepath.Clean goos dir.
Proof.
  intros Hn. pose proof (properName_sepFree goos n Hn) as Hf.
  destruct (String.eqb dir EmptyString) eqn:Ed.
  - apply String.eqb_eq in Ed. subst dir.
    unfold filepath.Join. cbn [filepath.dropEmpty String.eqb].
    destruct Hn as (H1 & Hrest). pose proof H1 as H1'.
    apply String.eqb_neq in H1'. rewrite H1'.
    change (joinWith (filepath.sepString goos) [n]) with n.
    rewrite (Clean_proper goos n (conj H1 Hrest)), (Split_sepFree goos n Hf).
    reflexivity.
  - apply String.eqb_neq in Ed.
    destruct (cleanStack goos dir) as [|x st] eqn:Est.
    + rewrite (Join_at_top dir n Ed Est Hn).
      rewrite (Clean_form goos dir Ed), Est.
      destruct (filepath.rooted goos dir) eqn:Hr.
      * change (String (filepath.Separator goos) n)
          with (EmptyString ++ String (filepath.Separator goos) n)%string.
        rewrite (Split_app_sep EmptyString n _ (IsPathSeparator_Separator goos) Hf).
        cbn [fst String.append]. clear. destruct goos; reflexivity.
      * rewrite (Split_sepFree goos n Hf). cbn [fst]. clear. destruct goos; reflexivity.
    + assert (Hst : cleanStack goos dir <> []) by (rewrite Est; discriminate).
      rewrite (Join_below dir n Ed Hst Hn).
      rewrite (Split_app_sep _ n _ (IsPathSeparator_Separator goos) Hf).
      cbn [fst].
      destruct (cleanStack_Clean goos dir) as [Hc Hr].
      pose proof (Clean_nonempty dir) as Hcn.
      apply Clean_eq.
      * destruct (filepath.Clean goos dir); [congruence | discriminate].
      * exact Ed.
      * rewrite (rooted_app goos _ _ Hcn). exact Hr.
      * rewrite (cleanStack_trailing_sep _ Hcn). exact Hc.
Qed.

Lemma sameWord_refl (a : string) : filepath.sameWord goos a a = true.
Proof. unfold filepath.sameWord. destruct goos; apply String.eqb_refl. Qed.

Lemma Rel_same (base targ : string) :
  filepath.Clean goos targ = filepath.Clean goos base ->
  filepath.Rel goos base targ = inl "."%string.
Proof.
  intros H. unfold filepath.Rel. rewrite H, sameWord_refl. reflexivity.
Qed.

End StreamedPaths.

Section StreamedNames.
Variable goos : GOOS.

Lemma cleanStack_Join_dot (rel : string) :
  cleanStack goos (filepath.Join goos [rel; "."]) = cleanStack goos rel /\
  filepath.rooted goos (filepath.Join goos [rel; "."]) = filepath.rooted goos rel.
Proof.
  destruct (String.eqb rel EmptyString) eqn:E.
  - apply String.eqb_eq in E. subst rel. destruct goos; split; reflexivity.
  - unfold filepath.Join. cbn [filepath.dropEmpty]. rewrite E.
    apply String.eqb_neq in E.
    change (joinWith (filepath.sepString goos) [rel; "."%string])
      with (rel ++ String (filepath.Separator goos) ".")%string.
    destruct (cleanStack_Clean goos (rel ++ String (filepath.Separator goos) "."))
      as [-> ->].
    rewrite (rooted_app goos rel _ E). split; [|reflexivity].
    unfold cleanStack. rewrite (rooted_app goos rel _ E).
    rewrite splitOn_app_sep by apply IsPathSeparator_Separator.
    rewrite (splitOn_sepFree_id goos "." (sepFree_dot goos)), fold_left_app.
    reflexivity.
Qed.

(** The path joined from a relative path and a proper name is the
    elements of the cleaned relative path and the name. *)
Lemma Join_sections (rel n : string) :
  filepath.rooted goos rel = false ->
  cleanStack goos rel <> [] ->
  properName goos n ->
  filepath.Join goos [rel; n] =
  joinWith (filepath.sepString goos) (rev (cleanStack goos rel) ++ [n]).
Proof.
  intros Hr Hst Hn.
  assert (Hne : rel <> EmptyString).
  { intros ->. apply Hst. clear. destruct goos; reflexivity. }
  destruct (Join_stack goos rel n Hne Hn) as (-> & Hs & Hr').
  assert (Hne' : (rel ++ String (filepath.Separator goos) n)%string <> EmptyString)
    by (destruct rel; discriminate).
  rewrite (Clean_form goos _ Hne'), Hs, Hr', Hr. reflexivity.
Qed.

Lemma mapString_mapString (f g : ascii -> ascii) (s : string) :
  mapString g (mapString f s) = mapString (fun c => g (f c)) s.
Proof. induction s as [|c s IH]; simpl; [reflexivity | rewrite IH; reflexivity]. Qed.

Lemma FromSlash_ToSlash (s : string) :
  (forall c, InString c s -> filepath.IsPathSeparator goos c = true ->
             c = filepath.Separator goos) ->
  filepath.FromSlash goos (filepath.ToSlash goos s) = s.
Proof.
  intros H. unfold filepath.FromSlash, filepath.ToSlash.
  destruct (Ascii.eqb (filepath.Separator goos) "/") eqn:E; [reflexivity|].
  rewrite mapString_mapString. apply mapString_same. intros c Hc.
  destruct (Ascii.eqb c (filepath.Separator goos)) eqn:E1.
  - rewrite Ascii.eqb_refl. apply Ascii.eqb_eq in E1. auto.
  - destruct (Ascii.eqb c "/") eqn:E2; [|reflexivity].
    apply Ascii.eqb_eq in E2. subst c. symmetry. apply H; [exact Hc|].
    clear. destruct goos; reflexivity.
Qed.

Lemma splitOn_ext (p q : ascii -> bool) (s : string) :
  (forall c, InString c s -> p c = q c) -> splitOn p s = splitOn q s.
Proof.
  induction s as [|c s IH]; intros H; [reflexivity|].
  cbn [splitOn]. rewrite (H c (or_introl eq_refl)).
  rewrite IH by (intros d Hd; apply H; right; exact Hd). reflexivity.
Qed.

Lemma sectionsOf_join (l : list string) :
  Forall (sepFree goos) l -> l <> [] ->
  sectionsOf goos (filepath.ToSlash goos (joinWith (filepath.sepString goos) l)) = l.
Proof.
  intros Hl Hne. unfold sectionsOf.
  pose proof (fun c => join_separators goos l c Hl) as Hsep.
  rewrite (FromSlash_ToSlash _ Hsep).
  rewrite <- (splitOn_join goos l Hl Hne) at 2.
  apply splitOn_ext. intros c Hc.
  destruct (filepath.IsPathSeparator goos c) eqn:E.
  - rewrite (Hsep c Hc E). apply Ascii.eqb_refl.
  - destruct (Ascii.eqb (filepath.Separator goos) c) eqn:E2; [|reflexivity].
    apply Ascii.eqb_eq in E2. subst c.
    rewrite IsPathSeparator_Separator in E. discriminate.
Qed.

(** The name [Stream] gives the entry of a file directly in [dir], when
    the relative path cleans to the elements [a], [b], [c]: four
    sections, the last one the file name. *)
Lemma child_entry_sections (rel n a b c : string) :
  filepath.rooted goos rel = false ->
  cleanStack goos rel = [c; b; a] ->
  properName goos n ->
  sectionsOf goos (entryName goos (filepath.Join goos [rel; "."]) n) = [a; b; c; n].
Proof.
  intros Hr Hst Hn. unfold entryName.
  destruct (cleanStack_Join_dot rel) as [Hs' Hr'].
  rewrite Join_sections; [| rewrite Hr'; exact Hr | rewrite Hs', Hst; discriminate | exact Hn].
  rewrite Hs', Hst. cbn [rev app].
  apply sectionsOf_join; [|discriminate].
  pose proof (cleanStack_shape goos rel) as Hsh. rewrite Hst in Hsh.
  pose proof (stackShape_sepFree goos _ _ Hsh) as Hall.
  inversion Hall as [|? ? [Hc _] Hall1]; subst.
  inversion Hall1 as [|? ? [Hb _] Hall2]; subst.
  inversion Hall2 as [|? ? [Ha _] _]; subst.
  repeat constructor; try assumption. apply (properName_sepFree goos n Hn).
Qed.

End StreamedNames.

(** ** The archive of a directory of files *)

Lemma getEntry_In (n : string) (nd : Node) (es : list (string * Node)) :
  NoDup (map fst es) -> In (n, nd) es -> getEntry n es = Some nd.
Proof.
  induction es as [|[k w] r IH]; intros Hnd Hin; [contradiction|].
  simpl in Hnd. inversion Hnd as [|? ? Hk Hr]; subst. simpl.
  destruct Hin as [E|Hin].
  - inversion E; subst. rewrite String.eqb_refl. reflexivity.
  - destruct (String.eqb k n) eqn:Ek.
    + apply String.eqb_eq in Ek. subst k. exfalso. apply Hk.
      apply in_map_iff. exists (n, nd). auto.
    + apply IH; assumption.
Qed.

Lemma insertByName_map {A B : Type} (g : string * A -> string * B)
  (x : string * A) (l : list (string * A)) :
  (forall y, fst (g y) = fst y) ->
  insertByName (g x) (map g l) = map g (insertByName x l).
Proof.
  intros Hg. induction l as [|y l IH]; [reflexivity|].
  simpl. rewrite !Hg. destruct (String.leb (fst x) (fst y)); [reflexivity|].
  simpl. rewrite IH. reflexivity.
Qed.

Lemma sortByName_map {A B : Type} (g : string * A -> string * B)
  (l : list (string * A)) :
  (forall y, fst (g y) = fst y) ->
  sortByName (map g l) = map g (sortByName l).
Proof.
  intros Hg. induction l as [|x l IH]; [reflexivity|].
  unfold sortByName in *. simpl. rewrite IH. apply insertByName_map. exact Hg.
Qed.

Lemma In_insertByName {A : Type} (x y : string * A) (l : list (string * A)) :
  In y (insertByName x l) <-> y = x \/ In y l.
Proof.
  induction l as [|z l IH]; simpl; [intuition congruence|].
  destruct (String.leb (fst x) (fst z)); simpl; [intuition congruence|].
  rewrite IH. intuition congruence.
Qed.

Lemma In_sortByName {A : Type} (y : string * A) (l : list (string * A)) :
  In y (sortByName l) <-> In y l.
Proof.
  induction l as [|x l IH]; [reflexivity|].
  unfold sortByName in *. simpl. rewrite In_insertByName, IH.
  intuition congruence.
Qed.

Lemma NoDup_insertByName {A : Type} (x : string * A) (l : list (string * A)) :
  NoDup (fst x :: map fst l) -> NoDup (map fst (insertByName x l)).
Proof.
  induction l as [|z l IH]; intros H; [exact H|].
  simpl. destruct (String.leb (fst x) (fst z)); [exact H|].
  simpl. inversion H as [|? ? Hx Hzl]; subst.
  inversion Hzl as [|? ? Hz Hl]; subst.
  constructor.
  - intros Hin. apply in_map_iff in Hin. destruct Hin as (y & Hy & Hin).
    apply In_insertByName in Hin. destruct Hin as [->|Hin].
    + apply Hx. left. symmetry. exact Hy.
    + apply Hz. apply in_map_iff. exists y. auto.
  - apply IH. constructor; [|exact Hl].
    intros Hin. apply Hx. right. exact Hin.
Qed.

Lemma NoDup_sortByName {A : Type} (l : list (string * A)) :
  NoDup (map fst l) -> NoDup (map fst (sortByName l)).
Proof.
  induction l as [|x l IH]; intros H; [exact H|].
  unfold sortByName in *. simpl. apply NoDup_insertByName.
  simpl in H. inversion H as [|? ? Hx Hl]; subst.
  constructor.
  - intros Hin. apply Hx. apply in_map_iff in Hin. destruct Hin as (y & Hy & Hin).
    apply (In_sortByName y l) in Hin. apply in_map_iff. exists y. split; assumption.
  - apply IH. exact Hl.
Qed.

Section StreamedFiles.
Variable goos : GOOS.
Variable fs : Node.
Variables (dir relativePath : string).
Variables (m : Z) (t : Time) (es : list (string * Node)).
Hypothesis Hroot : node goos fs dir = Some (Dir m t es).
Hypothesis Hnames : NoDup (map fst es).

Lemma Open_child (ne : string * Node) :
  In ne es -> regularFile goos ne ->
  Open goos fs (filepath.Join goos [dir; fst ne]) = inl (nodeData (snd ne)).
Proof.
  intros Hin (Hn & _ & mode & mt & data & Hnd).
  unfold Open.
  rewrite (node_Join goos fs dir (fst ne) m t es (node_dir goos fs dir _ Hroot) Hn).
  rewrite (getEntry_In (fst ne) (snd ne) es Hnames)
    by (destruct ne; exact Hin).
  rewrite Hnd. reflexivity.
Qed.

Lemma FileInfoHeader_regular (f : FileInfo) :
  IsRegular (fi_Mode f) = true ->
  exists h, FileInfoHeader f (fi_Name f) = inl h /\
            Typeflag h = TypeReg /\ Size h = fi_Size f.
Proof.
  intros H. unfold FileInfoHeader. rewrite H. eexists. repeat split.
Qed.

(** The default write function on a regular file of the directory. *)
Lemma StreamFile_child (ne : string * Node) (tw0 : Writer) :
  In ne es -> regularFile goos ne -> ready tw0 ->
  StreamFile goos fs (nodeInfo (fst ne) (snd ne))
             (filepath.Join goos [relativePath; "."])
             (filepath.Join goos [dir; fst ne]) tw0 =
    (mkWriter (w_out tw0
                 ++ BHeader (e_hdr (fileEntry goos relativePath ne))
                 :: dataBlocks (e_data (fileEntry goos relativePath ne)))
              0 None, None).
Proof.
  intros Hin Hreg Hready. pose proof (Open_child ne Hin Hreg) as Ho.
  destruct Hreg as (Hn & Hmode & mode & mt & data & Hnd).
  unfold fileEntry.
  set (f := nodeInfo (fst ne) (snd ne)) in *.
  assert (Hname : fi_Name f = fst ne) by (unfold f; rewrite Hnd; reflexivity).
  assert (Hsize : fi_Size f = Z.of_nat (List.length data))
    by (unfold f; rewrite Hnd; reflexivity).
  assert (Hdata : nodeData (snd ne) = data) by (rewrite Hnd; reflexivity).
  destruct (FileInfoHeader_regular f Hmode) as (h & Hh & Hty & Hsz).
  rewrite Hh. cbn [e_hdr e_data].
  unfold StreamFile. rewrite Hname.
  set (rel := filepath.Join goos [relativePath; "."%string]).
  assert (Hw : tw.WriteHeader tw0 (withName h (entryName goos rel (fst ne))) =
               (mkWriter (w_out tw0 ++ [BHeader (withName h (entryName goos rel (fst ne)))])
                         (Size h) None, None)).
  { rewrite WriteHeader_ready; [|exact Hready|].
    - cbn [withName Typeflag Size]. rewrite Hty. reflexivity.
    - intros _. cbn [withName Size]. rewrite Hsz, Hsize. lia. }
  rewrite (StreamRenameFile_regular goos fs f (fst ne) rel _ tw0 _ h _ Hmode Hh Hw Ho).
  rewrite Hdata, Hsize, Nat2Z.id, firstn_all, Z.sub_diag, Z.ltb_irrefl.
  reflexivity.
Qed.

Lemma walk_child (ne : string * Node) (keepTarOpen : bool) (tw0 : Writer) :
  In ne es -> regularFile goos ne -> ready tw0 ->
  walk goos (snd ne) (filepath.Join goos [dir; fst ne])
       (nodeInfo (fst ne) (snd ne))
       (streamWalkFn goos dir relativePath (StreamFile goos fs) keepTarOpen) tw0 =
    (mkWriter (w_out tw0
                 ++ BHeader (e_hdr (fileEntry goos relativePath ne))
                 :: dataBlocks (e_data (fileEntry goos relativePath ne)))
              0 None, None).
Proof.
  intros Hin Hreg Hready.
  rewrite <- (StreamFile_child ne tw0 Hin Hreg Hready).
  destruct Hreg as (Hn & Hmode & mode & mt & data & Hnd).
  destruct ne as [n nd]. cbn [fst snd] in *. subst nd.
  cbn [walk]. unfold streamWalkFn.
  rewrite IsDir_File, andb_false_r.
  pose proof (Split_Join goos dir n Hn) as Hs.
  destruct (filepath.Split goos (filepath.Join goos [dir; n])) as [sub base].
  cbn [fst] in Hs. rewrite (Rel_same goos dir sub Hs). reflexivity.
Qed.

Lemma walkEntries_children (keepTarOpen : bool) (l : list (string * Node)) :
  (forall ne, In ne l -> In ne es /\ regularFile goos ne) ->
  forall tw0, ready tw0 ->
  exists tw1,
    walkEntries
      (map (fun ne : string * Node =>
              (fst ne,
               (nodeInfo (fst ne) (snd ne),
                walk goos (snd ne) (filepath.Join goos [dir; fst ne])
                     (nodeInfo (fst ne) (snd ne))
                     (streamWalkFn goos dir relativePath (StreamFile goos fs)
                                   keepTarOpen))))
           l) tw0 = (tw1, None) /\
    ready tw1 /\
    w_out tw1 = w_out tw0 ++ archiveOf (map (fileEntry goos relativePath) l).
Proof.
  induction l as [|ne l IH]; intros Hl tw0 Hready.
  - exists tw0. simpl. rewrite app_nil_r. auto.
  - destruct (Hl ne (or_introl eq_refl)) as [Hin Hreg].
    cbn [map walkEntries]. rewrite (walk_child ne keepTarOpen tw0 Hin Hreg Hready).
    destruct (IH (fun x Hx => Hl x (or_intror Hx))
                 (mkWriter (w_out tw0
                              ++ BHeader (e_hdr (fileEntry goos relativePath ne))
                              :: dataBlocks (e_data (fileEntry goos relativePath ne)))
                           0 None))
      as (tw1 & Hw & Hr & Hout).
    { split; simpl; [reflexivity | lia]. }
    exists tw1. split; [exact Hw|]. split; [exact Hr|].
    rewrite Hout. cbn [w_out map archiveOf flat_map].
    rewrite <- !app_assoc. reflexivity.
Qed.

(** [Stream] with the default write function on a directory of regular
    files: the entries of the files in the order of their names, and the
    end markers. *)
Lemma Stream_files (w : Sink) :
  Forall (regularFile goos) es ->
  Stream goos fs w dir relativePath None false =
    (w ++ archiveOf (map (fileEntry goos relativePath) (sortByName es)) ++ [BEnd],
     None).
Proof.
  intros Hes. unfold Stream.
  rewrite (streamWalk_root goos fs dir relativePath m t es Hroot w None false).
  cbn [orStreamFile]. unfold childWalks.
  rewrite sortByName_map by reflexivity.
  destruct (walkEntries_children false (sortByName es)) with (tw0 := tw.NewWriter w)
    as (tw1 & Hw & Hr & Hout).
  { intros ne Hin. apply (proj1 (In_sortByName ne es)) in Hin. split; [exact Hin|].
    rewrite Forall_forall in Hes. apply Hes. exact Hin. }
  { apply ready_NewWriter. }
  rewrite Hw. unfold skipToNil. cbn [snd fst isSkipDir isSkipAll orb].
  unfold streamDeferred, tw.Close. destruct Hr as [He Hnb]. rewrite He.
  rewrite (Flush_ready tw1 (conj He Hnb)). cbn [fst w_out].
  rewrite Hout. cbn [tw.NewWriter w_out]. rewrite <- app_assoc. reflexivity.
Qed.

End StreamedFiles.

(** ** From a directory to an archive and back *)

Section ThereAndBack.
Variable goos : GOOS.

Lemma relativePath_stack (rel a b c : string) :
  properName goos a -> properName goos b -> properName goos c ->
  filepath.Clean goos rel = joinWith (filepath.sepString goos) [a; b; c] ->
  filepath.rooted goos rel = false /\ cleanStack goos rel = [c; b; a].
Proof.
  intros Ha Hb Hc Hrel.
  destruct (cleanStack_Clean goos rel) as [Hs Hr]. rewrite Hrel in Hs, Hr.
  assert (Hfree : Forall (fun e => sepFree goos e /\ e <> EmptyString) [a; b; c]).
  { constructor; [split; [apply properName_sepFree; exact Ha | apply Ha]|].
    constructor; [split; [apply properName_sepFree; exact Hb | apply Hb]|].
    constructor; [split; [apply properName_sepFree; exact Hc | apply Hc]|].
    constructor. }
  destruct (join_not_rooted goos [a; b; c]) as [Hnr _];
    [discriminate | exact Hfree |].
  split; [rewrite <- Hr; exact Hnr|].
  rewrite <- Hs. unfold cleanStack. rewrite Hnr.
  rewrite splitOn_join; [| |discriminate].
  - apply (fold_proper goos false [a; b; c] []).
    constructor; [exact Ha|]. constructor; [exact Hb|].
    constructor; [exact Hc | constructor].
  - revert Hfree. apply Forall_impl. intros e [H _]. exact H.
Qed.

Lemma fileEntry_data (rel : string) (ne : string * Node) :
  regularFile goos ne ->
  e_data (fileEntry goos rel ne) = nodeData (snd ne).
Proof.
  intros (_ & Hmode & _). unfold fileEntry.
  destruct (FileInfoHeader_regular _ Hmode) as (h & -> & _). reflexivity.
Qed.

Lemma fileEntry_flat (rel a b c : string) (ne : string * Node) :
  filepath.rooted goos rel = false ->
  cleanStack goos rel = [c; b; a] ->
  regularFile goos ne ->
  flatEntry goos (fileEntry goos rel ne) (fst ne).
Proof.
  intros Hr Hst (Hn & Hmode & mode & mt & data & Hnd). unfold fileEntry.
  destruct (FileInfoHeader_regular _ Hmode) as (h & -> & Hty & Hsz).
  unfold withName. simpl.
  split; [exact Hty|]. split.
  { rewrite Hsz, Hnd. reflexivity. }
  split; [|exact Hn].
  exists a, b, c. apply child_entry_sections; assumption.
Qed.

Lemma fileEntries_flat (rel a b c : string) (l : list (string * Node)) :
  filepath.rooted goos rel = false ->
  cleanStack goos rel = [c; b; a] ->
  Forall (regularFile goos) l ->
  Forall2 (flatEntry goos) (map (fileEntry goos rel) l) (map fst l).
Proof.
  intros Hr Hst Hl. induction Hl as [|ne l Hne Hl IH]; simpl; constructor.
  - apply (fileEntry_flat rel a b c); assumption.
  - exact IH.
Qed.

Lemma Forall_sortByName_files (es : list (string * Node)) :
  Forall (regularFile goos) es -> Forall (regularFile goos) (sortByName es).
Proof.
  rewrite !Forall_forall. intros H ne Hin. apply H.
  apply (proj1 (In_sortByName ne es)). exact Hin.
Qed.

Lemma In_combine_map {A B C : Type} (f : A -> B) (g : A -> C) (x : A) (l : list A) :
  In x l -> In (f x, g x) (combine (map f l) (map g l)).
Proof.
  induction l as [|y l IH]; intros []; simpl.
  - subst y. left. reflexivity.
  - right. apply IH. assumption.
Qed.

End ThereAndBack.



(** X16: a directory of regular files goes through [Stream] and
    [Restore] unchanged.  The directory [dir] holds regular files only,
    each as long as [Lstat] says, no file name the temporary name
    ([<name>.tmp]) of another; the relative path cleans to three
    elements.  Then [Stream] with the default write function returns nil
    and leaves on the sink the entries of an archive and the end
    markers; [Restore] of that archive into an existing empty directory
    [dir2] returns nil, and afterwards every file of [dir] reads the
    same under its name in [dir2], and [dir2] holds nothing else. *)
Theorem Stream_then_Restore (goos : GOOS) (fs : Node)
  (dir relativePath a b c : string) (m : Z) (t : Time)
  (es : list (string * Node))
  (fs2 : Node) (dir2 : string) (m2 : Z) (t2 : Time) (log : list Durable) :
  node goos fs dir = Some (Dir m t es) ->
  Forall (regularFile goos) es ->
  NoDup (map fst es) ->
  (forall x y, In x (map fst es) -> In y (map fst es) -> y <> (x ++ ".tmp")%string) ->
  properName goos a -> properName goos b -> properName goos c ->
  filepath.Clean goos relativePath = joinWith (filepath.sepString goos) [a; b; c] ->
  node goos fs2 dir2 = Some (Dir m2 t2 []) ->
  exists entries s',
    Stream goos fs [] dir relativePath None false =
      (archiveOf entries ++ [BEnd], None) /\
    Restore goos (entries, None) dir2 fs2 log = Some (s', None) /\
    (forall ne, In ne es ->
       Open goos (r_fs s') (filepath.Join goos [dir2; fst ne]) =
       Open goos fs (filepath.Join goos [dir; fst ne])) /\
    (forall other, properName goos other -> ~ In other (map fst es) ->
       node goos (r_fs s') (filepath.Join goos [dir2; other]) = None).
Proof.
  intros Hroot Hes Hnd Htmp Ha Hb Hc Hrel Hdest.
  destruct (relativePath_stack goos relativePath a b c Ha Hb Hc Hrel) as [Hr Hst].
  pose proof (Forall_sortByName_files goos es Hes) as Hsorted.
  set (l := sortByName es) in *.
  set (entries := map (fileEntry goos relativePath) l).
  assert (Hin_names : forall x, In x (map fst l) -> In x (map fst es)).
  { intros x Hx. apply in_map_iff in Hx. destruct Hx as (ne & <- & Hin).
    apply in_map. apply (proj1 (In_sortByName ne es)). exact Hin. }
  destruct (Restore_flat_keys goos entries (map fst l) dir2 fs2 log m2 t2 [])
    as (s' & es' & Hres & Hl' & Hfiles & Htmps & Hframe & _).
  { apply (fileEntries_flat goos relativePath a b c); assumption. }
  { apply NoDup_sortByName. exact Hnd. }
  { intros x y Hx Hy. apply Htmp; apply Hin_names; assumption. }
  { exact Hdest. }
  { reflexivity. }
  { intros n _ m' t' es0. discriminate. }
  exists entries, s'.
  split; [apply (Stream_files goos fs dir relativePath m t es Hroot Hnd [] Hes)|].
  split; [exact Hres|].
  split.
  - intros ne Hin.
    assert (Hreg : regularFile goos ne) by (rewrite Forall_forall in Hes; auto).
    rewrite (Open_child goos fs dir m t es Hroot Hnd ne Hin Hreg).
    unfold Open.
    rewrite (node_Join goos _ dir2 (fst ne) m2 t2 es' Hl' (proj1 Hreg)).
    assert (Hinl : In ne l) by (apply (proj2 (In_sortByName ne es)); exact Hin).
    rewrite (Hfiles (fileEntry goos relativePath ne) (fst ne)
               (In_combine_map _ _ ne l Hinl)).
    rewrite (fileEntry_data goos relativePath ne Hreg). reflexivity.
  - intros other Ho Hnin.
    rewrite (node_Join goos _ dir2 other m2 t2 es' Hl' Ho).
    destruct (in_dec string_dec other
                     (map (fun x => (x ++ ".tmp")%string) (map fst l))) as [Hi|Hi].
    + apply in_map_iff in Hi. destruct Hi as (n & <- & Hn).
      apply Htmps. exact Hn.
    + rewrite Hframe; [reflexivity | |].
      * intros Hin. apply Hnin. apply Hin_names. exact Hin.
      * intros n Hn E. apply Hi. apply in_map_iff. exists n. auto.
Qed.

Lemma Stream_then_Restore_witness :
  exists entries s',
    Stream unix two_files_fs [] "/data/1" "db/rp/1" None false =
      (archiveOf entries ++ [BEnd], None) /\
    Restore unix (entries, None) "/data" empty_dest [] = Some (s', None) /\
    (forall ne,
       In ne [("b.tsm"%string, File 420 9 3 (list_byte_of_string "xyz"));
              ("a.tsm"%string, File 420 8 2 (list_byte_of_string "hi"))] ->
       Open unix (r_fs s') (filepath.Join unix ["/data"; fst ne]) =
       Open unix two_files_fs (filepath.Join unix ["/data/1"; fst ne])) /\
    (forall other, properName unix other ->
       ~ In other (map fst [("b.tsm"%string, File 420 9 3 (list_byte_of_string "xyz"));
                            ("a.tsm"%string, File 420 8 2 (list_byte_of_string "hi"))]) ->
       node unix (r_fs s') (filepath.Join unix ["/data"; other]) = None).
Proof.
  apply (Stream_then_Restore unix two_files_fs "/data/1" "db/rp/1"
           "db" "rp" "1" 493 5 _ empty_dest "/data" 493 0 []).
  - reflexivity.
  - constructor; [|constructor; [|constructor]].
    + split; [|split; [reflexivity|]].
      * repeat split; try discriminate.
        intros ch H. simpl in H.
        repeat (destruct H as [H|H]; [subst ch; reflexivity|]). contradiction.
      * exists 420, 9, (list_byte_of_string "xyz"). reflexivity.
    + split; [|split; [reflexivity|]].
      * repeat split; try discriminate.
        intros ch H. simpl in H.
        repeat (destruct H as [H|H]; [subst ch; reflexivity|]). contradiction.
      * exists 420, 8, (list_byte_of_string "hi"). reflexivity.
  - simpl. constructor; [|constructor; [|constructor]]; simpl; intuition discriminate.
  - intros x y Hx Hy. simpl in Hx, Hy.
    destruct Hx as [<-|[<-|[]]]; destruct Hy as [<-|[<-|[]]]; discriminate.
  - repeat split; try discriminate.
    intros ch H. simpl in H.
    repeat (destruct H as [H|H]; [subst ch; reflexivity|]). contradiction.
  - repeat split; try discriminate.
    intros ch H. simpl in H.
    repeat (destruct H as [H|H]; [subst ch; reflexivity|]). contradiction.
  - repeat split; try discriminate.
    intros ch H. simpl in H.
    repeat (destruct H as [H|H]; [subst ch; reflexivity|]). contradiction.
  - reflexivity.
  - reflexivity.
Defined.

(** ** An entry below a sub directory *)

Section Nested.
Variable goos : GOOS.

Lemma cleanStack_snoc (p n : string) :
  p <> EmptyString -> properName goos n ->
  cleanStack goos (p ++ String (filepath.Separator goos) n) = n :: cleanStack goos p.
Proof.
  intros Hp (H1 & H2 & H3 & H4). unfold cleanStack.
  rewrite (rooted_app goos p _ Hp).
  rewrite splitOn_app_sep by apply IsPathSeparator_Separator.
  rewrite (splitOn_sepFree_id goos n H4), fold_left_app. cbn [fold_left].
  apply cleanStep_proper; assumption.
Qed.

Lemma Join_two (dir q : string) :
  dir <> EmptyString ->
  filepath.Join goos [dir; q] =
  filepath.Clean goos (dir ++ String (filepath.Separator goos) q).
Proof.
  intros Hd. unfold filepath.Join. cbn [filepath.dropEmpty].
  apply String.eqb_neq in Hd. rewrite Hd. reflexivity.
Qed.

Lemma Join_one (q : string) :
  q <> EmptyString ->
  filepath.Join goos [EmptyString; q] = filepath.Clean goos q.
Proof.
  intros Hq. unfold filepath.Join. cbn [filepath.dropEmpty String.eqb].
  apply String.eqb_neq in Hq. rewrite Hq. reflexivity.
Qed.

(** The stack of [dir] joined with [sub/name], [sub/] and, with a
    suffix on it, [sub/name]. *)
Lemma cleanStack_Join_nested (dir sub name : string) :
  properName goos sub -> properName goos name ->
  cleanStack goos (filepath.Join goos
    [dir; (sub ++ String (filepath.Separator goos) name)%string]) =
  name :: sub :: cleanStack goos dir.
Proof.
  intros Hs Hn.
  assert (Hsub : sub <> EmptyString) by apply Hs.
  destruct (String.eqb dir EmptyString) eqn:Ed.
  - apply String.eqb_eq in Ed. subst dir.
    rewrite Join_one by (destruct sub; [congruence | discriminate]).
    destruct (cleanStack_Clean goos (sub ++ String (filepath.Separator goos) name))
      as [-> _].
    rewrite (cleanStack_snoc sub name Hsub Hn), (cleanStack_proper goos sub Hs).
    clear. destruct goos; reflexivity.
  - apply String.eqb_neq in Ed. rewrite (Join_two dir _ Ed).
    destruct (cleanStack_Clean goos
                (dir ++ String (filepath.Separator goos)
                          (sub ++ String (filepath.Separator goos) name)))
      as [-> _].
    change (dir ++ String (filepath.Separator goos)
                     (sub ++ String (filepath.Separator goos) name))%string
      with (dir ++ (String (filepath.Separator goos) sub
                      ++ String (filepath.Separator goos) name))%string.
    rewrite <- append_assoc.
    rewrite cleanStack_snoc; [|destruct dir; [congruence | discriminate] | exact Hn].
    rewrite (cleanStack_snoc dir sub Ed Hs). reflexivity.
Qed.

Lemma cleanStack_Join_subdir (dir sub : string) :
  properName goos sub ->
  cleanStack goos (filepath.Join goos
    [dir; (sub ++ String (filepath.Separator goos) EmptyString)%string]) =
  sub :: cleanStack goos dir.
Proof.
  intros Hs. assert (Hsub : sub <> EmptyString) by apply Hs.
  destruct (String.eqb dir EmptyString) eqn:Ed.
  - apply String.eqb_eq in Ed. subst dir.
    rewrite Join_one by (destruct sub; [congruence | discriminate]).
    destruct (cleanStack_Clean goos (sub ++ String (filepath.Separator goos) EmptyString))
      as [-> _].
    rewrite (cleanStack_trailing_sep goos sub Hsub), (cleanStack_proper goos sub Hs).
    clear. destruct goos; reflexivity.
  - apply String.eqb_neq in Ed. rewrite (Join_two dir _ Ed).
    destruct (cleanStack_Clean goos
                (dir ++ String (filepath.Separator goos)
                          (sub ++ String (filepath.Separator goos) EmptyString)))
      as [-> _].
    change (dir ++ String (filepath.Separator goos)
                     (sub ++ String (filepath.Separator goos) EmptyString))%string
      with (dir ++ (String (filepath.Separator goos) sub
                      ++ String (filepath.Separator goos) EmptyString))%string.
    rewrite <- append_assoc.
    rewrite cleanStack_trailing_sep by (destruct dir; [congruence | discriminate]).
    apply (cleanStack_snoc dir sub Ed Hs).
Qed.

Lemma pathKey_Join_subdir (dir sub : string) :
  properName goos sub ->
  pathKey goos (filepath.Join goos
    [dir; (sub ++ String (filepath.Separator goos) EmptyString)%string]) =
  pathKey goos dir ++ [sub].
Proof.
  intros Hs. rewrite !pathKey_cleanStack, cleanStack_Join_subdir by exact Hs.
  cbn [filter]. rewrite (properName_keep goos sub Hs). reflexivity.
Qed.

Lemma pathKey_Join_nested (dir sub name : string) :
  properName goos sub -> properName goos name ->
  pathKey goos (filepath.Join goos
    [dir; (sub ++ String (filepath.Separator goos) name)%string]) =
  (pathKey goos dir ++ [sub]) ++ [name].
Proof.
  intros Hs Hn. rewrite !pathKey_cleanStack, cleanStack_Join_nested by assumption.
  cbn [filter]. rewrite (properName_keep goos sub Hs), (properName_keep goos name Hn).
  cbn [rev]. reflexivity.
Qed.

Lemma pathKey_Join_nested_suffix (dir sub name suffix : string) :
  properName goos sub -> properName goos name ->
  sepFree goos suffix -> (2 <= String.length suffix)%nat ->
  pathKey goos (filepath.Join goos
    [dir; (sub ++ String (filepath.Separator goos) name)%string] ++ suffix) =
  (pathKey goos dir ++ [sub]) ++ [(name ++ suffix)%string].
Proof.
  intros Hs Hn Hf Hlen.
  pose proof (properName_suffix goos name suffix Hn Hf Hlen) as Hns.
  pose proof (cleanStack_Join_nested dir sub name Hs Hn) as Hst.
  assert (Hq : (sub ++ String (filepath.Separator goos) name)%string <> EmptyString).
  { destruct sub; discriminate. }
  destruct (Join_Clean goos dir _ Hq) as (path & Hne & Hj).
  rewrite Hj in Hst |- *.
  destruct (cleanStack_Clean goos path) as [Hc _]. rewrite Hc in Hst.
  rewrite !pathKey_cleanStack.
  rewrite (cleanStack_Clean_suffix goos path name suffix _ Hne Hst Hns).
  cbn [filter]. rewrite (properName_keep goos _ Hns), (properName_keep goos sub Hs).
  cbn [rev]. reflexivity.
Qed.

(** [MkdirAll] goes past the directories that exist. *)
Lemma mkdirAllFrom_existing (perm : Z) (fs : Node) (rest : list string)
  (m : Z) (t : Time) (es : list (string * Node)) (k : list string) :
  forall done,
  lookup (done ++ k) fs = Some (Dir m t es) ->
  mkdirAllFrom done (k ++ rest) perm fs = mkdirAllFrom (done ++ k) rest perm fs.
Proof.
  induction k as [|e k IH]; intros done Hl.
  - rewrite app_nil_r. reflexivity.
  - cbn [app mkdirAllFrom].
    assert (Hl' : lookup ((done ++ [e]) ++ k) fs = Some (Dir m t es)).
    { rewrite <- app_assoc. exact Hl. }
    pose proof Hl' as Hl2. rewrite lookup_app in Hl2.
    destruct (lookup (done ++ [e]) fs) as [[mode mt sz data | mode mt es0]|];
      [| |discriminate].
    + destruct k; simpl in Hl2; discriminate.
    + rewrite (IH (done ++ [e]) Hl'), <- app_assoc. reflexivity.
Qed.

End Nested.

Section NestedRound.
Variable goos : GOOS.

Lemma Join_pair (sub name : string) :
  properName goos sub -> properName goos name ->
  filepath.Join goos [sub; name] =
  (sub ++ String (filepath.Separator goos) name)%string.
Proof.
  intros Hs Hn.
  rewrite (Join_sections goos sub name (rooted_proper goos sub Hs)); [| |exact Hn].
  - rewrite (cleanStack_proper goos sub Hs). reflexivity.
  - rewrite (cleanStack_proper goos sub Hs). discriminate.
Qed.

Lemma Join_nonempty (dir q : string) :
  q <> EmptyString -> filepath.Join goos [dir; q] <> EmptyString.
Proof.
  intros Hq. destruct (Join_Clean goos dir q Hq) as (path & _ & ->).
  apply Clean_nonempty.
Qed.

(** [MkdirAll] of a missing directory directly below an existing
    one. *)
Lemma MkdirAll_below (fs : Node) (path : string) (perm : Z)
  (k : list string) (sub : string) (m : Z) (t : Time)
  (es : list (string * Node)) :
  path <> EmptyString ->
  pathKey goos path = k ++ [sub] ->
  lookup k fs = Some (Dir m t es) ->
  getEntry sub es = None ->
  exists fs',
    MkdirAll goos fs path perm = (fs', None) /\
    lookup k fs' = Some (Dir m t (setEntry sub (Dir perm 0 []) es)).
Proof.
  intros Hne Hk Hl Hg. unfold MkdirAll.
  rewrite (node_at goos fs path k sub m t es Hk Hl), Hg.
  apply String.eqb_neq in Hne. rewrite Hne, Hk.
  rewrite (mkdirAllFrom_existing perm fs [sub] m t es k [] Hl).
  cbn [app mkdirAllFrom].
  rewrite (lookup_child k sub fs m t es Hl), Hg.
  destruct (store_at_parent k sub (Some (Dir perm 0 [])) fs m t es Hl)
    as (fs' & Hs & Hl').
  rewrite Hs. exists fs'. split; [reflexivity | exact Hl'].
Qed.

(** A regular entry named by three sections, a directory name and a
    file name, when [dir] holds nothing under the directory name. *)
Lemma extractFile_nested_round (dir : string) (s : RState) (hdr : Header)
  (data : list byte) (rest : list Entry) (a b c sub name : string)
  (m : Z) (t : Time) (es : list (string * Node)) :
  r_err (r_tr s) = None ->
  r_nb (r_tr s) <= Z.of_nat (List.length (r_avail (r_tr s))) ->
  r_pending (r_tr s) = mkEntry hdr data :: rest ->
  Typeflag hdr = TypeReg ->
  Z.of_nat (List.length data) = Size hdr ->
  sectionsOf goos (Name hdr) = [a; b; c; sub; name] ->
  properName goos sub -> properName goos name ->
  lookup (pathKey goos dir) (r_fs s) = Some (Dir m t es) ->
  getEntry sub es = None ->
  exists s' es',
    extractFile goos dir s = (s', inl tt) /\
    lookup (pathKey goos dir ++ [sub]) (r_fs s') = Some (Dir 493 0 es') /\
    getEntry name es' =
      Some (File (Perm (FileMode (Mode hdr))) 0 (Size hdr) data) /\
    (forall x, x <> name -> getEntry x es' = None) /\
    r_log s' =
      FileSynced (filepath.Join goos [dir; filepath.Join goos [sub; name]] ++ ".tmp")
        :: r_log s /\
    r_tr s' = mkReader rest (r_tail (r_tr s)) 0 [] None.
Proof.
  intros He Hnb Hp Hreg Hlen Hsec Hsub Hn Hl Hfresh.
  destruct s as [fs rd log]. cbn [r_fs r_tr r_log] in *.
  unfold extractFile. unfold bind at 1. unfold trNext, tr.Next.
  cbn [r_fs r_tr r_log]. rewrite He.
  destruct (Z.of_nat (List.length (r_avail rd)) <? r_nb rd) eqn:E;
    [apply Z.ltb_lt in E; lia|].
  rewrite Hp. cbn [e_hdr e_data]. rewrite Hreg. cbn [isHeaderOnlyType].
  destruct (Size hdr <? 0) eqn:E2; [apply Z.ltb_lt in E2; lia|].
  fold (sectionsOf goos (Name hdr)). rewrite Hsec.
  cbn [List.length Nat.ltb Nat.leb skipn].
  rewrite (Join_pair sub name Hsub Hn).
  rewrite (Split_app_sep goos sub name _ (IsPathSeparator_Separator goos)
             (properName_sepFree goos name Hn)).
  rewrite Hreg. cbn [TypeFlag_eqb].
  assert (Hsd : String.eqb (sub ++ String (filepath.Separator goos) EmptyString)
                           EmptyString = false).
  { apply String.eqb_neq. destruct sub; discriminate. }
  rewrite Hsd. cbn [negb].
  set (subPath := filepath.Join goos
         [dir; (sub ++ String (filepath.Separator goos) EmptyString)%string]).
  destruct (MkdirAll_below fs subPath 493 (pathKey goos dir) sub m t es)
    as (fs1 & Hmk & Hl1).
  { apply Join_nonempty. destruct sub; discriminate. }
  { apply pathKey_Join_subdir. exact Hsub. }
  { exact Hl. }
  { exact Hfresh. }
  unfold bind at 1. unfold liftFs at 1. cbn [r_fs r_tr r_log]. rewrite Hmk.
  assert (Hl2 : lookup (pathKey goos dir ++ [sub]) fs1 = Some (Dir 493 0 [])).
  { rewrite (lookup_child _ sub fs1 m t _ Hl1). apply getEntry_setEntry_same. }
  destruct (CreateFileFromTar_at goos
              (filepath.Join goos
                 [dir; (sub ++ String (filepath.Separator goos) name)%string]) hdr
              (mkRState fs1 (mkReader rest (r_tail rd) (Size hdr) data None) log)
              (pathKey goos dir ++ [sub]) name (name ++ ".tmp") 493 0 [])
    as (s' & es' & Hc & Hl' & Ha & Hb & Hx & Hlog & Htr);
    cbn [r_fs r_tr r_log r_err r_nb r_avail]; auto.
  - apply pathKey_Join_nested; assumption.
  - apply pathKey_Join_nested_suffix;
      [exact Hsub | exact Hn | apply sepFree_tmp | simpl; lia].
  - apply tmp_differs.
  - intros m' t' es0. discriminate.
  - exists s', es'. cbn [r_fs r_tr r_log r_avail r_pending r_tail] in *.
    split; [exact Hc|].
    split; [exact Hl'|].
    split; [exact Ha|].
    split.
    { intros x Hx1.
      destruct (string_dec x (name ++ ".tmp")) as [->|Hx2]; [exact Hb|].
      rewrite Hx by assumption. reflexivity. }
    split; [|exact Htr].
    exact Hlog.
Qed.

End NestedRound.

(** X17: one round of the restore loop on a regular entry that comes
    with its whole payload and whose name is three sections, a directory
    name and a file name ([a/b/c/sub/name]).  If [dir] is an existing
    directory that holds nothing under the name [sub], the round
    succeeds: [dir/sub] has been made and is a directory, the file
    [dir/sub/name] in it holds exactly the payload, its temporary file
    is gone, that temporary file is the one thing that was synced, and
    the reader is at the next entry. *)
Theorem extractFile_makes_sub_directory (goos : GOOS) (dir : string)
  (s : RState) (hdr : Header) (data : list byte) (rest : list Entry)
  (a b c sub name : string) (m : Z) (t : Time) (es : list (string * Node)) :
  r_err (r_tr s) = None ->
  r_nb (r_tr s) <= Z.of_nat (List.length (r_avail (r_tr s))) ->
  r_pending (r_tr s) = mkEntry hdr data :: rest ->
  Typeflag hdr = TypeReg ->
  Z.of_nat (List.length data) = Size hdr ->
  sectionsOf goos (Name hdr) = [a; b; c; sub; name] ->
  properName goos sub -> properName goos name ->
  node goos (r_fs s) dir = Some (Dir m t es) ->
  node goos (r_fs s) (filepath.Join goos [dir; sub]) = None ->
  exists s',
    extractFile goos dir s = (s', inl tt) /\
    (exists mode mt es',
       node goos (r_fs s') (filepath.Join goos [dir; sub]) = Some (Dir mode mt es')) /\
    Open goos (r_fs s')
         (filepath.Join goos [dir; filepath.Join goos [sub; name]]) = inl data /\
    node goos (r_fs s')
         (filepath.Join goos [dir; filepath.Join goos [sub; name]] ++ ".tmp") = None /\
    r_log s' =
      FileSynced (filepath.Join goos [dir; filepath.Join goos [sub; name]] ++ ".tmp")
        :: r_log s /\
    r_pending (r_tr s') = rest.
Proof.
  intros He Hnb Hp Hreg Hlen Hsec Hsub Hn Hdir Hfresh.
  apply node_dir in Hdir.
  rewrite (node_Join goos _ dir sub m t es Hdir Hsub) in Hfresh.
  destruct (extractFile_nested_round goos dir s hdr data rest a b c sub name m t es
              He Hnb Hp Hreg Hlen Hsec Hsub Hn Hdir Hfresh)
    as (s' & es' & Hx & Hl' & Hgn & Hnone & Hlog & Htr).
  exists s'. split; [exact Hx|].
  split.
  { exists 493, 0, es'. unfold node.
    destruct (String.eqb (filepath.Join goos [dir; sub]) EmptyString) eqn:E.
    - apply String.eqb_eq in E. exfalso.
      exact (Join_nonempty goos dir sub (proj1 Hsub) E).
    - rewrite (pathKey_Join goos dir sub Hsub). exact Hl'. }
  rewrite (Join_pair goos sub name Hsub Hn) in *.
  split.
  { unfold Open.
    rewrite (node_at goos _ _ (pathKey goos dir ++ [sub]) name 493 0 es'
               (pathKey_Join_nested goos dir sub name Hsub Hn) Hl'), Hgn.
    reflexivity. }
  split.
  { rewrite (node_at goos _ _ (pathKey goos dir ++ [sub]) (name ++ ".tmp") 493 0 es'
               (pathKey_Join_nested_suffix goos dir sub name ".tmp" Hsub Hn
                  (sepFree_tmp goos) ltac:(simpl; lia)) Hl').
    apply Hnone. apply not_eq_sym, tmp_differs. }
  split; [exact Hlog|]. rewrite Htr. reflexivity.
Qed.


Lemma extractFile_makes_sub_directory_witness :
  exists s',
    extractFile unix "/data"
      (mkRState empty_dest
         (tr.NewReader [regular_entry "db/rp/1/index/a.tsi" 420 "hello"] None) []) =
      (s', inl tt) /\
    (exists mode mt es',
       node unix (r_fs s') (filepath.Join unix ["/data"; "index"]) =
         Some (Dir mode mt es')) /\
    Open unix (r_fs s')
         (filepath.Join unix ["/data"; filepath.Join unix ["index"; "a.tsi"]]) =
      inl (list_byte_of_string "hello") /\
    node unix (r_fs s')
         (filepath.Join unix ["/data"; filepath.Join unix ["index"; "a.tsi"]] ++ ".tmp") =
      None /\
    r_log s' =
      [FileSynced
         (filepath.Join unix ["/data"; filepath.Join unix ["index"; "a.tsi"]] ++ ".tmp")] /\
    r_pending (r_tr s') = [].
Proof.
  apply (extractFile_makes_sub_directory unix "/data"
           (mkRState empty_dest
              (tr.NewReader [regular_entry "db/rp/1/index/a.tsi" 420 "hello"] None) [])
           (e_hdr (regular_entry "db/rp/1/index/a.tsi" 420 "hello"))
           (list_byte_of_string "hello") [] "db" "rp" "1" "index" "a.tsi" 493 0 []).
  - reflexivity.
  - simpl. lia.
  - reflexivity.
  - reflexivity.
  - reflexivity.
  - reflexivity.
  - repeat split; try discriminate.
    intros ch H. simpl in H.
    repeat (destruct H as [H|H]; [subst ch; reflexivity|]). contradiction.
  - repeat split; try discriminate.
    intros ch H. simpl in H.
    repeat (destruct H as [H|H]; [subst ch; reflexivity|]). contradiction.
  - reflexivity.
  - reflexivity.
Defined.
